(** * MVP Builder plugin: state store, completion detection, selection and
    the orchestration loop.

    The development embeds [plugin/mvp-builder.ts] (the phase-graph plugin)
    and the functions of its two sibling variants that the specification
    refers to: [checkCompletionPromise] of the earlier phase-graph plugin
    (module [Legacy]) and [parseState], [getNextStory] and
    [allStoriesPassing] of the story-queue plugin (module [Story]).  It
    also embeds the rest of the story-queue plugin (its state store, its
    prompt and its event handler, in module [Story]) and the prompt
    discovery of the earlier plugin (module [LegacyPlugin]).

    Conventions of the embedding.
    - A JavaScript string is a [string]: a sequence of code units, of which
      the model keeps the 8-bit ones.  The non-ASCII characters of the fixed
      templates appear as the bytes of the source file.
    - Regular expressions are embedded as the matching functions they
      denote, one per pattern, with the pattern described above each.
    - A JavaScript [number] that holds a counter is a [num]: an integer or
      [NaN] (what [parseInt] yields on text without digits).
    - Functions that can raise return an [outcome]; [try]/[catch] is
      [catch].
    - The file system, the clock, git and the agent session are fields of a
      [World]; the handler returns the effects it performed as a [Run].

    The first part holds the definitions, the second the properties: the
    completion detector, story selection, loading of the state, the event
    handler, prompt rendering, the round trip through the state file and
    the cycles without completion signal; then, under the heading of the
    further properties, whole runs of the handler, its transitions, the
    state store, prompt discovery, the rendered instructions and the
    story-queue plugin. *)

From Stdlib Require Import String Ascii List ZArith Lia Bool Arith.
From Stdlib Require Import DecimalString DecimalZ Decimal DecimalFacts.
From Stdlib Require Import Sorting.Permutation Sorting.Sorted.
Import ListNotations.
Local Open Scope string_scope.

(** ** Characters *)

Definition LF : ascii := "010"%char.
Definition CR : ascii := "013"%char.
Definition DQ : ascii := "034"%char.
Definition SQ : ascii := "039"%char.
Definition BSL : ascii := "092"%char.

Definition nl : string := String LF "".
Definition dq : string := String DQ "".

(** LineTerminator, restricted to 8-bit code units: LF and CR. *)
Definition is_line_terminator (c : ascii) : bool :=
  (c =? LF)%char || (c =? CR)%char.

(** The class [\s] (and what [trim] removes): TAB, LF, VT, FF, CR, SP, NBSP. *)
Definition is_space (c : ascii) : bool :=
  let n := nat_of_ascii c in
  ((9 <=? n)%nat && (n <=? 13)%nat) || (n =? 32)%nat || (n =? 160)%nat.

(** The class [\d]. *)
Definition is_digit (c : ascii) : bool :=
  let n := nat_of_ascii c in (48 <=? n)%nat && (n <=? 57)%nat.

(** ** Text helpers *)

(** [s] without its prefix [p], when it has this prefix. *)
Fixpoint strip_prefix (p s : string) : option string :=
  match p with
  | "" => Some s
  | String a p' =>
      match s with
      | String b s' => if (a =? b)%char then strip_prefix p' s' else None
      | "" => None
      end
  end.

(** [split_at_first pat s]: the text before and after the first occurrence
    of [pat] in [s]; this is how a lazy [[\s\S]*?] followed by the literal
    [pat] matches from the start of [s]. *)
Fixpoint split_at_first (pat s : string) : option (string * string) :=
  match strip_prefix pat s with
  | Some rest => Some ("", rest)
  | None =>
      match s with
      | "" => None
      | String c s' =>
          match split_at_first pat s' with
          | Some (a, b) => Some (String c a, b)
          | None => None
          end
      end
  end.

(** [s] without its leading white space: what a greedy [\s*] skips. *)
Fixpoint skip_space (s : string) : string :=
  match s with
  | String c s' => if is_space c then skip_space s' else s
  | "" => ""
  end.

(** [s] without its trailing white space. *)
Fixpoint trim_end (s : string) : string :=
  match s with
  | "" => ""
  | String c s' =>
      match trim_end s' with
      | "" => if is_space c then "" else String c ""
      | t => String c t
      end
  end.

(** [String.prototype.trim]. *)
Definition trim (s : string) : string := trim_end (skip_space s).

(** The maximal prefix without line terminator: what a greedy [.*] takes. *)
Fixpoint take_line (s : string) : string :=
  match s with
  | "" => ""
  | String c s' => if is_line_terminator c then "" else String c (take_line s')
  end.

(** [s] holds no line terminator. *)
Fixpoint no_line_terminator (s : string) : bool :=
  match s with
  | "" => true
  | String c s' => negb (is_line_terminator c) && no_line_terminator s'
  end.

(** [s.slice(0, n)]. *)
Fixpoint take (n : nat) (s : string) : string :=
  match n, s with
  | S n', String c s' => String c (take n' s')
  | _, _ => ""
  end.

(** [l.join(sep)]. *)
Definition join (sep : string) (l : list string) : string := String.concat sep l.

(** ** Outcomes of computations that can raise *)

(** A value, or an exception (of which only the occurrence is kept). *)
Inductive outcome (A : Type) : Type :=
| Return (a : A)
| Throw.
Arguments Return {A} a.
Arguments Throw {A}.

Definition bind {A B} (m : outcome A) (f : A -> outcome B) : outcome B :=
  match m with Return a => f a | Throw => Throw end.

(** [try { m } catch { h }]. *)
Definition catch {A} (m : outcome A) (h : outcome A) : outcome A :=
  match m with Return a => Return a | Throw => h end.

Declare Scope outcome_scope.
Delimit Scope outcome_scope with outcome.
Notation "x <- m ;; k" := (bind m (fun x => k))
  (at level 61, m at next level, right associativity) : outcome_scope.
Local Open Scope outcome_scope.

(** ** Completion detection *)

Definition OPEN_TAG : string := "<promise>".
Definition CLOSE_TAG : string := "</promise>".

(** The match of [text] against the opening tag, a lazy group of any
    characters and the closing tag; the result is the group: the
    leftmost start at which the opening tag is followed, somewhere, by the
    closing tag; the group is the text up to the first closing tag. *)
Fixpoint match_promise (text : string) : option string :=
  match
    match strip_prefix OPEN_TAG text with
    | Some rest => split_at_first CLOSE_TAG rest
    | None => None
    end
  with
  | Some (body, _) => Some body
  | None =>
      match text with
      | "" => None
      | String _ t => match_promise t
      end
  end.

(** The closure [hasPromise] of the event handler, with the response text
    it closes over as first argument. *)
Definition hasPromise (textContent promise : string) : bool :=
  match match_promise textContent with
  | Some m => (trim m =? promise)
  | None => false
  end.

Module Legacy.

(** [checkCompletionPromise] of the earlier phase-graph plugin. *)
Definition checkCompletionPromise (text promise : string) : bool :=
  match match_promise text with
  | None => false
  | Some m => (trim m =? promise)
  end.

End Legacy.

(** ** Numbers *)

(** A counter of the state record.  The source reads counters with
    [parseInt], which yields an integer or [NaN]; integers are unbounded
    here (the loss of precision of doubles above 2^53 is not modelled). *)
Inductive num : Type :=
| Int (z : Z)
| NaN.

(** Interpolation of a number in a template literal. *)
Definition show_num (n : num) : string :=
  match n with
  | Int z => NilZero.string_of_int (Z.to_int z)
  | NaN => "NaN"
  end.

Definition show_bool (b : bool) : string := if b then "true" else "false".

(** [a >= b] on numbers: false as soon as one side is [NaN]. *)
Definition num_geb (a b : num) : bool :=
  match a, b with
  | Int x, Int y => (y <=? x)%Z
  | _, _ => false
  end.

(** [a < b] on numbers: false as soon as one side is [NaN]. *)
Definition num_ltb (a b : num) : bool :=
  match a, b with
  | Int x, Int y => (x <? y)%Z
  | _, _ => false
  end.

(** [a + 1], and [a++]. *)
Definition num_succ (a : num) : num :=
  match a with
  | Int x => Int (x + 1)
  | NaN => NaN
  end.

(** The decimal digit a character denotes. *)
Definition digit_cons (c : ascii) : option (uint -> uint) :=
  match nat_of_ascii c with
  | 48 => Some D0 | 49 => Some D1 | 50 => Some D2 | 51 => Some D3
  | 52 => Some D4 | 53 => Some D5 | 54 => Some D6 | 55 => Some D7
  | 56 => Some D8 | 57 => Some D9
  | _ => None
  end%nat.

(** The longest prefix of decimal digits, as a decimal numeral. *)
Fixpoint read_digits (s : string) : uint :=
  match s with
  | "" => Nil
  | String c s' =>
      match digit_cons c with
      | Some d => d (read_digits s')
      | None => Nil
      end
  end.

(** The number of the digits at the start of [s]; [NaN] without a digit. *)
Definition signed_digits (negative : bool) (s : string) : num :=
  match read_digits s with
  | Nil => NaN
  | d => Int (if negative then - Z.of_uint d else Z.of_uint d)
  end.

(** [parseInt(s, 10)]: leading white space, an optional sign, then the
    longest run of digits; what follows is ignored. *)
Definition parseInt (s : string) : num :=
  match skip_space s with
  | String c r =>
      if (c =? "-")%char then signed_digits true r
      else if (c =? "+")%char then signed_digits false r
      else signed_digits false (String c r)
  | "" => NaN
  end.

(** ** JSON text of a string array *)

(** The lower-case hexadecimal digit of [n < 16]. *)
Definition hex_digit (n : nat) : ascii :=
  if (n <? 10)%nat then ascii_of_nat (48 + n) else ascii_of_nat (87 + n).

(** How [JSON.stringify] writes a character inside a string literal. *)
Definition json_escape (c : ascii) : string :=
  let n := nat_of_ascii c in
  if (c =? DQ)%char then String BSL (String DQ "")
  else if (c =? BSL)%char then String BSL (String BSL "")
  else if (n =? 8)%nat then String BSL "b"
  else if (n =? 9)%nat then String BSL "t"
  else if (n =? 10)%nat then String BSL "n"
  else if (n =? 12)%nat then String BSL "f"
  else if (n =? 13)%nat then String BSL "r"
  else if (n <? 32)%nat then
    String BSL (String "u" (String "0" (String "0"
      (String (hex_digit (n / 16)) (String (hex_digit (n mod 16)) "")))))
  else String c "".

Fixpoint json_escape_all (s : string) : string :=
  match s with
  | "" => ""
  | String c s' => json_escape c ++ json_escape_all s'
  end.

Definition json_quote (s : string) : string := dq ++ json_escape_all s ++ dq.

(** [JSON.stringify] of an array of strings (no indentation). *)
Definition JSON_stringify (l : list string) : string :=
  "[" ++ join "," (map json_quote l) ++ "]".

(** JSON white space: space, TAB, LF and CR. *)
Definition is_json_ws (c : ascii) : bool :=
  let n := nat_of_ascii c in
  (n =? 32)%nat || (n =? 9)%nat || (n =? 10)%nat || (n =? 13)%nat.

(** The value of a hexadecimal digit of either case. *)
Definition hex_value (c : ascii) : option nat :=
  let n := nat_of_ascii c in
  if (48 <=? n)%nat && (n <=? 57)%nat then Some (n - 48)
  else if (97 <=? n)%nat && (n <=? 102)%nat then Some (n - 87)
  else if (65 <=? n)%nat && (n <=? 70)%nat then Some (n - 55)
  else None.

(** The character denoted by a one-letter escape. *)
Definition json_unescape (e : ascii) : option ascii :=
  if (e =? DQ)%char then Some DQ
  else if (e =? BSL)%char then Some BSL
  else if (e =? "/")%char then Some "/"%char
  else if (e =? "b")%char then Some (ascii_of_nat 8)
  else if (e =? "f")%char then Some (ascii_of_nat 12)
  else if (e =? "n")%char then Some LF
  else if (e =? "r")%char then Some CR
  else if (e =? "t")%char then Some (ascii_of_nat 9)
  else None.

(** The code unit of [\uXXXX]; an escape above 00FF denotes a code unit
    outside the model and is refused. *)
Definition json_unicode (h1 h2 h3 h4 : ascii) : option ascii :=
  match hex_value h1, hex_value h2, hex_value h3, hex_value h4 with
  | Some a, Some b, Some c, Some d =>
      if ((a =? 0) && (b =? 0))%nat then Some (ascii_of_nat (16 * c + d))
      else None
  | _, _, _, _ => None
  end.

Inductive json_mode : Type :=
| JStart                 (* before the opening bracket *)
| JFirst                 (* after the opening bracket *)
| JElem                  (* after a comma *)
| JInStr (acc : string)  (* inside a string literal *)
| JAfter                 (* after a string literal *)
| JEnd.                  (* after the closing bracket *)

(** A one-pass reader for the JSON text of an array of strings. *)
Fixpoint json_scan (m : json_mode) (done : list string) (s : string)
  : option (list string) :=
  match s with
  | "" => match m with JEnd => Some done | _ => None end
  | String c s' =>
      match m with
      | JStart =>
          if is_json_ws c then json_scan JStart done s'
          else if (c =? "[")%char then json_scan JFirst done s'
          else None
      | JFirst =>
          if is_json_ws c then json_scan JFirst done s'
          else if (c =? "]")%char then json_scan JEnd done s'
          else if (c =? DQ)%char then json_scan (JInStr "") done s'
          else None
      | JElem =>
          if is_json_ws c then json_scan JElem done s'
          else if (c =? DQ)%char then json_scan (JInStr "") done s'
          else None
      | JInStr acc =>
          if (c =? DQ)%char then json_scan JAfter (done ++ [acc])%list s'
          else if (c =? BSL)%char then
            match s' with
            | "" => None
            | String e s'' =>
                if (e =? "u")%char then
                  match s'' with
                  | String h1 (String h2 (String h3 (String h4 r))) =>
                      match json_unicode h1 h2 h3 h4 with
                      | Some u => json_scan (JInStr (acc ++ String u "")) done r
                      | None => None
                      end
                  | _ => None
                  end
                else
                  match json_unescape e with
                  | Some u => json_scan (JInStr (acc ++ String u "")) done s''
                  | None => None
                  end
            end
          else if (nat_of_ascii c <? 32)%nat then None
          else json_scan (JInStr (acc ++ String c "")) done s'
      | JAfter =>
          if is_json_ws c then json_scan JAfter done s'
          else if (c =? ",")%char then json_scan JElem done s'
          else if (c =? "]")%char then json_scan JEnd done s'
          else None
      | JEnd =>
          if is_json_ws c then json_scan JEnd done s' else None
      end
  end.

(** [JSON.parse] at the declared type [string[]] of [referenceDocs]: the
    array for the JSON text of an array of strings, and an exception
    otherwise.  (Texts of other JSON values, which the declared type
    excludes, are treated like malformed text.) *)
Definition JSON_parse (s : string) : outcome (list string) :=
  match json_scan JStart [] s with
  | Some l => Return l
  | None => Throw
  end.

(** [s.split(",")]. *)
Fixpoint split_comma_from (cur : string) (s : string) : list string :=
  match s with
  | "" => [cur]
  | String c s' =>
      if (c =? ",")%char then cur :: split_comma_from "" s'
      else split_comma_from (cur ++ String c "") s'
  end.

Definition split_comma (s : string) : list string := split_comma_from "" s.

(** The truthiness of a string. *)
Definition nonempty (s : string) : bool :=
  match s with "" => false | _ => true end.

(** [a || b] on strings: [b] when [a] is [null] or empty. *)
Definition or_default (a : option string) (b : string) : string :=
  match a with
  | Some (String c s) => String c s
  | _ => b
  end.

(** ** The workflow record *)

(** The [status] of a prompt entry. *)
Inductive PromptStatus : Type :=
| pending
| in_progress
| completed
| skipped.

Record PromptInfo : Type := mkPromptInfo {
  filename : string;
  title : string;
  status : PromptStatus
}.

(** [phase] is kept as the text read from the state file: the source casts
    it without validation and compares it with the seven phase names. *)
Record MVPBuilderState : Type := mkState {
  active : bool;
  phase : string;
  currentPromptIndex : num;
  totalPrompts : num;
  promptSequence : list PromptInfo;
  startedAt : string;
  lastCommit : option string;
  instructionsPath : string;
  referenceDocs : list string;
  maxIterations : num;
  currentIteration : num
}.

Definition STATE_FILE : string := "mvp-builder.local.md".

(** ** The environment of one trigger *)

(** A file-system entry: a plain file or a directory with its entries. *)
Inductive node : Type :=
| File (content : string)
| Dir (entries : list string).

(** A part of a session message, and a session message. *)
Record Part : Type := mkPart {
  ptype : string;
  ptext : string
}.

Record Message : Type := mkMessage {
  role : string;
  parts : option (list Part)
}.

(** What the collaborators answer during one trigger.
    - [fs]: the file system, by path.
    - [now], [now_iso]: [Date.now()] and [new Date().toISOString()].
    - [date_value s]: [new Date(s).getTime()].
    - [git_commit d m]: the short hash printed after committing in [d] with
      message [m], or [None] when one of the three git commands fails.
    - [git_log d n]: the output of [git log --oneline -n n] in [d], or an
      exception, at the time the prompt is built (after the commit of the
      trigger, when there is one).
    - [session]: the answer of [client.session.get], its [messages] field
      possibly undefined, or an exception.
    - [error_text]: the rendering of the exception the handler catches, if
      it catches one. *)
Record World : Type := mkWorld {
  fs : string -> option node;
  now : Z;
  now_iso : string;
  date_value : string -> num;
  git_commit : string -> string -> option string;
  git_log : string -> Z -> outcome string;
  session : outcome (option (list Message));
  error_text : string
}.

(** [path.join] of two segments.  Paths are only keys of [fs] and text of
    two diagnostics; the normalisation of dots and repeated separators is
    not modelled. *)
Definition path_join (a b : string) : string := a ++ "/" ++ b.

(** [existsSync(p)]. *)
Definition existsSync (w : World) (p : string) : bool :=
  match fs w p with Some _ => true | None => false end.

(** [readFileSync(p, "utf-8")]: raises on a missing path and on a directory. *)
Definition readFileSync (w : World) (p : string) : outcome string :=
  match fs w p with
  | Some (File c) => Return c
  | _ => Throw
  end.

(** [readdirSync(p)]: raises on a missing path and on a plain file. *)
Definition readdirSync (w : World) (p : string) : outcome (list string) :=
  match fs w p with
  | Some (Dir l) => Return l
  | _ => Throw
  end.

(** ** State store: [writeState] *)

(** The checkbox character of a status. *)
Definition status_char (s : PromptStatus) : string :=
  match s with
  | completed => "x"
  | in_progress => "/"
  | _ => " "
  end.

(** The line of a prompt entry under the heading [Prompt Sequence]. *)
Definition prompt_line (p : PromptInfo) : string :=
  "- [" ++ status_char (status p) ++ "] " ++ filename p ++ " - " ++ title p.

Definition promptList (st : MVPBuilderState) : string :=
  join nl (map prompt_line (promptSequence st)).

(** [l.includes(x)]. *)
Definition includes (l : list string) (x : string) : bool :=
  existsb (String.eqb x) l.

(** The lines of the frontmatter block, in the order of the template. *)
Definition frontmatter_lines (st : MVPBuilderState) : list string :=
  [ "active: " ++ show_bool (active st);
    "phase: " ++ dq ++ phase st ++ dq;
    "current_prompt_index: " ++ show_num (currentPromptIndex st);
    "total_prompts: " ++ show_num (totalPrompts st);
    "started_at: " ++ dq ++ startedAt st ++ dq;
    "last_commit: " ++
      (match lastCommit st with
       | Some (String c s) => dq ++ String c s ++ dq
       | _ => "null"
       end);
    "instructions_path: " ++ dq ++ instructionsPath st ++ dq;
    "reference_docs: " ++ JSON_stringify (referenceDocs st);
    "max_iterations: " ++ show_num (maxIterations st);
    "current_iteration: " ++ show_num (currentIteration st) ].

Definition frontmatter_text (st : MVPBuilderState) : string :=
  join nl (frontmatter_lines st).

(** The mark before [COMPLETE] on the last line, as the source file has it. *)
Definition CHECK_MARK : string := "‚úÖ".

(** The lines under the heading [Phase Progress]. *)
Definition phase_progress_lines (st : MVPBuilderState) : list string :=
  let ph := phase st in
  [ "- " ++ (if includes ["generating_plan"] ph then "[/]" else "[x]") ++
      " Phase 1A: Generate Sequence Plan";
    "- " ++ (if ph =? "generating_prompts" then "[/]"
             else if ph =? "generating_plan" then "[ ]" else "[x]") ++
      " Phase 1B: Generate Execution Prompts";
    "- " ++ (if ph =? "executing" then
               "[/] Phase 2: Execute Prompts (" ++
                 show_num (num_succ (currentPromptIndex st)) ++ "/" ++
                 show_num (totalPrompts st) ++ ")"
             else if includes ["generating_plan"; "generating_prompts"] ph then
               "[ ] Phase 2: Execute Prompts"
             else
               "[x] Phase 2: Execute Prompts (" ++
                 show_num (totalPrompts st) ++ "/" ++
                 show_num (totalPrompts st) ++ ")");
    "- " ++ (if ph =? "qa_integration" then "[/]"
             else if includes ["generating_plan"; "generating_prompts";
                               "executing"] ph then "[ ]" else "[x]") ++
      " Phase 3A: QA Integration Check";
    "- " ++ (if ph =? "qa_completeness" then "[/]"
             else if includes ["generating_plan"; "generating_prompts";
                               "executing"; "qa_integration"] ph then "[ ]"
             else "[x]") ++
      " Phase 3B: Feature Completeness";
    "- " ++ (if ph =? "documentation" then "[/]"
             else if ph =? "complete" then "[x]" else "[ ]") ++
      " Phase 4: Documentation";
    "- " ++ (if ph =? "complete" then "[x]" else "[ ]") ++
      " " ++ CHECK_MARK ++ " COMPLETE" ].

(** The text after the frontmatter block. *)
Definition state_body (st : MVPBuilderState) : string :=
  nl ++ "## Prompt Sequence" ++ nl ++
  (match promptList st with
   | "" => "No prompts generated yet."
   | l => l
   end) ++ nl ++
  nl ++ "## Phase Progress" ++ nl ++
  join nl (phase_progress_lines st) ++ nl.

(** The text [writeState] stores in the state file. *)
Definition state_text (st : MVPBuilderState) : string :=
  "---" ++ nl ++ frontmatter_text st ++ nl ++ "---" ++ nl ++ state_body st.

(** The file system [f] with path [p] bound to [n]. *)
Definition update_fs (f : string -> option node) (p : string)
  (n : option node) : string -> option node :=
  fun q => if (q =? p) then n else f q.

(** [writeState(directory, state)]: the file system afterwards. *)
Definition writeState (f : string -> option node) (directory : string)
  (st : MVPBuilderState) : string -> option node :=
  update_fs f (path_join directory STATE_FILE) (Some (File (state_text st))).

(** [deleteState(directory)]: the file system afterwards and the result. *)
Definition deleteState (f : string -> option node) (directory : string)
  : (string -> option node) * bool :=
  let statePath := path_join directory STATE_FILE in
  match f statePath with
  | Some _ => (update_fs f statePath None, true)
  | None => (f, false)
  end.

(** ** State store: [parseState] *)

(** An optional CR at the start of [s] is dropped: what [\r?] consumes. *)
Definition skip_cr (s : string) : string :=
  match s with
  | String c s' => if (c =? CR)%char then s' else s
  | "" => ""
  end.

(** [\r?\n---\r?\n] at the start of [s]: the text after it. *)
Definition closing_fence (s : string) : option string :=
  match strip_prefix (nl ++ "---") (skip_cr s) with
  | Some t => strip_prefix nl (skip_cr t)
  | None => None
  end.

(** The lazy group before the closing fence, and the body after it. *)
Fixpoint lazy_until_fence (s : string) : option (string * string) :=
  match closing_fence s with
  | Some body => Some ("", body)
  | None =>
      match s with
      | "" => None
      | String c s' =>
          match lazy_until_fence s' with
          | Some (f, b) => Some (String c f, b)
          | None => None
          end
      end
  end.

(** The match of [content] against the frontmatter pattern: [---], an
    optional CR, LF, a lazy group of any characters, the closing fence
    (optional CR, LF, [---], optional CR, LF) and a group that takes the
    rest of the text.  The result is the two groups. *)
Definition match_frontmatter (content : string) : option (string * string) :=
  match strip_prefix "---" content with
  | Some t =>
      match strip_prefix nl (skip_cr t) with
      | Some r => lazy_until_fence r
      | None => None
      end
  | None => None
  end.

(** The first position at the start of a line (multiline [^]) where [pat]
    occurs: the text after [pat]. *)
Fixpoint find_line_start (at_start : bool) (pat s : string) : option string :=
  match (if at_start then strip_prefix pat s else None) with
  | Some rest => Some rest
  | None =>
      match s with
      | "" => None
      | String c s' => find_line_start (is_line_terminator c) pat s'
      end
  end.

(** A double or single quote. *)
Definition is_quote (c : ascii) : bool := (c =? DQ)%char || (c =? SQ)%char.

(** [s] is a run without line terminator followed by one final quote: the
    run. *)
Fixpoint quoted_tail (s : string) : option string :=
  match s with
  | "" => None
  | String c s' =>
      match s' with
      | "" => if is_quote c then Some "" else None
      | String _ _ =>
          if is_line_terminator c then None
          else match quoted_tail s' with
               | Some m => Some (String c m)
               | None => None
               end
      end
  end.

(** The replacement that drops one leading and one final quote (double or
    single, not necessarily alike) when the value has both and no line
    terminator in between; other values are unchanged. *)
Definition strip_quotes (v : string) : string :=
  match v with
  | "" => ""
  | String c s =>
      if is_quote c then
        match quoted_tail s with
        | Some m => m
        | None => v
        end
      else v
  end.

(** The closure [getValue] of [parseState]: at the first line that starts
    with [key:], the white space after the colon is skipped (it may run
    over line ends) and the value is the rest of that line. *)
Definition getValue (frontmatter key : string) : option string :=
  match find_line_start true (key ++ ":") frontmatter with
  | Some rest => Some (strip_quotes (take_line (skip_space rest)))
  | None => None
  end.

Definition getArrayValue (frontmatter key : string) : list string :=
  match getValue frontmatter key with
  | None => []
  | Some value =>
      if negb (nonempty value) || (value =? "[]") then []
      else
        match JSON_parse value with
        | Return l => l
        | Throw => filter nonempty (map trim (split_comma value))
        end
  end.

(** The longest prefix of digits and the text after it: what a greedy
    [\d+] takes and leaves. *)
Fixpoint take_digits (s : string) : string :=
  match s with
  | "" => ""
  | String c s' => if is_digit c then String c (take_digits s') else ""
  end.

Fixpoint drop_digits (s : string) : string :=
  match s with
  | "" => ""
  | String c s' => if is_digit c then drop_digits s' else s
  end.

(** The characters the prompt-line pattern accepts in the checkbox. *)
Definition is_status_char (c : ascii) : bool :=
  (c =? " ")%char || (c =? "x")%char || (c =? "/")%char.

(** The prompt-line pattern at the start of [s]: [- ], a bracketed status
    character (blank, [x] or [/]), a blank, [prompt_] with one or more
    digits and [.md], [ - ], and a title of one or more characters up to
    the end of the line.  The result is the three groups. *)
Definition match_prompt_here (s : string) : option (ascii * string * string) :=
  match strip_prefix "- [" s with
  | Some (String c s1) =>
      if is_status_char c then
        match strip_prefix "] prompt_" s1 with
        | Some s3 =>
            match take_digits s3 with
            | "" => None
            | ds =>
                match strip_prefix ".md - " (drop_digits s3) with
                | Some s6 =>
                    match take_line s6 with
                    | "" => None
                    | t => Some (c, "prompt_" ++ ds ++ ".md", t)
                    end
                | None => None
                end
            end
        | None => None
        end
      else None
  | _ => None
  end.

(** The text a match with groups [m] covers. *)
Definition matched_text (m : ascii * string * string) : string :=
  let '(c, f, t) := m in "- [" ++ String c "" ++ "] " ++ f ++ " - " ++ t.

(** All matches of the prompt-line pattern in [body] (flag [g]): the
    matched texts, left to right.  A match runs
    to the end of its line, so after a match the scan resumes at the next
    line terminator ([in_match] skips the matched text). *)
Fixpoint match_all_prompts (in_match : bool) (s : string) : list string :=
  match s with
  | "" => []
  | String c s' =>
      if in_match then match_all_prompts (negb (is_line_terminator c)) s'
      else
        match match_prompt_here s with
        | Some m => matched_text m :: match_all_prompts true s'
        | None => match_all_prompts false s'
        end
  end.

(** The leftmost match of the prompt-line pattern in [line]: its groups. *)
Fixpoint match_prompt (s : string) : option (ascii * string * string) :=
  match match_prompt_here s with
  | Some m => Some m
  | None =>
      match s with
      | "" => None
      | String _ s' => match_prompt s'
      end
  end.

(** The status a checkbox character is read as. *)
Definition status_of_char (c : ascii) : PromptStatus :=
  if (c =? "x")%char then completed
  else if (c =? "/")%char then in_progress
  else pending.

(** The prompt entries read from the body: every matched line is matched
    again for its groups. *)
Definition parse_prompt_sequence (body : string) : list PromptInfo :=
  flat_map
    (fun line =>
       match match_prompt line with
       | Some (c, f, t) => [mkPromptInfo f t (status_of_char c)]
       | None => []
       end)
    (match_all_prompts false body).

(** The record built from the two groups of the frontmatter match. *)
Definition state_of_match (w : World) (frontmatter body : string)
  : MVPBuilderState :=
  let getValue := getValue frontmatter in
  {| active := match getValue "active" with
               | Some v => (v =? "true")
               | None => false
               end;
     phase := or_default (getValue "phase") "generating_plan";
     currentPromptIndex :=
       parseInt (or_default (getValue "current_prompt_index") "0");
     totalPrompts := parseInt (or_default (getValue "total_prompts") "0");
     promptSequence := parse_prompt_sequence body;
     startedAt := or_default (getValue "started_at") (now_iso w);
     lastCommit := getValue "last_commit";
     instructionsPath := or_default (getValue "instructions_path") "instructions";
     referenceDocs := getArrayValue frontmatter "reference_docs";
     maxIterations := parseInt (or_default (getValue "max_iterations") "100");
     currentIteration := parseInt (or_default (getValue "current_iteration") "1")
  |}.

(** [parseState(directory)]; [None] is [null]. *)
Definition parseState (w : World) (directory : string)
  : outcome (option MVPBuilderState) :=
  let statePath := path_join directory STATE_FILE in
  if negb (existsSync w statePath) then Return None
  else
    catch
      (content <- readFileSync w statePath ;;
       match match_frontmatter content with
       | None => Return None
       | Some (frontmatter, body) =>
           Return (Some (state_of_match w frontmatter body))
       end)
      (Return None).

(** ** The meta-prompts of the MVP Prompt Framework *)

Definition META_PROMPT_1A : string :=
  "You are an expert technical architect and prompt engineer. I have a project overview document at @project_overview.md that describes an MVP I want to build.

Your task is to:
1. Read and deeply understand the project overview including: ICP, MVP features, tech stack, business model, user flow, and design guide
2. Break down the entire MVP build into a logical sequence of implementation steps
3. Create a detailed execution plan that groups related work into numbered prompts

For the execution plan:
- Each prompt should represent 2-4 hours of focused development work
- Group related functionality together (e.g., all auth setup in one prompt, all database schemas in another)
- Follow this general sequence: Setup ‚Üí Data Layer ‚Üí Core Features ‚Üí UI/UX ‚Üí Integration ‚Üí Polish
- Consider dependencies (e.g., database schema before API routes, auth before protected features)
- Include prompts for: initial setup verification, database schemas, mock data, core MVP features (broken into 2-4 prompts), frontend components, backend APIs, payments/monetization, testing, and deployment prep

Output a markdown document named " ++ dq ++ "prompt_sequence_plan.md" ++ dq ++ " with:
- Total number of prompts needed (typically 8-15 for an MVP)
- Brief description of what each prompt will accomplish
- Estimated time per prompt
- Dependencies between prompts
- Success criteria for each prompt

Example structure:
```
# Prompt Sequence Plan for [Project Name]

## Total Prompts: 12
## Estimated Total Time: 24-30 hours

### Prompt 01: Initial Setup Verification & Configuration
**Time:** 1-2 hours
**Dependencies:** None
**Accomplishes:** Verify Next.js + Convex + Clerk setup, configure environment variables, establish project structure
**Success Criteria:** Dev server runs, auth works, Convex syncs

### Prompt 02: Database Schema Design
**Time:** 2-3 hours
**Dependencies:** Prompt 01
**Accomplishes:** Design and implement all Convex schemas for [list core entities]
**Success Criteria:** Schemas deployed, can create/read records in Convex dashboard
...
```

Be specific to the project but create a reusable structure.".

Definition META_PROMPT_1B : string :=
  "You are an expert full-stack developer and prompt engineer. Based on the @prompt_sequence_plan.md you just created and the @project_overview.md, generate detailed execution prompts for each step in the sequence.

For each prompt file (prompt_01.md through prompt_XX.md), create a comprehensive, self-contained instruction that includes:

**Required Structure for Each Prompt:**

1. **Context Block**
   - Brief reminder of the overall project goal
   - What was accomplished in previous prompts (if applicable)
   - Specific focus of this prompt

2. **Objective Statement**
   - Clear, specific goal for this prompt
   - Expected deliverables

3. **Technical Specifications**
   - Exact tech stack components to use (from project overview)
   - File locations and naming conventions
   - Code organization standards

4. **Detailed Requirements**
   - Step-by-step implementation checklist
   - Specific features/functions to build
   - Edge cases to handle
   - Error handling requirements

5. **Code Standards**
   - TypeScript typing requirements
   - Naming conventions
   - Comment standards
   - Code organization (separate concerns, reusable components)

6. **Testing & Validation**
   - How to verify the implementation works
   - Manual testing steps
   - Expected behavior

7. **Success Criteria**
   - Specific, measurable outcomes
   - What should work after this prompt is complete

8. **Next Steps Preview**
   - Brief mention of what the next prompt will build on

**Special Instructions:**
- Make each prompt completely self-contained (developer should be able to execute with just that prompt + codebase)
- Include specific examples where helpful (e.g., " ++ dq ++ "Create a schema like this: [example]" ++ dq ++ ")
- Reference the project overview specifics (ICP, user flow, design guide)
- For UI prompts: include exact design specifications from design guide
- For backend prompts: include security, validation, and error handling details
- For feature prompts: map to exact MVP features from project overview

**Naming Convention:**
- prompt_01.md: Initial Setup Verification
- prompt_02.md: Database Schema Design
- prompt_03.md: Mock Data & Seed Scripts
- prompt_04.md: [Feature Category] - Core Feature Set 1
- prompt_05.md: [Feature Category] - Core Feature Set 2
- ... (continue based on plan)
- prompt_XX.md: Final deployment prep

Generate all prompt files now as separate markdown documents. Each prompt should be 300-600 words and immediately actionable by a developer AI agent.".

Definition META_PROMPT_2 : string :=
  "You are an expert full-stack developer specializing in Next.js, Convex, and Clerk. Execute the instructions in the current prompt.

**Execution Instructions:**

1. **Read & Plan**
   - Carefully read the entire prompt
   - Review any referenced files (@project_overview.md, previous code)
   - Create a mental implementation plan

2. **Implement Systematically**
   - Follow the prompt's requirements exactly
   - Write clean, production-ready code
   - Add helpful comments for complex logic
   - Use TypeScript strictly (no 'any' types)

3. **Verify as You Go**
   - Test each component/function as you build it
   - Check against success criteria in the prompt
   - Fix any errors before moving to next section

4. **Provide Summary**
   After implementation, give me:
   - ‚úÖ Completed tasks checklist
   - üìÅ Files created/modified with brief descriptions
   - üß™ Testing steps I should run to verify
   - ‚ö†Ô∏è Any assumptions made or edge cases to revisit
   - üîÑ What the next prompt will build on

**Code Quality Standards:**
- Follow Next.js 14+ App Router conventions
- Use Convex best practices (mutations/queries/actions)
- Implement proper Clerk auth patterns
- Mobile-responsive by default
- Accessibility (WCAG AA minimum)
- Error boundaries and user-friendly error messages

**When Stuck:**
- If requirements are unclear, make reasonable assumptions based on project overview and document them
- If a dependency is missing, note it and provide a workaround
- If tech stack choice is ambiguous, choose the simpler option

Begin implementation now. Show me the code and changes you're making.".

Definition META_PROMPT_3A : string :=
  "You are a senior QA engineer and technical architect. I've completed all implementation prompts. Review the entire codebase for integration issues.

**Review Areas:**

1. **Data Flow Integrity**
   - Do database schemas match API expectations?
   - Are Convex mutations/queries properly connected to frontend?
   - Is state management consistent across components?

2. **Authentication & Authorization**
   - Is Clerk properly protecting all routes that need it?
   - Are user permissions checked in backend mutations?
   - Do we handle unauthenticated states gracefully?

3. **User Experience Flow**
   - Does the implemented flow match @project_overview.md user flow?
   - Are there any broken links or dead ends?
   - Is loading/error state handling consistent?

4. **Code Consistency**
   - Naming conventions uniform across files?
   - Component structure consistent?
   - Similar patterns for similar problems?

5. **Performance & Scalability**
   - Any N+1 query issues?
   - Are we paginating large data sets?
   - Unnecessary re-renders or API calls?

**Deliverable:**
Create " ++ dq ++ "integration_issues.md" ++ dq ++ " listing:
- üî¥ Critical issues (blocks functionality)
- üü° Important issues (degrades UX)
- üü¢ Nice-to-haves (improvements)

For each issue, provide:
- Description
- Location (file/component)
- Suggested fix
- Estimated effort (quick/medium/significant)

After listing all issues, fix ALL üî¥ CRITICAL issues before proceeding.".

Definition META_PROMPT_3B : string :=
  "You are a product manager conducting an MVP readiness review. Compare our implemented codebase against the MVP features listed in @project_overview.md.

**Audit Process:**

1. **Feature Checklist**
   - List each MVP feature from project overview
   - Mark status: ‚úÖ Complete | üü° Partial | ‚ùå Missing
   - Note quality: üåü Excellent | ‚úîÔ∏è Good | ‚ö†Ô∏è Needs work

2. **User Flow Validation**
   - Walk through each step of the documented user flow
   - Identify any gaps or friction points
   - Check if onboarding matches the plan

3. **ICP Alignment**
   - Does the product serve the stated ICP effectively?
   - Are pain points from project overview addressed?
   - Is complexity appropriate for target users?

4. **Business Model Implementation**
   - Are pricing tiers implemented correctly?
   - Is payment integration functional?
   - Are usage limits/gates in place?

**Deliverable:**
Create " ++ dq ++ "mvp_readiness_report.md" ++ dq ++ " with:
- Overall readiness score (0-100%)
- Feature completion matrix
- Must-fix items before launch
- Nice-to-have improvements
- Launch blocker vs post-launch items

After creating the report, fix any launch blockers before proceeding.".

Definition META_PROMPT_4 : string :=
  "You are a technical writer creating end-to-end documentation for this MVP. Generate comprehensive documentation for both developers and users.

**Create These Documents:**

1. **README.md** (Developer-focused)
   - Project overview & value proposition
   - Tech stack with versions
   - Setup instructions (environment variables, installation, database setup)
   - Development workflow (running locally, testing, deploying)
   - Project structure explanation
   - Key architectural decisions
   - Troubleshooting common issues

2. **DEPLOYMENT.md**
   - Vercel deployment steps
   - Convex deployment process
   - Clerk production setup
   - Environment variables for production
   - Domain configuration
   - Monitoring & logging setup

3. **API_DOCUMENTATION.md**
   - All Convex queries/mutations/actions
   - Input parameters & types
   - Return values & types
   - Example usage
   - Error responses

4. **USER_GUIDE.md** (End-user focused)
   - Getting started tutorial
   - Feature walkthroughs with screenshots
   - Common workflows
   - FAQ
   - Troubleshooting

5. **FUTURE_ENHANCEMENTS.md**
   - Features cut from MVP (from project overview)
   - Technical debt items
   - Scalability improvements needed
   - User-requested features (placeholder)

**Style Guidelines:**
- Use clear, concise language
- Include code examples where relevant
- Add mermaid diagrams for complex flows
- Assume intelligent but unfamiliar readers
- Link between documents for cross-references".

(** ** Git helpers *)

(** [gitCommit(directory, message)]: its own [try]/[catch] turns every
    failure into [null]. *)
Definition gitCommit (w : World) (directory message : string) : option string :=
  git_commit w directory message.

(** [getRecentCommits(directory, count)]. *)
Definition getRecentCommits (w : World) (directory : string) (count : Z)
  : string :=
  match git_log w directory count with
  | Return out =>
      let log := trim out in
      if nonempty log then log else "No commits yet."
  | Throw => "Git not initialized or no commits."
  end.

(** ** File helpers *)

(** [loadFileContent(filePath)]: empty for a missing path. *)
Definition loadFileContent (w : World) (filePath : string) : outcome string :=
  if existsSync w filePath then readFileSync w filePath else Return "".

(** The loop of [loadReferenceDocs]: missing documents are left out. *)
Fixpoint loadReferenceDocs_loop (w : World) (directory : string)
  (docPaths : list string) (content : string) : outcome string :=
  match docPaths with
  | [] => Return content
  | docPath :: rest =>
      let fullPath := path_join directory docPath in
      if existsSync w fullPath then
        docContent <- readFileSync w fullPath ;;
        loadReferenceDocs_loop w directory rest
          (content ++ "### üìÑ " ++ docPath ++ "

" ++ docContent ++ "

---

")
      else loadReferenceDocs_loop w directory rest content
  end.

(** [loadReferenceDocs(directory, docPaths)]. *)
Definition loadReferenceDocs (w : World) (directory : string)
  (docPaths : list string) : outcome string :=
  match docPaths with
  | [] => Return ""
  | _ =>
      loadReferenceDocs_loop w directory docPaths
        ("

---

## üìö REFERENCE DOCUMENTATION

" ++
         "Use the following documentation as reference for implementations:

")
  end.

(** The test of a directory entry against [prompt_], one or more digits and
    [.md], anchored at both ends. *)
Definition is_prompt_file (f : string) : bool :=
  match strip_prefix "prompt_" f with
  | Some r => nonempty (take_digits r) && (drop_digits r =? ".md")
  | None => false
  end.

(** The first run of digits of a text, empty when there is none. *)
Fixpoint first_digit_run (s : string) : string :=
  match s with
  | "" => ""
  | String c s' => if is_digit c then take_digits s else first_digit_run s'
  end.

(** The sort key of a file name: [parseInt] of its first run of digits, of
    ["0"] when it has none. *)
Definition prompt_number (f : string) : Z :=
  Z.of_uint (read_digits (or_default (Some (first_digit_run f)) "0")).

(** [Array.prototype.sort] with a comparator [key a - key b]: the stable
    sort by [key]. *)
Fixpoint insert_by {A} (key : A -> Z) (x : A) (l : list A) : list A :=
  match l with
  | [] => [x]
  | y :: l' => if (key x <=? key y)%Z then x :: l else y :: insert_by key x l'
  end.

Definition sort_by {A} (key : A -> Z) (l : list A) : list A :=
  fold_right (insert_by key) [] l.

(** The last character of [s] that is not a line terminator. *)
Fixpoint last_non_terminator (s : string) : option ascii :=
  match s with
  | "" => None
  | String c s' =>
      match last_non_terminator s' with
      | Some d => Some d
      | None => if is_line_terminator c then None else Some c
      end
  end.

(** After a [#]: one or more white-space characters and a title of one or
    more characters up to the end of its line.  When only white space
    follows up to the end of the text, the white-space run gives back its
    last character that is not a line terminator, which is then the title. *)
Definition title_after_hash (s : string) : option string :=
  match s with
  | "" => None
  | String c s' =>
      if is_space c then
        match skip_space s' with
        | "" =>
            match last_non_terminator s' with
            | Some d => Some (String d "")
            | None => None
            end
        | rest => Some (take_line rest)
        end
      else None
  end.

(** The first heading of a text: the first line start with a [#] after
    which [title_after_hash] succeeds. *)
Fixpoint find_title (at_start : bool) (s : string) : option string :=
  match s with
  | "" => None
  | String c s' =>
      match (if at_start && (c =? "#")%char then title_after_hash s' else None) with
      | Some t => Some t
      | None => find_title (is_line_terminator c) s'
      end
  end.

(** The entries of the sorted prompt files: the title is the first heading
    of the file, cut to 50 characters, or [Prompt]. *)
Fixpoint discover_titles (w : World) (instructionsDir : string)
  (promptFiles : list string) : outcome (list PromptInfo) :=
  match promptFiles with
  | [] => Return []
  | f :: rest =>
      content <- loadFileContent w (path_join instructionsDir f) ;;
      infos <- discover_titles w instructionsDir rest ;;
      Return (mkPromptInfo f
                (match find_title true content with
                 | Some t => take 50 t
                 | None => "Prompt"
                 end)
                pending :: infos)
  end.

(** [discoverPromptFiles(instructionsPath)]. *)
Definition discoverPromptFiles (w : World) (instructionsDir : string)
  : outcome (list PromptInfo) :=
  if negb (existsSync w instructionsDir) then Return []
  else
    files <- readdirSync w instructionsDir ;;
    discover_titles w instructionsDir
      (sort_by prompt_number (filter is_prompt_file files)).

(** ** Phase prompt builders *)

(** [buildPhase1APrompt(state, directory)]. *)
Definition buildPhase1APrompt (w : World) (state : MVPBuilderState)
  (directory : string) : outcome string :=
  let instructionsDir := path_join directory (instructionsPath state) in
  let projectOverviewPath := path_join instructionsDir "project_overview.md" in
  overview <- loadFileContent w projectOverviewPath ;;
  docs <- loadReferenceDocs w directory (referenceDocs state) ;;
  let commits := getRecentCommits w directory 10 in
  Return
   ("# MVP Builder - STEP 1: Generate the Prompt Sequence Plan

## üìã Your Task
Read the project overview and create a detailed prompt sequence plan.

---

## üìÑ PROJECT OVERVIEW (@project_overview.md)

" ++
    (if nonempty overview then overview
     else "ERROR: project_overview.md not found at " ++ projectOverviewPath) ++
    "

" ++
    docs ++
    "

---

## üìú RECENT GIT HISTORY
```
" ++
    commits ++
    "
```

---

## üéØ INSTRUCTIONS (Meta-Prompt 1A)

" ++
    META_PROMPT_1A ++
    "

---

## ‚ö†Ô∏è IMPORTANT

1. Save the plan as `" ++
    instructionsPath state ++
    "/prompt_sequence_plan.md`
2. The starter kit already has Next.js 16 + Convex + Clerk with Google sign-in configured
3. Skip initial setup prompts if auth is already working
4. Focus on the MVP features from the project overview

## ‚úÖ COMPLETION

When you have created and saved `" ++
    instructionsPath state ++
    "/prompt_sequence_plan.md`, output exactly:

<promise>SEQUENCE_PLAN_COMPLETE</promise>").

(** [buildPhase1BPrompt(state, directory)]. *)
Definition buildPhase1BPrompt (w : World) (state : MVPBuilderState)
  (directory : string) : outcome string :=
  let instructionsDir := path_join directory (instructionsPath state) in
  let projectOverviewPath := path_join instructionsDir "project_overview.md" in
  let sequencePlanPath := path_join instructionsDir "prompt_sequence_plan.md" in
  overview <- loadFileContent w projectOverviewPath ;;
  sequencePlan <- loadFileContent w sequencePlanPath ;;
  docs <- loadReferenceDocs w directory (referenceDocs state) ;;
  Return
   ("# MVP Builder - STEP 2: Generate All Individual Execution Prompts

## üìã Your Task
Using the prompt sequence plan and project overview, generate all individual execution prompts.

---

## üìÑ PROJECT OVERVIEW (@project_overview.md)

" ++
    overview ++
    "

---

## üìã PROMPT SEQUENCE PLAN (@prompt_sequence_plan.md)

" ++
    (if nonempty sequencePlan then sequencePlan
     else "ERROR: prompt_sequence_plan.md not found!") ++
    "

" ++
    docs ++
    "

---

## üéØ INSTRUCTIONS (Meta-Prompt 1B)

" ++
    META_PROMPT_1B ++
    "

---

## ‚ö†Ô∏è IMPORTANT

1. Save ALL prompt files in `" ++
    instructionsPath state ++
    "/` folder:
   - `" ++
    instructionsPath state ++
    "/prompt_01.md`
   - `" ++
    instructionsPath state ++
    "/prompt_02.md`
   - ... and so on
2. Each prompt should be self-contained and immediately actionable
3. The starter kit already has Next.js 16 + Convex + Clerk configured

## ‚úÖ COMPLETION

After generating ALL prompt files listed in the sequence plan, output exactly:

<promise>PROMPTS_GENERATED</promise>").

(** [a[i]] for a number [i]: undefined unless [i] is an index of [a]. *)
Definition nth_num {A} (l : list A) (i : num) : option A :=
  match i with
  | Int z => if (z <? 0)%Z then None else nth_error l (Z.to_nat z)
  | NaN => None
  end.

(** [buildPhase2Prompt(state, directory)]. *)
Definition buildPhase2Prompt (w : World) (state : MVPBuilderState)
  (directory : string) : outcome string :=
  let instructionsDir := path_join directory (instructionsPath state) in
  match nth_num (promptSequence state) (currentPromptIndex state) with
  | None => Return "ERROR: No more prompts to execute."
  | Some currentPrompt =>
      let promptPath := path_join instructionsDir (filename currentPrompt) in
      promptContent <- loadFileContent w promptPath ;;
      let projectOverviewPath := path_join instructionsDir "project_overview.md" in
      overview <- loadFileContent w projectOverviewPath ;;
      docs <- loadReferenceDocs w directory (referenceDocs state) ;;
      let commits := getRecentCommits w directory 10 in
      Return
       ("# MVP Builder - STEP 3: Execute Prompt " ++
    show_num (num_succ (currentPromptIndex state)) ++
    " of " ++
    show_num (totalPrompts state) ++
    "

## üìã Current Prompt: " ++
    filename currentPrompt ++
    "

---

## üìÑ PROMPT INSTRUCTIONS

" ++
    (if nonempty promptContent then promptContent
     else "ERROR: " ++ filename currentPrompt ++ " not found at " ++ promptPath) ++
    "

---

## üìÑ PROJECT OVERVIEW (for reference)

" ++
    overview ++
    "

" ++
    docs ++
    "

---

## üìú RECENT GIT HISTORY (see what's been done)
```
" ++
    commits ++
    "
```

---

## üéØ EXECUTION INSTRUCTIONS (Meta-Prompt 2)

" ++
    META_PROMPT_2 ++
    "

---

## ‚ö†Ô∏è IMPORTANT

1. Follow the prompt instructions exactly
2. Test your implementation before marking complete
3. After completion, changes will be committed automatically
4. Progress: " ++
    show_num (num_succ (currentPromptIndex state)) ++
    "/" ++
    show_num (totalPrompts state) ++
    " prompts

## ‚úÖ COMPLETION

When ALL success criteria in the prompt are met and implementation is tested, output exactly:

<promise>PROMPT_COMPLETE</promise>")
  end.

(** [buildPhase3APrompt(state, directory)]. *)
Definition buildPhase3APrompt (w : World) (state : MVPBuilderState)
  (directory : string) : outcome string :=
  let instructionsDir := path_join directory (instructionsPath state) in
  let projectOverviewPath := path_join instructionsDir "project_overview.md" in
  overview <- loadFileContent w projectOverviewPath ;;
  docs <- loadReferenceDocs w directory (referenceDocs state) ;;
  let commits := getRecentCommits w directory 20 in
  Return
   ("# MVP Builder - STEP 4A: Quality Assurance - Integration Check

## üìã Your Task
Review the entire codebase for integration issues after completing all prompts.

---

## üìÑ PROJECT OVERVIEW (@project_overview.md)

" ++
    overview ++
    "

" ++
    docs ++
    "

---

## üìú GIT HISTORY (all completed work)
```
" ++
    commits ++
    "
```

---

## üéØ INSTRUCTIONS (Meta-Prompt 3A)

" ++
    META_PROMPT_3A ++
    "

---

## ‚ö†Ô∏è IMPORTANT

1. Save the issues list as `" ++
    instructionsPath state ++
    "/integration_issues.md`
2. Fix ALL üî¥ CRITICAL issues before proceeding
3. Document any fixes made

## ‚úÖ COMPLETION

After creating integration_issues.md and fixing all critical issues, output exactly:

<promise>INTEGRATION_CHECK_COMPLETE</promise>").

(** [buildPhase3BPrompt(state, directory)]. *)
Definition buildPhase3BPrompt (w : World) (state : MVPBuilderState)
  (directory : string) : outcome string :=
  let instructionsDir := path_join directory (instructionsPath state) in
  let projectOverviewPath := path_join instructionsDir "project_overview.md" in
  overview <- loadFileContent w projectOverviewPath ;;
  docs <- loadReferenceDocs w directory (referenceDocs state) ;;
  Return
   ("# MVP Builder - STEP 4B: Quality Assurance - Feature Completeness Audit

## üìã Your Task
Compare implemented features against the MVP requirements.

---

## üìÑ PROJECT OVERVIEW (@project_overview.md)

" ++
    overview ++
    "

" ++
    docs ++
    "

---

## üéØ INSTRUCTIONS (Meta-Prompt 3B)

" ++
    META_PROMPT_3B ++
    "

---

## ‚ö†Ô∏è IMPORTANT

1. Save the report as `" ++
    instructionsPath state ++
    "/mvp_readiness_report.md`
2. Fix any launch blockers before proceeding
3. Document the overall readiness score

## ‚úÖ COMPLETION

After creating mvp_readiness_report.md and fixing launch blockers, output exactly:

<promise>MVP_READY</promise>").

(** [buildPhase4Prompt(state, directory)]. *)
Definition buildPhase4Prompt (w : World) (state : MVPBuilderState)
  (directory : string) : outcome string :=
  let instructionsDir := path_join directory (instructionsPath state) in
  let projectOverviewPath := path_join instructionsDir "project_overview.md" in
  overview <- loadFileContent w projectOverviewPath ;;
  docs <- loadReferenceDocs w directory (referenceDocs state) ;;
  Return
   ("# MVP Builder - STEP 5: Generate Documentation

## üìã Your Task
Generate comprehensive documentation for the MVP.

---

## üìÑ PROJECT OVERVIEW (@project_overview.md)

" ++
    overview ++
    "

" ++
    docs ++
    "

---

## üéØ INSTRUCTIONS (Meta-Prompt 4)

" ++
    META_PROMPT_4 ++
    "

---

## ‚ö†Ô∏è IMPORTANT

1. Save documentation files in the project root:
   - README.md
   - DEPLOYMENT.md
   - API_DOCUMENTATION.md
   - USER_GUIDE.md
   - FUTURE_ENHANCEMENTS.md

## ‚úÖ COMPLETION

After creating all documentation files, output exactly:

<promise>DOCUMENTATION_COMPLETE</promise>").

(** [Math.floor(a / d)] for a positive integer [d]. *)
Definition num_floor_div (a : num) (d : Z) : num :=
  match a with
  | Int x => Int (x / d)
  | NaN => NaN
  end.

(** [a % d]: the remainder has the sign of [a]. *)
Definition num_rem (a : num) (d : Z) : num :=
  match a with
  | Int x => Int (Z.rem x d)
  | NaN => NaN
  end.

(** [a - b]. *)
Definition num_sub (a b : num) : num :=
  match a, b with
  | Int x, Int y => Int (x - y)
  | _, _ => NaN
  end.

(** [buildCompletePrompt(state)]: reads the clock for the elapsed time. *)
Definition buildCompletePrompt (w : World) (state : MVPBuilderState) : string :=
  let elapsed := num_sub (Int (now w)) (date_value w (startedAt state)) in
  let hours := num_floor_div elapsed (1000 * 60 * 60) in
  let minutes := num_floor_div (num_rem elapsed (1000 * 60 * 60)) (1000 * 60) in
  "# üéâ MVP Builder - COMPLETE!

## ‚úÖ All Phases Completed Successfully!

| Phase | Status |
|-------|--------|
| Phase 1A: Generate Sequence Plan | ‚úÖ Complete |
| Phase 1B: Generate Execution Prompts | ‚úÖ Complete |
| Phase 2: Execute All Prompts (" ++
    show_num (totalPrompts state) ++
    ") | ‚úÖ Complete |
| Phase 3A: Integration Check | ‚úÖ Complete |
| Phase 3B: Feature Completeness | ‚úÖ Complete |
| Phase 4: Documentation | ‚úÖ Complete |

## üìä Statistics

- **Total Prompts Executed:** " ++
    show_num (totalPrompts state) ++
    "
- **Total Iterations:** " ++
    show_num (currentIteration state) ++
    "
- **Total Time:** " ++
    show_num hours ++
    "h " ++
    show_num minutes ++
    "m
- **Last Commit:** " ++
    or_default (lastCommit state) "N/A" ++
    "

## üöÄ Next Steps

1. Review the generated documentation
2. Run the test suite: `npm test`
3. Deploy to staging: See DEPLOYMENT.md
4. Share with users for feedback

---

The MVP is ready for deployment!

<promise>MVP_COMPLETE</promise>".

(** ** The event handler *)

(** An entry passed to [client.app.log]. *)
Record LogEntry : Type := mkLog {
  level : string;
  message : string
}.

(** The effects of one call of the handler: the file system afterwards,
    the entries passed to [client.app.log], the messages passed to
    [gitCommit], the texts passed to [client.session.send], and whether
    the call ended with an exception. *)
Record Run : Type := mkRun {
  fs_after : string -> option node;
  logs : list LogEntry;
  commits : list string;
  sent : list string;
  rejected : bool
}.

(** The handler returns at once: no effect. *)
Definition idle_run (w : World) : Run :=
  mkRun (fs w) [] [] [] false.

(** The outcome of the guarded block that inspects the last response. *)
Record Check : Type := mkCheck {
  c_state : MVPBuilderState;   (* the record as the block left it *)
  c_shouldAdvance : bool;
  c_commitMessage : string;
  c_nextPhase : string;
  c_logs : list LogEntry;
  c_finished : bool;           (* the block returned from the handler *)
  c_threw : bool               (* the block ended in its [catch] *)
}.

(** The block found no completion signal. *)
Definition unchanged (state : MVPBuilderState) : Check :=
  mkCheck state false "" (phase state) [] false false.

(** The block found the signal of the phase and asks to advance. *)
Definition advance (state : MVPBuilderState) (nextPhase commitMessage : string)
  : Check :=
  mkCheck state true commitMessage nextPhase [] false false.

(** The block ended in its [catch] with the record as it was at the time
    of the exception and [commitMessage] as assigned so far; advancing was
    not yet requested. *)
Definition thrown_after (w : World) (state : MVPBuilderState)
  (commitMessage : string) : Check :=
  mkCheck state false commitMessage (phase state)
    [mkLog "warn" ("Could not check session: " ++
    error_text w)] false true.

Definition thrown (w : World) (state : MVPBuilderState) : Check :=
  thrown_after w state "".

(** Updates of a prompt entry and of the prompt list. *)
Definition set_status (s : PromptStatus) (p : PromptInfo) : PromptInfo :=
  mkPromptInfo (filename p) (title p) s.

Fixpoint update_nth {A} (n : nat) (f : A -> A) (l : list A) : list A :=
  match l, n with
  | [], _ => []
  | x :: l', O => f x :: l'
  | x :: l', S n' => x :: update_nth n' f l'
  end.

(** [a[i].status = s] when [a[i]] is defined. *)
Definition set_status_at (l : list PromptInfo) (i : num) (s : PromptStatus)
  : list PromptInfo :=
  match i with
  | Int z => if (z <? 0)%Z then l else update_nth (Z.to_nat z) (set_status s) l
  | NaN => l
  end.

(** Assignments to the fields of the record. *)
Definition with_sequence (state : MVPBuilderState) (l : list PromptInfo)
  : MVPBuilderState :=
  mkState (active state) (phase state) (currentPromptIndex state)
    (totalPrompts state) l (startedAt state) (lastCommit state)
    (instructionsPath state) (referenceDocs state) (maxIterations state)
    (currentIteration state).

Definition with_totalPrompts (state : MVPBuilderState) (n : num)
  : MVPBuilderState :=
  mkState (active state) (phase state) (currentPromptIndex state)
    n (promptSequence state) (startedAt state) (lastCommit state)
    (instructionsPath state) (referenceDocs state) (maxIterations state)
    (currentIteration state).

Definition with_index (state : MVPBuilderState) (n : num) : MVPBuilderState :=
  mkState (active state) (phase state) n
    (totalPrompts state) (promptSequence state) (startedAt state)
    (lastCommit state) (instructionsPath state) (referenceDocs state)
    (maxIterations state) (currentIteration state).

Definition with_phase (state : MVPBuilderState) (ph : string) : MVPBuilderState :=
  mkState (active state) ph (currentPromptIndex state)
    (totalPrompts state) (promptSequence state) (startedAt state)
    (lastCommit state) (instructionsPath state) (referenceDocs state)
    (maxIterations state) (currentIteration state).

Definition with_lastCommit (state : MVPBuilderState) (h : option string)
  : MVPBuilderState :=
  mkState (active state) (phase state) (currentPromptIndex state)
    (totalPrompts state) (promptSequence state) (startedAt state)
    h (instructionsPath state) (referenceDocs state)
    (maxIterations state) (currentIteration state).

Definition with_iteration (state : MVPBuilderState) (n : num) : MVPBuilderState :=
  mkState (active state) (phase state) (currentPromptIndex state)
    (totalPrompts state) (promptSequence state) (startedAt state)
    (lastCommit state) (instructionsPath state) (referenceDocs state)
    (maxIterations state) n.

(** Interpolation of a value of type [string | null]. *)
Definition show_null (o : option string) : string :=
  match o with
  | Some s => s
  | None => "null"
  end.

(** The commit message and the diagnostic of phase [generating_prompts]. *)
Definition generated_message (state : MVPBuilderState) : string :=
  "MVP Builder: Generated " ++ show_num (totalPrompts state) ++
  " execution prompts".

Definition no_files_log (dir : string) : LogEntry :=
  mkLog "error"
    ("No prompt files found in " ++ dir ++
     ". Looking for prompt_01.md, prompt_02.md, etc.").

(** The [switch] on the phase, for the text of the last assistant message. *)
Definition phase_switch (w : World) (directory : string)
  (state : MVPBuilderState) (textContent : string) : Check :=
  let ph := phase state in
  if ph =? "generating_plan" then
    if hasPromise textContent "SEQUENCE_PLAN_COMPLETE" then
      advance state "generating_prompts"
        "MVP Builder: Generated prompt sequence plan"
    else unchanged state
  else if ph =? "generating_prompts" then
    if hasPromise textContent "PROMPTS_GENERATED" then
      let dir := path_join directory (instructionsPath state) in
      match discoverPromptFiles w dir with
      | Throw => thrown w state
      | Return found =>
          let state := with_totalPrompts (with_sequence state found)
                         (Int (Z.of_nat (List.length found))) in
          match found with
          | first :: others =>
              let state := with_index state (Int 0) in
              let state :=
                with_sequence state (set_status in_progress first :: others) in
              advance state "executing" (generated_message state)
          | [] => mkCheck state false "" ph [no_files_log dir] false false
          end
      end
    else unchanged state
  else if ph =? "executing" then
    if hasPromise textContent "PROMPT_COMPLETE" then
      let idx := currentPromptIndex state in
      let '(state, commitMessage) :=
        match nth_num (promptSequence state) idx with
        | Some p =>
            (with_sequence state
               (set_status_at (promptSequence state) idx completed),
             "MVP Builder: Completed " ++
    filename p)
        | None => (state, "")
        end in
      if num_ltb (num_succ idx) (totalPrompts state) then
        let state := with_index state (num_succ idx) in
        match nth_num (promptSequence state) (num_succ idx) with
        | Some _ =>
            advance
              (with_sequence state
                 (set_status_at (promptSequence state) (num_succ idx)
                    in_progress))
              "executing" commitMessage
        | None => thrown_after w state commitMessage
        end
      else
        advance state "qa_integration"
          "MVP Builder: All execution prompts completed"
    else unchanged state
  else if ph =? "qa_integration" then
    if hasPromise textContent "INTEGRATION_CHECK_COMPLETE" then
      advance state "qa_completeness" "MVP Builder: Integration check complete"
    else unchanged state
  else if ph =? "qa_completeness" then
    if hasPromise textContent "MVP_READY" then
      advance state "documentation" "MVP Builder: MVP readiness verified"
    else unchanged state
  else if ph =? "documentation" then
    if hasPromise textContent "DOCUMENTATION_COMPLETE" then
      advance state "complete" "MVP Builder: Documentation complete"
    else unchanged state
  else if ph =? "complete" then
    if hasPromise textContent "MVP_COMPLETE" then
      mkCheck state false "" ph [] true false
    else unchanged state
  else unchanged state.

(** The last message of the assistant. *)
Definition lastAssistantMsg (messages : list Message) : option Message :=
  find (fun m => role m =? "assistant") (List.rev messages).

(** The text parts of a message, joined by line feeds. *)
Definition textContent (m : Message) : string :=
  match parts m with
  | Some ps =>
      join nl (map ptext (filter (fun p => ptype p =? "text") ps))
  | None => ""
  end.

(** The guarded block of the handler. *)
Definition check_response (w : World) (directory : string)
  (state : MVPBuilderState) : Check :=
  match session w with
  | Throw => thrown w state
  | Return None => unchanged state
  | Return (Some messages) =>
      match lastAssistantMsg messages with
      | Some m => phase_switch w directory state (textContent m)
      | None => unchanged state
      end
  end.

(** The message of the last commit of a workflow. *)
Definition FINAL_COMMIT : string :=
  "MVP Builder: MVP COMPLETE üéâ".

(** The world [w] with the file system [f]. *)
Definition with_fs (w : World) (f : string -> option node) : World :=
  mkWorld f (now w) (now_iso w) (date_value w) (git_commit w) (git_log w)
    (session w) (error_text w).

(** The status line of a trigger, built from the record just saved. *)
Definition statusMsg (state : MVPBuilderState) : string :=
  "MVP Builder | Iteration " ++ show_num (currentIteration state) ++ "/" ++
  show_num (maxIterations state) ++ " | Phase: " ++ phase state ++
  (if phase state =? "executing" then
     " | Prompt " ++ show_num (num_succ (currentPromptIndex state)) ++ "/" ++
     show_num (totalPrompts state)
   else "").

(** The [switch] that builds the prompt of the current phase. *)
Definition phase_prompt (w : World) (state : MVPBuilderState)
  (directory : string) : outcome string :=
  let ph := phase state in
  if ph =? "generating_plan" then buildPhase1APrompt w state directory
  else if ph =? "generating_prompts" then buildPhase1BPrompt w state directory
  else if ph =? "executing" then buildPhase2Prompt w state directory
  else if ph =? "qa_integration" then buildPhase3APrompt w state directory
  else if ph =? "qa_completeness" then buildPhase3BPrompt w state directory
  else if ph =? "documentation" then buildPhase4Prompt w state directory
  else if ph =? "complete" then Return (buildCompletePrompt w state)
  else Return "Unknown phase. Please run /mvp-cancel and restart.".

(** The step after the guarded block: when the block asked to advance
    with a commit message, commit, record the hash if there is one, and
    move to the next phase.  The result is the record, the log entries and
    the commit messages used. *)
Definition commit_step (w : World) (directory : string) (c : Check)
  : MVPBuilderState * list LogEntry * list string :=
  let state := c_state c in
  if c_shouldAdvance c && nonempty (c_commitMessage c) then
    let commitMessage := c_commitMessage c in
    let '(state, l) :=
      match gitCommit w directory commitMessage with
      | Some (String a h') =>
          let hash := String a h' in
          (with_lastCommit state (Some hash),
           [mkLog "info"
              ("üìù Committed: " ++ commitMessage ++ " (" ++ hash ++ ")")])
      | _ => (state, [])
      end in
    (with_phase state (c_nextPhase c), l, [commitMessage])
  else (state, [], []).

(** The record the handler saves: the iteration is counted once. *)
Definition saved_state (w : World) (directory : string) (c : Check)
  : MVPBuilderState :=
  let '(state, _, _) := commit_step w directory c in
  with_iteration state (num_succ (currentIteration state)).

(** The text passed to [client.session.send]. *)
Definition send_text (statusMsg prompt : string) : string :=
  "[" ++ statusMsg ++ "]

" ++ prompt.

(** The part of the handler after the guarded block: commit, advance,
    count the iteration, save, report and send the next prompt. *)
Definition continue_run (w : World) (directory : string) (c : Check) : Run :=
  let '(_, commitLogs, commitList) := commit_step w directory c in
  let state := saved_state w directory c in
  let fs' := writeState (fs w) directory state in
  let statusMsg := statusMsg state in
  let logs := (c_logs c ++ commitLogs ++ [mkLog "info" statusMsg])%list in
  match phase_prompt (with_fs w fs') state directory with
  | Return prompt =>
      mkRun fs' logs commitList [send_text statusMsg prompt] false
  | Throw => mkRun fs' logs commitList [] true
  end.

(** The safety stop: the state file is deleted and a warning is logged. *)
Definition halt_run (w : World) (directory : string) (state : MVPBuilderState)
  : Run :=
  mkRun (fst (deleteState (fs w) directory))
    [mkLog "warn"
       ("‚ö†Ô∏è MVP Builder stopped: max iterations (" ++
        show_num (maxIterations state) ++ ") reached")]
    [] [] false.

(** The final cleanup: a last commit, the state file is deleted and the
    completion is logged. *)
Definition finish_run (w : World) (directory : string) : Run :=
  let finalHash := gitCommit w directory FINAL_COMMIT in
  mkRun (fst (deleteState (fs w) directory))
    [mkLog "info"
       ("üéâ MVP Builder completed successfully! Final commit: " ++
        show_null finalHash)]
    [FINAL_COMMIT] [] false.

(** The [event] hook of the plugin, for an event of type [event_type]. *)
Definition event_handler (w : World) (directory event_type : string) : Run :=
  if negb (event_type =? "session.idle") then idle_run w
  else
    match parseState w directory with
    | Throw => mkRun (fs w) [] [] [] true
    | Return None => idle_run w
    | Return (Some state) =>
        if negb (active state) then idle_run w
        else if num_geb (currentIteration state) (maxIterations state) then
          halt_run w directory state
        else
          let c := check_response w directory state in
          if c_finished c then finish_run w directory
          else continue_run w directory c
    end.

(** ** The story-queue plugin *)

Module Story.

(** The product requirements document [prd.json] and the state record of
    this plugin. *)
Record UserStory : Type := mkStory {
  id : string;
  title : string;
  description : string;
  acceptanceCriteria : list string;
  priority : Z;
  passes : bool;
  notes : string
}.

Record PRDData : Type := mkPRD {
  project : string;
  branchName : string;
  prd_description : string;
  userStories : list UserStory
}.

Record MVPBuilderState : Type := mkState {
  active : bool;
  iteration : num;
  maxIterations : num;
  instructionsPath : string;
  referenceDocs : list string;
  startedAt : string
}.

(** [getNextStory(prd)]: the first of the pending stories after a stable
    sort by priority, [None] for [null]. *)
Definition getNextStory (prd : PRDData) : option UserStory :=
  let pending :=
    sort_by priority (filter (fun s => negb (passes s)) (userStories prd)) in
  match pending with
  | s :: _ => Some s
  | [] => None
  end.

Definition allStoriesPassing (prd : PRDData) : bool :=
  forallb passes (userStories prd).

(** The closure [hasPromise] of this plugin's handler: [text.includes] of
    the marker between its two tags. *)
Definition hasPromise (text p : string) : bool :=
  match split_at_first (OPEN_TAG ++ p ++ CLOSE_TAG) text with
  | Some _ => true
  | None => false
  end.

(** The lazy group up to the first fence (optional CR, LF, [---]). *)
Fixpoint lazy_until_open_fence (s : string) : option string :=
  match strip_prefix (nl ++ "---") (skip_cr s) with
  | Some _ => Some ""
  | None =>
      match s with
      | "" => None
      | String c s' =>
          match lazy_until_open_fence s' with
          | Some f => Some (String c f)
          | None => None
          end
      end
  end.

(** The frontmatter pattern of this plugin: [---], optional CR, LF, a lazy
    group, optional CR, LF, [---]; nothing is required after the fence. *)
Definition match_frontmatter (content : string) : option string :=
  match strip_prefix "---" content with
  | Some t =>
      match strip_prefix nl (skip_cr t) with
      | Some r => lazy_until_open_fence r
      | None => None
      end
  | None => None
  end.

(** [s] without its last character when this is a quote. *)
Fixpoint drop_final_quote (s : string) : string :=
  match s with
  | "" => ""
  | String c s' =>
      match s' with
      | "" => if is_quote c then "" else s
      | String _ _ => String c (drop_final_quote s')
      end
  end.

(** The replacement that deletes a quote at the start and a quote at the
    end of the value, each when present. *)
Definition strip_quotes (v : string) : string :=
  match v with
  | "" => ""
  | String c s => if is_quote c then drop_final_quote s else drop_final_quote v
  end.

Definition getValue (frontmatter key : string) : option string :=
  match find_line_start true (key ++ ":") frontmatter with
  | Some rest => Some (strip_quotes (take_line (skip_space rest)))
  | None => None
  end.

Definition getArrayValue (frontmatter key : string) : list string :=
  match getValue frontmatter key with
  | None => []
  | Some val =>
      if negb (nonempty val) || (val =? "[]") then []
      else
        match JSON_parse val with
        | Return l => l
        | Throw => []
        end
  end.

Definition state_of_match (w : World) (frontmatter : string) : MVPBuilderState :=
  let getValue := getValue frontmatter in
  {| active := match getValue "active" with
               | Some v => (v =? "true")
               | None => false
               end;
     iteration := parseInt (or_default (getValue "iteration") "1");
     maxIterations := parseInt (or_default (getValue "max_iterations") "100");
     instructionsPath := or_default (getValue "instructions_path") "instructions";
     referenceDocs := getArrayValue frontmatter "reference_docs";
     startedAt := or_default (getValue "started_at") (now_iso w)
  |}.

(** [parseState(directory)] of the story-queue plugin. *)
Definition parseState (w : World) (directory : string)
  : outcome (option MVPBuilderState) :=
  let statePath := path_join directory STATE_FILE in
  if negb (existsSync w statePath) then Return None
  else
    catch
      (content <- readFileSync w statePath ;;
       match match_frontmatter content with
       | None => Return None
       | Some frontmatter => Return (Some (state_of_match w frontmatter))
       end)
      (Return None).

(** The lines of the frontmatter block [writeState] produces, in the order
    of the template. *)
Definition frontmatter_lines (st : MVPBuilderState) : list string :=
  [ "active: " ++ show_bool (active st);
    "iteration: " ++ show_num (iteration st);
    "max_iterations: " ++ show_num (maxIterations st);
    "instructions_path: " ++ dq ++ instructionsPath st ++ dq;
    "reference_docs: " ++ JSON_stringify (referenceDocs st);
    "started_at: " ++ dq ++ startedAt st ++ dq ].

(** The text [writeState] stores in the state file. *)
Definition state_text (st : MVPBuilderState) : string :=
  "---" ++ nl ++ join nl (frontmatter_lines st) ++ nl ++ "---" ++ nl ++
  nl ++
  "MVP Builder is running. Check prd.json for story status and progress.txt for learnings." ++
  nl ++ nl ++ "To stop: /mvp-cancel" ++ nl ++ "To check status: /mvp-status" ++
  nl.

(** [writeState(directory, state)]: the file system afterwards. *)
Definition writeState (f : string -> option node) (directory : string)
  (st : MVPBuilderState) : string -> option node :=
  update_fs f (path_join directory STATE_FILE) (Some (File (state_text st))).

(** *** The requirements document, the prompt and the handler

    [loadFileContent] and [gitCommit] of this plugin behave as those of
    the phase-graph plugin, whose definitions they share. *)

Definition PRD_FILE : string := "prd.json".
Definition PROGRESS_FILE : string := "progress.txt".

(** [deleteState(directory)]: the file system afterwards and the result. *)
Definition deleteState (f : string -> option node) (directory : string)
  : (string -> option node) * bool :=
  let statePath := path_join directory STATE_FILE in
  match f statePath with
  | Some _ => (update_fs f statePath None, true)
  | None => (f, false)
  end.

(** [loadPRD(directory, instructionsPath)]; [None] is [null].  [json] is
    [JSON.parse] at the declared type [PRDData]: the document a text
    denotes, or [None] when [JSON.parse] raises. *)
Definition loadPRD (json : string -> option PRDData) (w : World)
  (directory instructionsPath : string) : option PRDData :=
  let prdPath := path_join (path_join directory instructionsPath) PRD_FILE in
  if negb (existsSync w prdPath) then None
  else
    match readFileSync w prdPath with
    | Return text => json text
    | Throw => None
    end.

(** [loadProgress(directory, instructionsPath)]. *)
Definition loadProgress (w : World) (directory instructionsPath : string)
  : outcome string :=
  let progressPath :=
    path_join (path_join directory instructionsPath) PROGRESS_FILE in
  content <- loadFileContent w progressPath ;;
  Return (if nonempty content then content
          else "# MVP Builder Progress Log

No entries yet.
").

(** The loop of [loadReferenceDocs]: missing documents are left out. *)
Fixpoint loadReferenceDocs_loop (w : World) (directory : string)
  (docPaths : list string) (content : string) : outcome string :=
  match docPaths with
  | [] => Return content
  | docPath :: rest =>
      let fullPath := path_join directory docPath in
      if existsSync w fullPath then
        docContent <- readFileSync w fullPath ;;
        loadReferenceDocs_loop w directory rest
          (content ++ "### " ++ docPath ++ "

" ++ docContent ++ "

---

")
      else loadReferenceDocs_loop w directory rest content
  end.

(** [loadReferenceDocs(directory, docPaths)]. *)
Definition loadReferenceDocs (w : World) (directory : string)
  (docPaths : list string) : outcome string :=
  match docPaths with
  | [] => Return ""
  | _ => loadReferenceDocs_loop w directory docPaths ("

---

## 📚 REFERENCE DOCUMENTATION

")
  end.

(** [getRecentCommits(directory)], with the default count. *)
Definition getRecentCommits (w : World) (directory : string) : string :=
  match git_log w directory 10 with
  | Return out =>
      let log := trim out in
      if nonempty log then log else "No commits yet."
  | Throw => "Git not initialized."
  end.

(** The list of the stories that pass, in the completion text. *)
Definition completed_line (s : UserStory) : string :=
  "- ✅ " ++ id s ++ ": " ++ title s.

(** The checkbox line of an acceptance criterion. *)
Definition criterion_line (c : string) : string :=
  "- [ ] " ++ c.

(** The status line of a story. *)
Definition status_line (s : UserStory) : string :=
  (if passes s then "✅" else "⏳") ++ " " ++ id s ++ ": " ++ title s ++ " (priority: " ++ show_num (Int (priority s)) ++ ")".

(** [buildPrompt(state, directory)]. *)
Definition buildPrompt (json : string -> option PRDData) (w : World)
  (state : MVPBuilderState) (directory : string) : outcome string :=
  let instructionsDir := path_join directory (instructionsPath state) in
  let prd := loadPRD json w directory (instructionsPath state) in
  projectOverview <-
    loadFileContent w (path_join instructionsDir "project_overview.md") ;;
  progress <- loadProgress w directory (instructionsPath state) ;;
  referenceDocs <- loadReferenceDocs w directory (referenceDocs state) ;;
  let recentCommits := getRecentCommits w directory in
  match prd with
  | None =>
      Return
        ("# MVP Builder - Create PRD

No `prd.json` found. You need to create one first.

## Project Overview
" ++
         (if nonempty projectOverview then projectOverview
     else "No project_overview.md found.") ++
         "

" ++
         referenceDocs ++
         "

## Your Task

Create `" ++
         instructionsPath state ++
         "/prd.json` with user stories based on the project overview.

Use this format:
```json
{
  " ++ dq ++ "project" ++ dq ++ ": " ++ dq ++ "Project Name" ++ dq ++ ",
  " ++ dq ++ "branchName" ++ dq ++ ": " ++ dq ++ "ralph/feature-name" ++ dq ++ ",
  " ++ dq ++ "description" ++ dq ++ ": " ++ dq ++ "Feature description" ++ dq ++ ",
  " ++ dq ++ "userStories" ++ dq ++ ": [
    {
      " ++ dq ++ "id" ++ dq ++ ": " ++ dq ++ "US-001" ++ dq ++ ",
      " ++ dq ++ "title" ++ dq ++ ": " ++ dq ++ "Story title" ++ dq ++ ",
      " ++ dq ++ "description" ++ dq ++ ": " ++ dq ++ "As a [user], I want [feature] so that [benefit]" ++ dq ++ ",
      " ++ dq ++ "acceptanceCriteria" ++ dq ++ ": [
        " ++ dq ++ "Specific testable criteria" ++ dq ++ ",
        " ++ dq ++ "Another criteria" ++ dq ++ "
      ],
      " ++ dq ++ "priority" ++ dq ++ ": 1,
      " ++ dq ++ "passes" ++ dq ++ ": false,
      " ++ dq ++ "notes" ++ dq ++ ": " ++ dq ++ dq ++ "
    }
  ]
}
```

**IMPORTANT:**
- Each story should be small (completable in one iteration)
- Order by priority (1 = highest)
- Include testable acceptance criteria
- All stories start with `passes: false`

**DO NOT ASK FOR CONFIRMATION. CREATE THE PRD NOW.**

When prd.json is created, output:
<promise>PRD_CREATED</promise>")
  | Some prd =>
      match getNextStory prd with
      | None =>
          Return
            ("# MVP Builder - COMPLETE! 🎉

All " ++
             show_num (Int (Z.of_nat (List.length (userStories prd)))) ++
             " user stories are passing!

## Project: " ++
             project prd ++
             "
## Branch: " ++
             branchName prd ++
             "

### Completed Stories:
" ++
             join nl (map completed_line (userStories prd)) ++
             "

### Git History:
```
" ++
             recentCommits ++
             "
```

The MVP is complete. Output the completion signal:

<promise>COMPLETE</promise>")
      | Some nextStory =>
          Return
            ("# MVP Builder - Iteration " ++
             show_num (iteration state) ++
             "

You are an autonomous coding agent working on the MVP.

## Your Task

1. Read the PRD below
2. Read the progress log (check Codebase Patterns section first)
3. Pick the **highest priority** story where `passes: false` → " ++
             id nextStory ++
             "
4. Implement that SINGLE story
5. Run quality checks (typecheck, lint, test)
6. If checks pass, commit with: `feat: " ++
             id nextStory ++
             " - " ++
             title nextStory ++
             "`
7. Update prd.json to set `passes: true` for this story
8. Append your progress to progress.txt

---

## 📋 PRD (" ++
             instructionsPath state ++
             "/prd.json)

**Project:** " ++
             project prd ++
             "
**Branch:** " ++
             branchName prd ++
             "
**Description:** " ++
             prd_description prd ++
             "

### Current Story: " ++
             id nextStory ++
             "
**Title:** " ++
             title nextStory ++
             "
**Description:** " ++
             description nextStory ++
             "
**Priority:** " ++
             show_num (Int (priority nextStory)) ++
             "

**Acceptance Criteria:**
" ++
             join nl (map criterion_line (acceptanceCriteria nextStory)) ++
             "

### All Stories Status:
" ++
             join nl (map status_line (userStories prd)) ++
             "

---

## 📝 Progress Log (" ++
             instructionsPath state ++
             "/progress.txt)

" ++
             progress ++
             "

---

## 📄 Project Overview

" ++
             projectOverview ++
             "

" ++
             referenceDocs ++
             "

---

## 📜 Recent Git History

```
" ++
             recentCommits ++
             "
```

---

## Progress Report Format

APPEND to progress.txt (never replace, always append):
```
## [Date] - " ++
             id nextStory ++
             ": " ++
             title nextStory ++
             "
- What was implemented
- Files changed
- **Learnings for future iterations:**
  - Patterns discovered
  - Gotchas encountered
  - Useful context
---
```

---

## Quality Requirements

- ALL commits must pass typecheck/lint/test
- Do NOT commit broken code
- Keep changes focused and minimal
- Follow existing code patterns

---

## 🚀 BEGIN NOW

**DO NOT ASK FOR CONFIRMATION. START IMPLEMENTING " ++
             id nextStory ++
             " IMMEDIATELY.**

1. Implement the story
2. Run quality checks
3. Commit if passing
4. Update prd.json to set `passes: true`
5. Append to progress.txt

When this story is COMPLETE and prd.json is updated, output:

<promise>STORY_COMPLETE</promise>

If ALL stories are now passing after this one, output instead:

<promise>COMPLETE</promise>")
      end
  end.

(** The message of the last commit of a workflow. *)
Definition FINAL_COMMIT : string :=
  "MVP Builder: All stories complete! 🎉".

(** The text of the last assistant message, empty without one. *)
Definition last_text (messages : option (list Message)) : string :=
  match messages with
  | Some ms =>
      match lastAssistantMsg ms with
      | Some m => textContent m
      | None => ""
      end
  | None => ""
  end.

(** The commit message of a story or of the requirements document. *)
Definition progress_commit (state : MVPBuilderState) (text : string) : string :=
  if hasPromise text "PRD_CREATED" then "MVP Builder: Created prd.json"
  else "MVP Builder: Story complete (iteration " ++ show_num (iteration state) ++ ")".

(** The status line of a trigger, built from the record just saved. *)
Definition statusMsg (json : string -> option PRDData) (w : World)
  (state : MVPBuilderState) (directory : string) : string :=
  let prd := loadPRD json w directory (instructionsPath state) in
  let completed :=
    match prd with
    | Some prd => List.length (filter passes (userStories prd))
    | None => O
    end in
  let total :=
    match prd with
    | Some prd => List.length (userStories prd)
    | None => O
    end in
  "MVP Builder | Iteration " ++ show_num (iteration state) ++ "/" ++ show_num (maxIterations state) ++ " | Stories: " ++ show_num (Int (Z.of_nat completed)) ++ "/" ++ show_num (Int (Z.of_nat total)).

(** The part of the handler after the guarded block: the iteration is
    counted, the record saved, the status logged and the next prompt
    sent.  [logs0] and [commits0] are what the guarded block logged and
    committed. *)
Definition continue_run (json : string -> option PRDData) (w : World)
  (directory : string) (state : MVPBuilderState) (logs0 : list LogEntry)
  (commits0 : list string) : Run :=
  let state :=
    mkState (active state) (num_succ (iteration state)) (maxIterations state)
      (instructionsPath state) (referenceDocs state) (startedAt state) in
  let fs' := writeState (fs w) directory state in
  let w' := with_fs w fs' in
  let logs1 := (logs0 ++ [mkLog "info" (statusMsg json w' state directory)])%list in
  match buildPrompt json w' state directory with
  | Return prompt =>
      mkRun fs' logs1 commits0
        ["[MVP Builder - Iteration " ++ show_num (iteration state) ++ "]

" ++ prompt] false
  | Throw => mkRun fs' logs1 commits0 [] true
  end.

(** The [event] hook of the story-queue plugin. *)
Definition event_handler (json : string -> option PRDData) (w : World)
  (directory event_type : string) : Run :=
  if negb (event_type =? "session.idle") then idle_run w
  else
    match parseState w directory with
    | Throw => mkRun (fs w) [] [] [] true
    | Return None => idle_run w
    | Return (Some state) =>
        if negb (active state) then idle_run w
        else if num_geb (iteration state) (maxIterations state) then
          mkRun (fst (deleteState (fs w) directory))
            [mkLog "warn" ("⚠️ Max iterations (" ++ show_num (maxIterations state) ++ ") reached. Run /mvp-start to continue.")]
            [] [] false
        else
          match session w with
          | Throw =>
              continue_run json w directory state
                [mkLog "warn" ("Could not check messages: " ++ error_text w)] []
          | Return messages =>
              let text := last_text messages in
              if hasPromise text "COMPLETE" then
                mkRun (fst (deleteState (fs w) directory))
                  [mkLog "info" "🎉 MVP Builder completed! All stories passing."]
                  [FINAL_COMMIT] [] false
              else if hasPromise text "STORY_COMPLETE" ||
                      hasPromise text "PRD_CREATED" then
                let msg := progress_commit state text in
                match gitCommit w directory msg with
                | Some (String a h') =>
                    let hash := String a h' in
                    continue_run json w directory state
                      [mkLog "info" ("📝 Committed: " ++ msg ++ " (" ++ hash ++ ")")] [msg]
                | _ => continue_run json w directory state [] [msg]
                end
              else continue_run json w directory state [] []
          end
    end.


End Story.

(** ** Prompt discovery in the earlier phase-graph plugin *)

Module LegacyPlugin.

(** [Array.prototype.sort] without comparator on file names: the stable
    sort by the order of the code units. *)
Fixpoint insert_sorted (x : string) (l : list string) : list string :=
  match l with
  | [] => [x]
  | y :: l' => if String.leb x y then x :: l else y :: insert_sorted x l'
  end.

Definition sort (l : list string) : list string :=
  fold_right insert_sorted [] l.

(** [discoverPromptFiles(directory)]: the folder is always [instructions]
    and every title is [Pending]. *)
Definition discoverPromptFiles (w : World) (directory : string)
  : outcome (list PromptInfo) :=
  let instructionsDir := path_join directory "instructions" in
  if negb (existsSync w instructionsDir) then Return []
  else
    files <- readdirSync w instructionsDir ;;
    Return (map (fun filename => mkPromptInfo filename "Pending" pending)
              (sort (filter is_prompt_file files))).

End LegacyPlugin.

(** ** Notions used to state the properties *)

(** [pat] occurs in [s] between [pre] and [post], and nowhere earlier. *)
Definition occurs_first (pat s pre post : string) : Prop :=
  s = pre ++ pat ++ post /\
  forall pre' post', s = pre' ++ pat ++ post' ->
    String.length pre <= String.length pre'.

(** [body] is the content of the first delimiter of [text]: the text
    between the first opening tag and the first closing tag after it. *)
Definition first_delimiter (text body : string) : Prop :=
  exists pre rest post,
    occurs_first OPEN_TAG text pre rest /\
    occurs_first CLOSE_TAG rest body post.

(** An end of line of the state file: LF or CR LF. *)
Definition is_eol (e : string) : Prop := e = nl \/ e = String CR nl.

(** The text has a well-formed frontmatter block: an opening fence on the
    first line and a closing fence on a line of its own. *)
Definition has_frontmatter (content : string) : Prop :=
  exists e1 fm e2 e3 body,
    is_eol e1 /\ is_eol e2 /\ is_eol e3 /\
    content = "---" ++ e1 ++ fm ++ e2 ++ "---" ++ e3 ++ body.

(** The same for the story-queue plugin, which asks nothing of the text
    after the closing fence. *)
Definition has_open_frontmatter (content : string) : Prop :=
  exists e1 fm e2 rest,
    is_eol e1 /\ is_eol e2 /\
    content = "---" ++ e1 ++ fm ++ e2 ++ "---" ++ rest.

(** The text of the last assistant message, when the session can be read
    and holds one. *)
Definition last_response (w : World) : option string :=
  match session w with
  | Return (Some messages) =>
      match lastAssistantMsg messages with
      | Some m => Some (textContent m)
      | None => None
      end
  | _ => None
  end.

(** The marker the handler looks for in each phase. *)
Definition expected_marker (ph : string) : option string :=
  if ph =? "generating_plan" then Some "SEQUENCE_PLAN_COMPLETE"
  else if ph =? "generating_prompts" then Some "PROMPTS_GENERATED"
  else if ph =? "executing" then Some "PROMPT_COMPLETE"
  else if ph =? "qa_integration" then Some "INTEGRATION_CHECK_COMPLETE"
  else if ph =? "qa_completeness" then Some "MVP_READY"
  else if ph =? "documentation" then Some "DOCUMENTATION_COMPLETE"
  else if ph =? "complete" then Some "MVP_COMPLETE"
  else None.

(** A completion signal is detected: the session can be read and the last
    response of the assistant holds the marker of the current phase. *)
Definition signal_detected (w : World) (st : MVPBuilderState) : bool :=
  match last_response w, expected_marker (phase st) with
  | Some t, Some m => hasPromise t m
  | _, _ => false
  end.

(** The state file holds the text of record [st]. *)
Definition persisted (f : string -> option node) (directory : string)
  (st : MVPBuilderState) : Prop :=
  f (path_join directory STATE_FILE) = Some (File (state_text st)).

(** The state file does not exist. *)
Definition absent (f : string -> option node) (directory : string) : Prop :=
  f (path_join directory STATE_FILE) = None.

(** The handler is triggered on an active workflow whose record is [st]. *)
Definition triggered_on (w : World) (directory : string)
  (st : MVPBuilderState) : Prop :=
  parseState w directory = Return (Some st) /\ active st = true.

(** The record with the iteration counted once more. *)
Definition next_iteration (st : MVPBuilderState) : MVPBuilderState :=
  with_iteration st (num_succ (currentIteration st)).

(** The world of the next trigger when nothing but the state file changed. *)
Definition after_run (w : World) (r : Run) : World := with_fs w (fs_after r).

(** The world [w] with the clock reading [t]. *)
Definition at_time (w : World) (t : Z) : World :=
  mkWorld (fs w) t (now_iso w) (date_value w) (git_commit w) (git_log w)
    (session w) (error_text w).

(** The paths a phase prompt builder reads for record [st]. *)
Definition referenced_paths (st : MVPBuilderState) (d : string) : list string :=
  let dir := path_join d (instructionsPath st) in
  (path_join dir "project_overview.md" ::
   path_join dir "prompt_sequence_plan.md" ::
   match nth_num (promptSequence st) (currentPromptIndex st) with
   | Some p => [path_join dir (filename p)]
   | None => []
   end ++ map (path_join d) (referenceDocs st))%list.

(** Two worlds give a builder the same inputs: the same files at the
    referenced paths and the same git history.  They may differ in
    everything else: the clock, unrelated files, the session. *)
Definition same_inputs (st : MVPBuilderState) (d : string) (w1 w2 : World)
  : Prop :=
  (forall p, In p (referenced_paths st d) -> fs w1 p = fs w2 p) /\
  (forall n, git_log w1 d n = git_log w2 d n).

(** What a saved prompt entry is read back as: [skipped] shares the blank
    checkbox of [pending]. *)
Definition as_read (p : PromptInfo) : PromptInfo :=
  mkPromptInfo (filename p) (title p)
    (match status p with
     | skipped => pending
     | s => s
     end).

(** A non-empty text without line terminator. *)
Definition single_line (s : string) : bool :=
  no_line_terminator s && nonempty s.

(** A prompt entry the body represents faithfully. *)
Definition well_formed_prompt (p : PromptInfo) : bool :=
  is_prompt_file (filename p) && single_line (title p).

(** The records the state file represents faithfully: the phase, the
    start date, the instructions path and the last commit are non-empty
    single lines, every prompt file name has the form [prompt_N.md] and
    every title is a non-empty single line. *)
Definition well_formed (st : MVPBuilderState) : bool :=
  single_line (phase st) &&
  single_line (startedAt st) &&
  single_line (instructionsPath st) &&
  match lastCommit st with
  | Some c => single_line c
  | None => false
  end &&
  forallb well_formed_prompt (promptSequence st).

(** ** Auxiliary notions for the proofs *)

(** Every character of [s] satisfies [P]. *)
Fixpoint string_forall (P : ascii -> bool) (s : string) : bool :=
  match s with
  | "" => true
  | String c s' => P c && string_forall P s'
  end.

(** The text starts with a character that is not white space. *)
Definition head_not_space (s : string) : bool :=
  match s with
  | "" => false
  | String c _ => negb (is_space c)
  end.

(** [pat] and [l] differ at a position that both have. *)
Fixpoint differs (pat l : string) : bool :=
  match pat, l with
  | String a p, String b l' => if (a =? b)%char then differs p l' else true
  | _, _ => false
  end.

(** A line is skipped by the search for [key] when it holds no line
    terminator and differs from [key:] at some position. *)
Definition skipped_line (key l : string) : Prop :=
  no_line_terminator l = true /\ differs (key ++ ":") l = true.

(** The JSON text of an array after its first element. *)
Fixpoint json_tail (l : list string) : string :=
  match l with
  | [] => "]"
  | y :: l' => "," ++ json_quote y ++ json_tail l'
  end.

(** The first characters of [s] rule out a match of the prompt-line
    pattern at the start of [s]. *)
Definition conflict (s : string) : bool :=
  differs "- [" s ||
  match s with
  | String _ (String _ (String _ (String c r))) =>
      negb (is_status_char c) || differs "] prompt_" r
  | _ => false
  end.

(** No match of the prompt-line pattern starts inside [t], whatever
    follows [t]. *)
Fixpoint quiet (t : string) : bool :=
  match t with
  | "" => true
  | String c t' => conflict t && quiet t'
  end.

Definition status_ascii (s : PromptStatus) : ascii :=
  match s with
  | completed => "x"
  | in_progress => "/"
  | _ => " "
  end%char.

(** A record the state file represents exactly: well formed and without
    [skipped] entry. *)
Definition exact_record (st : MVPBuilderState) : Prop :=
  well_formed st = true /\
  Forall (fun p => status p <> skipped) (promptSequence st).

(** The two properties of an entry that a change of status keeps. *)
Definition kept_entry (p : PromptInfo) : Prop :=
  well_formed_prompt p = true /\ status p <> skipped.

(** The last character of [s] is not a quote. *)
Fixpoint ends_plain (s : string) : bool :=
  match s with
  | "" => true
  | String c s' =>
      match s' with
      | "" => negb (is_quote c)
      | _ => ends_plain s'
      end
  end.

(** ** Notions used to state the properties of whole runs *)

(** The phase that follows [ph] in the order of the workflow. *)
Definition following_phase (ph : string) : option string :=
  if ph =? "generating_plan" then Some "generating_prompts"
  else if ph =? "generating_prompts" then Some "executing"
  else if ph =? "executing" then Some "qa_integration"
  else if ph =? "qa_integration" then Some "qa_completeness"
  else if ph =? "qa_completeness" then Some "documentation"
  else if ph =? "documentation" then Some "complete"
  else None.

(** The phases whose signal needs nothing but the marker to advance, with
    the message of the commit made on leaving each. *)
Definition plain_phase_commit (ph : string) : option string :=
  if ph =? "generating_plan" then
    Some "MVP Builder: Generated prompt sequence plan"
  else if ph =? "qa_integration" then
    Some "MVP Builder: Integration check complete"
  else if ph =? "qa_completeness" then
    Some "MVP Builder: MVP readiness verified"
  else if ph =? "documentation" then
    Some "MVP Builder: Documentation complete"
  else None.

(** The last commit of a record after an attempt to commit: the new hash,
    or the old value when git failed or printed nothing. *)
Definition commit_recorded (old hash : option string) : option string :=
  match hash with
  | Some h => if nonempty h then Some h else old
  | None => old
  end.

(** The state file of world [w'] is as run [r] left it; everything else
    may have changed since. *)
Definition state_file_kept (r : Run) (d : string) (w' : World) : Prop :=
  fs w' (path_join d STATE_FILE) = fs_after r (path_join d STATE_FILE).

(** The worlds of consecutive [session.idle] events in directory [d],
    after the one in world [w]: between two events anything may change
    (the agent works, the clock moves) except the state file. *)
Fixpoint consecutive (d : string) (w : World) (ws : list World) : Prop :=
  match ws with
  | [] => True
  | w' :: rest =>
      state_file_kept (event_handler w d "session.idle") d w' /\
      consecutive d w' rest
  end.

(** Every short hash git reports in [w] is on one line. *)
Definition one_line_hashes (w : World) (d : string) : Prop :=
  forall m h, gitCommit w d m = Some h -> no_line_terminator h = true.

(** [s] ends with [suffix]. *)
Fixpoint ends_with (suffix s : string) : bool :=
  (s =? suffix) ||
  match s with
  | String _ s' => ends_with suffix s'
  | "" => false
  end.

(** [pat] occurs somewhere in [s]. *)
Definition occurs (pat s : string) : bool :=
  match split_at_first pat s with
  | Some _ => true
  | None => false
  end.

(** The first character of [s] cannot start a JSON text: it is neither
    white space nor a bracket, brace, quote, sign or digit, nor the first
    letter of [true], [false] or [null]. *)
Definition not_json_start (s : string) : bool :=
  match s with
  | "" => false
  | String c _ =>
      negb (is_space c || is_digit c ||
            existsb (Ascii.eqb c)
              ["["; "{"; DQ; "-"; "t"; "f"; "n"]%char)
  end.

(** [s] holds no comma. *)
Definition comma_free (s : string) : bool :=
  string_forall (fun c => negb (c =? ",")%char) s.

(** [s] with every LF replaced by CR LF. *)
Fixpoint crlf (s : string) : string :=
  match s with
  | "" => ""
  | String c s' =>
      if (c =? LF)%char then String CR (String LF (crlf s'))
      else String c (crlf s')
  end.

(** [s] holds no CR. *)
Definition cr_free (s : string) : bool :=
  string_forall (fun c => negb (c =? CR)%char) s.

(** ** Notions used to state the properties of the story-queue plugin *)

(** The handler of the story-queue plugin is triggered on an active
    workflow whose record is [st]. *)
Definition story_triggered_on (w : World) (d : string)
  (st : Story.MVPBuilderState) : Prop :=
  Story.parseState w d = Return (Some st) /\ Story.active st = true.

(** The text in which the story-queue plugin looks for markers: the text
    of the last assistant message, empty when there is none or when the
    session cannot be read. *)
Definition story_response (w : World) : string :=
  match session w with
  | Return messages => Story.last_text messages
  | Throw => ""
  end.

(** The record with the iteration counted once more. *)
Definition story_next_iteration (st : Story.MVPBuilderState)
  : Story.MVPBuilderState :=
  Story.mkState (Story.active st) (num_succ (Story.iteration st))
    (Story.maxIterations st) (Story.instructionsPath st)
    (Story.referenceDocs st) (Story.startedAt st).

(** The state file holds the text of record [st]. *)
Definition story_persisted (f : string -> option node) (d : string)
  (st : Story.MVPBuilderState) : Prop :=
  f (path_join d STATE_FILE) = Some (File (Story.state_text st)).

(** The worlds of consecutive [session.idle] events handled by the
    story-queue plugin, the state file being left alone in between. *)
Fixpoint story_consecutive (json : string -> option Story.PRDData)
  (d : string) (w : World) (ws : list World) : Prop :=
  match ws with
  | [] => True
  | w' :: rest =>
      state_file_kept (Story.event_handler json w d "session.idle") d w' /\
      story_consecutive json d w' rest
  end.


(** ** Example inputs *)

(** A world whose state file is the given text, with no other file, no
    usable git and no session. *)
Definition world_with_state_text (directory text : string) : World :=
  mkWorld
    (fun p => if p =? path_join directory STATE_FILE then Some (File text)
              else None)
    0 "" (fun _ => NaN) (fun _ _ => None) (fun _ _ => Throw) Throw "".

(** A world with the given state file and last assistant response, an
    instructions folder that holds only the project overview, and a git
    repository in which every commit succeeds. *)
Definition demo_world (directory stateText response : string) : World :=
  mkWorld
    (fun p =>
       if p =? path_join directory STATE_FILE then Some (File stateText)
       else if p =? path_join directory "instructions" then
         Some (Dir ["project_overview.md"])
       else if p =? path_join (path_join directory "instructions")
                      "project_overview.md" then
         Some (File "A to-do list application.")
       else None)
    1767229200000 "2026-01-01T01:00:00.000Z"
    (fun s => if s =? "2026-01-01T00:00:00.000Z" then Int 1767225600000
              else NaN)
    (fun _ _ => Some "abc1234")
    (fun _ _ => Return "abc1234 initial commit")
    (Return (Some [mkMessage "user" None;
                   mkMessage "assistant" (Some [mkPart "text" response])]))
    "".

Definition demo_state (ph : string) (iteration limit : Z) : MVPBuilderState :=
  mkState true ph (Int 0) (Int 0) [] "2026-01-01T00:00:00.000Z"
    (Some "abc1234") "instructions" [] (Int limit) (Int iteration).

(** A record in phase [executing] with three prompts, the second skipped. *)
Definition demo_executing_state : MVPBuilderState :=
  mkState true "executing" (Int 2) (Int 3)
    [mkPromptInfo "prompt_01.md" "Project setup" completed;
     mkPromptInfo "prompt_02.md" "Seed data" skipped;
     mkPromptInfo "prompt_03.md" "Sign-in flow" in_progress]
    "2026-01-01T00:00:00.000Z" (Some "abc1234") "instructions"
    ["docs/payments.md"] (Int 100) (Int 9).

(** A record whose instructions path is the empty text. *)
Definition demo_rootless_state : MVPBuilderState :=
  mkState true "generating_plan" (Int 0) (Int 0) []
    "2026-01-01T00:00:00.000Z" (Some "abc1234") "" [] (Int 100) (Int 1).

(** The initial record of a workflow: no commit yet. *)
Definition demo_initial_state : MVPBuilderState :=
  mkState true "generating_plan" (Int 0) (Int 0) []
    "2026-01-01T00:00:00.000Z" None "instructions" [] (Int 100) (Int 1).

(** A world whose instructions folder lists three prompt files out of
    order and a note; the file of the third prompt is missing.  The state
    file is the given text and the last response the given one. *)
Definition demo_prompts_world (stateText response : string) : World :=
  mkWorld
    (fun p =>
       if p =? "/app/mvp-builder.local.md" then Some (File stateText)
       else if p =? "/app/instructions" then
         Some (Dir ["prompt_10.md"; "notes.md"; "prompt_2.md"; "prompt_01.md"])
       else if p =? "/app/instructions/prompt_01.md" then
         Some (File "# Project setup

Create the project.")
       else if p =? "/app/instructions/prompt_2.md" then
         Some (File "Second step
#   Seed data
Load the fixtures.")
       else None)
    1767229200000 "2026-01-01T01:00:00.000Z"
    (fun s => if s =? "2026-01-01T00:00:00.000Z" then Int 1767225600000
              else NaN)
    (fun _ _ => Some "abc1234")
    (fun _ _ => Return "abc1234 initial commit")
    (Return (Some [mkMessage "assistant" (Some [mkPart "text" response])]))
    "".

(** The demonstration world with a git that refuses every command. *)
Definition demo_world_without_git (directory stateText response : string)
  : World :=
  let w := demo_world directory stateText response in
  mkWorld (fs w) (now w) (now_iso w) (date_value w) (fun _ _ => None)
    (fun _ _ => Throw) (session w) (error_text w).

(** A record in phase [executing] at prompt [index] of two entries, with
    the prompt count [total]. *)
Definition demo_prompt_state (index total : Z) : MVPBuilderState :=
  mkState true "executing" (Int index) (Int total)
    [mkPromptInfo "prompt_01.md" "Project setup" in_progress;
     mkPromptInfo "prompt_02.md" "Seed data" pending]
    "2026-01-01T00:00:00.000Z" (Some "abc1234") "instructions" []
    (Int 100) (Int 5).

(** A record whose iteration limit could not be read as a number. *)
Definition demo_unlimited_state : MVPBuilderState :=
  mkState true "qa_integration" (Int 0) (Int 0) []
    "2026-01-01T00:00:00.000Z" (Some "abc1234") "instructions" []
    NaN (Int 500).

(** A session in which an earlier assistant message holds a marker, the
    latest assistant message holds none in its text (only in a part that
    is not text), and a user message comes last. *)
Definition demo_conversation : list Message :=
  [mkMessage "assistant"
     (Some [mkPart "text" "<promise>MVP_READY</promise>"]);
   mkMessage "assistant"
     (Some [mkPart "tool" "<promise>MVP_READY</promise>";
            mkPart "text" "Two features are missing."]);
   mkMessage "user" (Some [mkPart "text" "continue"])].

Definition demo_conversation_world : World :=
  mkWorld (fun _ => None) 0 "" (fun _ => NaN) (fun _ _ => None)
    (fun _ _ => Throw) (Return (Some demo_conversation)) "".

(** A state file that gives only two keys. *)
Definition demo_sparse_state_text : string :=
  "---
active: true
phase: qa_integration
---
".

(** A record of the story-queue plugin. *)
Definition demo_story_state : Story.MVPBuilderState :=
  Story.mkState true (Int 7) (Int 50) "instructions" ["docs/api.md"]
    "2026-01-01T00:00:00.000Z".

(** A requirements document with one story passing and two pending, the
    more urgent one listed last. *)
Definition demo_prd : Story.PRDData :=
  Story.mkPRD "Shop" "ralph/shop" "A small shop"
    [Story.mkStory "US-001" "Catalogue" "List the products"
       ["Products are listed"] 1 true "";
     Story.mkStory "US-002" "Checkout" "Pay for the cart"
       ["Payment is taken"] 3 false "";
     Story.mkStory "US-003" "Cart" "Collect products"
       ["Products can be added"] 2 false ""].

(** A reading of JSON texts that knows one text, the one of [demo_prd]. *)
Definition demo_json (text : string) : option Story.PRDData :=
  if text =? "{demo_prd}" then Some demo_prd else None.

(** A world of the story-queue plugin: the record [st] in the state file,
    the given text in [prd.json] and the given last response. *)
Definition demo_story_world (st : Story.MVPBuilderState)
  (prdText response : string) : World :=
  mkWorld
    (fun p =>
       if p =? "/app/mvp-builder.local.md" then
         Some (File (Story.state_text st))
       else if p =? "/app/instructions/prd.json" then Some (File prdText)
       else if p =? "/app/instructions/project_overview.md" then
         Some (File "A small shop.")
       else None)
    1767229200000 "2026-01-01T01:00:00.000Z" (fun _ => NaN)
    (fun _ _ => Some "abc1234")
    (fun _ _ => Return "abc1234 initial commit")
    (Return (Some [mkMessage "assistant" (Some [mkPart "text" response])]))
    "".

(** A record of the story-queue plugin at iteration [i] of [m]. *)
Definition demo_story_at (i m : Z) : Story.MVPBuilderState :=
  Story.mkState true (Int i) (Int m) "instructions" []
    "2026-01-01T00:00:00.000Z".


(** * Properties *)

(** ** Text *)

Lemma append_nil_r (s : string) : s ++ "" = s.
Proof. induction s; simpl; congruence. Qed.

Lemma append_assoc (a b c : string) : (a ++ b) ++ c = a ++ (b ++ c).
Proof. induction a; simpl; congruence. Qed.

Lemma length_append (a b : string) :
  String.length (a ++ b) = String.length a + String.length b.
Proof. induction a; simpl; congruence. Qed.

Lemma strip_prefix_app (p s : string) : strip_prefix p (p ++ s) = Some s.
Proof.
  induction p as [|a p IH]; simpl; [reflexivity|].
  now rewrite Ascii.eqb_refl.
Qed.

Lemma strip_prefix_Some (p s r : string) :
  strip_prefix p s = Some r <-> s = p ++ r.
Proof.
  split.
  - revert s; induction p as [|a p IH]; simpl; intros s H.
    + congruence.
    + destruct s as [|b s]; [discriminate|].
      destruct (Ascii.eqb_spec a b) as [->|]; [|discriminate].
      f_equal; auto.
  - intros ->. apply strip_prefix_app.
Qed.
Lemma append_split (a b c d : string) :
  a ++ b = c ++ d -> String.length a <= String.length c ->
  exists x, c = a ++ x /\ b = x ++ d.
Proof.
  revert c; induction a as [|ch a IH]; simpl; intros c H L.
  - exists c. auto.
  - destruct c as [|ch' c]; simpl in *; [lia|].
    injection H as -> H.
    destruct (IH c H) as [x [-> ->]]; [lia|].
    exists x; auto.
Qed.

Lemma append_inj_length (a b c d : string) :
  a ++ b = c ++ d -> String.length a = String.length c -> a = c /\ b = d.
Proof.
  revert c; induction a as [|ch a IH]; simpl; intros c H L.
  - destruct c; simpl in *; [auto|discriminate].
  - destruct c as [|ch' c]; simpl in *; [discriminate|].
    injection H as -> H.
    destruct (IH c H) as [-> ->]; [lia|]. auto.
Qed.

Lemma split_at_first_occurs (pat s a b : string) :
  split_at_first pat s = Some (a, b) -> occurs_first pat s a b.
Proof.
  revert a b; induction s as [|c s IH]; intros a b; simpl.
  - destruct (strip_prefix pat "") as [r|] eqn:E; [|discriminate].
    intros [= <- <-]. apply strip_prefix_Some in E.
    split; [exact E | simpl; intros; lia].
  - destruct (strip_prefix pat (String c s)) as [r|] eqn:E.
    + intros [= <- <-]. apply strip_prefix_Some in E.
      split; [exact E | simpl; intros; lia].
    + destruct (split_at_first pat s) as [[a' b']|] eqn:F; [|discriminate].
      intros [= <- <-].
      destruct (IH _ _ eq_refl) as [Heq Hmin].
      split; [simpl; now f_equal|].
      intros pre' post' H.
      destruct pre' as [|c' pre']; cbn [append] in H.
      * assert (strip_prefix pat (String c s) = Some post')
          by (apply strip_prefix_Some; exact H).
        congruence.
      * injection H as _ H. simpl. apply Hmin in H. lia.
Qed.

Lemma split_at_first_here (pat s r : string) :
  strip_prefix pat s = Some r -> split_at_first pat s = Some ("", r).
Proof. intros H. destruct s; simpl; now rewrite H. Qed.

Lemma split_at_first_found (pat s pre post : string) :
  s = pre ++ pat ++ post -> exists a b, split_at_first pat s = Some (a, b).
Proof.
  revert s; induction pre as [|c pre IH]; intros s ->; simpl.
  - rewrite (split_at_first_here _ _ post); [eauto|apply strip_prefix_app].
  - destruct (strip_prefix pat (String c (pre ++ pat ++ post))); [eauto|].
    destruct (IH _ eq_refl) as [a [b ->]]. eauto.
Qed.

Lemma occurs_first_split (pat s a b : string) :
  occurs_first pat s a b -> split_at_first pat s = Some (a, b).
Proof.
  intros [Heq Hmin].
  destruct (split_at_first_found _ _ _ _ Heq) as [a' [b' E]].
  rewrite E. destruct (split_at_first_occurs _ _ _ _ E) as [Heq' Hmin'].
  assert (L : String.length a = String.length a').
  { apply Nat.le_antisymm; [apply (Hmin _ _ Heq') | apply (Hmin' _ _ Heq)]. }
  rewrite Heq in Heq'.
  destruct (append_inj_length _ _ _ _ Heq' L) as [-> H2].
  destruct (append_inj_length _ _ _ _ H2 eq_refl) as [_ ->].
  reflexivity.
Qed.

Lemma match_promise_sound (text body : string) :
  match_promise text = Some body -> first_delimiter text body.
Proof.
  revert body; induction text as [|c t IH]; intros body.
  - simpl. discriminate.
  - cbn [match_promise].
    destruct (strip_prefix OPEN_TAG (String c t)) as [rest|] eqn:E.
    + destruct (split_at_first CLOSE_TAG rest) as [[b post]|] eqn:F.
      * intros [= <-]. exists "", rest, post.
        apply strip_prefix_Some in E. split.
        -- split; [exact E | simpl; intros; lia].
        -- now apply split_at_first_occurs.
      * intros H. destruct (IH _ H) as (pre & rest' & post & [Ho Hm] & Hc).
        exists (String c pre), rest', post. split; [|exact Hc].
        split; [simpl; now f_equal|].
        intros pre' post' H'.
        destruct pre' as [|c' pre']; cbn [append] in H'.
        -- exfalso. apply strip_prefix_Some in E.
           assert (post' = rest) as ->.
           { rewrite E in H'.
             now destruct (append_inj_length _ _ _ _ H' eq_refl). }
           rewrite Ho in E.
           change (String c (pre ++ OPEN_TAG ++ rest'))
             with (String c pre ++ OPEN_TAG ++ rest') in E.
           rewrite <- append_assoc in E. symmetry in E.
           destruct (append_split OPEN_TAG rest _ rest' E) as [x [_ Hx]].
           { rewrite length_append. simpl. lia. }
           destruct Hc as [Hc _]. rewrite Hc, <- append_assoc in Hx.
           destruct (split_at_first_found _ _ _ _ Hx) as [? [? G]].
           congruence.
        -- injection H' as _ H'. simpl. apply Hm in H'. lia.
    + intros H. destruct (IH _ H) as (pre & rest' & post & [Ho Hm] & Hc).
      exists (String c pre), rest', post. split; [|exact Hc].
      split; [simpl; now f_equal|].
      intros pre' post' H'.
      destruct pre' as [|c' pre']; cbn [append] in H'.
      * assert (strip_prefix OPEN_TAG (String c t) = Some post')
          by (apply strip_prefix_Some; exact H').
        congruence.
      * injection H' as _ H'. simpl. apply Hm in H'. lia.
Qed.

Lemma match_promise_here (text rest b p : string) :
  strip_prefix OPEN_TAG text = Some rest ->
  split_at_first CLOSE_TAG rest = Some (b, p) ->
  match_promise text = Some b.
Proof. intros H1 H2. destruct text; cbn [match_promise]; now rewrite H1, H2. Qed.

Lemma match_promise_skip (c : ascii) (t : string) :
  strip_prefix OPEN_TAG (String c t) = None ->
  match_promise (String c t) = match_promise t.
Proof. intros H. cbn [match_promise]. now rewrite H. Qed.

Lemma match_promise_complete (text body : string) :
  first_delimiter text body -> match_promise text = Some body.
Proof.
  intros (pre & rest & post & [Ho Hm] & Hc).
  revert text Ho Hm; induction pre as [|c pre IH]; intros text Ho Hm.
  - cbn [append] in Ho. subst text.
    apply (match_promise_here _ rest body post).
    + apply strip_prefix_app.
    + now apply occurs_first_split.
  - cbn [append] in Ho. subst text.
    destruct (strip_prefix OPEN_TAG (String c (pre ++ OPEN_TAG ++ rest)))
      as [r|] eqn:E.
    + apply strip_prefix_Some in E.
      specialize (Hm "" r E). simpl in Hm. lia.
    + rewrite (match_promise_skip _ _ E). apply IH; [reflexivity|].
      intros pre' post' H. specialize (Hm (String c pre') post').
      cbn [append] in Hm. rewrite H in Hm. specialize (Hm eq_refl).
      simpl in Hm. lia.
Qed.

Lemma match_promise_none (text : string) :
  (forall body, ~ first_delimiter text body) -> match_promise text = None.
Proof.
  intros H. destruct (match_promise text) as [b|] eqn:E; [|reflexivity].
  exfalso. exact (H b (match_promise_sound _ _ E)).
Qed.

(** ** Story selection *)

Section SortBy.
Context {A : Type} (key : A -> Z).

Lemma sort_by_head (l : list A) :
  match sort_by key l with
  | [] => l = []
  | x :: _ =>
      exists before after,
        l = (before ++ x :: after)%list /\
        (forall t, In t l -> (key x <= key t)%Z) /\
        (forall t, In t before -> (key x < key t)%Z)
  end.
Proof.
  induction l as [|a l IH]; [reflexivity|].
  cbn [sort_by fold_right]. fold (sort_by key l).
  destruct (sort_by key l) as [|y r].
  - subst l. cbn. exists [], []. repeat split.
    + intros t [<-|[]]. lia.
    + intros t [].
  - destruct IH as (before & after & -> & Hmin & Hstrict).
    cbn [insert_by]. destruct (Z.leb_spec (key a) (key y)) as [L|L].
    + exists [], (before ++ y :: after)%list. repeat split.
      * intros t [<-|Ht]; [lia|]. specialize (Hmin t Ht). lia.
      * intros t [].
    + exists (a :: before), after. repeat split.
      * intros t [<-|Ht]; [lia|]. exact (Hmin t Ht).
      * intros t [<-|Ht]; [lia|]. exact (Hstrict t Ht).
Qed.

End SortBy.

Lemma filter_decompose {A} (f : A -> bool) (l p1 p2 : list A) (x : A) :
  filter f l = (p1 ++ x :: p2)%list ->
  exists l1 l2,
    l = (l1 ++ x :: l2)%list /\ filter f l1 = p1 /\ filter f l2 = p2.
Proof.
  revert p1; induction l as [|a l IH]; intros p1 H; cbn in H.
  - destruct p1; discriminate.
  - destruct (f a) eqn:Fa.
    + destruct p1 as [|b p1]; cbn in H.
      * injection H as -> H. exists [], l. auto.
      * injection H as -> H. destruct (IH _ H) as (l1 & l2 & -> & <- & <-).
        exists (b :: l1), l2. cbn. rewrite Fa. auto.
    + destruct (IH _ H) as (l1 & l2 & -> & <- & <-).
      exists (a :: l1), l2. cbn. rewrite Fa. auto.
Qed.

(** C6. Story selection returns, among the stories that do not pass, one
    of minimal priority, the first of them in the declared order, and
    reports completion ([null], with [allStoriesPassing] true) exactly when
    every story passes; on the queue A (priority 2, pending), B (priority 1,
    pending), C (priority 1, passing) it returns B. *)
Theorem getNextStory_first_minimal_pending :
  (forall prd : Story.PRDData,
     match Story.getNextStory prd with
     | None =>
         (forall s, In s (Story.userStories prd) -> Story.passes s = true) /\
         Story.allStoriesPassing prd = true
     | Some s =>
         Story.passes s = false /\
         Story.allStoriesPassing prd = false /\
         exists before after,
           Story.userStories prd = (before ++ s :: after)%list /\
           (forall t, In t (Story.userStories prd) -> Story.passes t = false ->
                      (Story.priority s <= Story.priority t)%Z) /\
           (forall t, In t before -> Story.passes t = false ->
                      (Story.priority s < Story.priority t)%Z)
     end) /\
  (forall (a b c : Story.UserStory) (p br d : string),
     Story.priority a = 2%Z -> Story.passes a = false ->
     Story.priority b = 1%Z -> Story.passes b = false ->
     Story.priority c = 1%Z -> Story.passes c = true ->
     Story.getNextStory (Story.mkPRD p br d [a; b; c]) = Some b).
Proof.
  split.
  - intros prd. unfold Story.getNextStory, Story.allStoriesPassing.
    set (pend := fun s => negb (Story.passes s)).
    pose proof (sort_by_head Story.priority (filter pend (Story.userStories prd))) as H.
    destruct (sort_by Story.priority (filter pend (Story.userStories prd))) as [|s r].
    + assert (P : forall s, In s (Story.userStories prd) -> Story.passes s = true).
      { intros s Hs. destruct (Story.passes s) eqn:E; [reflexivity|].
        assert (In s (filter pend (Story.userStories prd)))
          by (apply filter_In; unfold pend; rewrite E; auto).
        rewrite H in *. contradiction. }
      split; [exact P|]. apply forallb_forall. exact P.
    + destruct H as (fb & fa & Hf & Hmin & Hstrict).
      assert (Hs : In s (filter pend (Story.userStories prd)))
        by (rewrite Hf; apply in_or_app; right; left; reflexivity).
      apply filter_In in Hs. destruct Hs as [Hin Hp].
      unfold pend in Hp. apply negb_true_iff in Hp.
      split; [exact Hp|]. split.
      * destruct (forallb Story.passes (Story.userStories prd)) eqn:E;
          [|reflexivity].
        rewrite forallb_forall in E. specialize (E s Hin). congruence.
      * destruct (filter_decompose _ _ _ _ _ Hf) as (l1 & l2 & Hl & H1 & H2).
        exists l1, l2. split; [exact Hl|]. split.
        -- intros t Ht Hpt. apply Hmin. apply filter_In. split; [exact Ht|].
           unfold pend. now rewrite Hpt.
        -- intros t Ht Hpt. apply Hstrict. rewrite <- H1. apply filter_In.
           split; [exact Ht|]. unfold pend. now rewrite Hpt.
  - intros a b c p br d Pa Fa Pb Fb Pc Fc.
    unfold Story.getNextStory. cbn. rewrite Fa, Fb, Fc. cbn.
    rewrite Pa, Pb. reflexivity.
Qed.

Lemma getNextStory_first_minimal_pending_witness :
  Story.getNextStory
    (Story.mkPRD "demo" "main" ""
       [Story.mkStory "A" "" "" [] 2 false "";
        Story.mkStory "B" "" "" [] 1 false "";
        Story.mkStory "C" "" "" [] 1 true ""])
  = Some (Story.mkStory "B" "" "" [] 1 false "").
Proof.
  apply (proj2 getNextStory_first_minimal_pending); reflexivity.
Defined.

(** ** Loading the state *)

Lemma skip_cr_eol (s r : string) :
  strip_prefix nl (skip_cr s) = Some r -> exists e, is_eol e /\ s = e ++ r.
Proof.
  destruct s as [|c s]; [discriminate|]. unfold skip_cr.
  destruct (Ascii.eqb_spec c CR) as [->|N]; intros H;
    apply strip_prefix_Some in H.
  - subst s. exists (String CR nl). split; [right|]; reflexivity.
  - exists nl. split; [left; reflexivity | exact H].
Qed.

Lemma eol_skip_cr (e r : string) :
  is_eol e -> strip_prefix nl (skip_cr (e ++ r)) = Some r.
Proof. intros [->| ->]; reflexivity. Qed.

Lemma closing_fence_sound (s body : string) :
  closing_fence s = Some body ->
  exists e2 e3, is_eol e2 /\ is_eol e3 /\ s = e2 ++ "---" ++ e3 ++ body.
Proof.
  unfold closing_fence.
  destruct (strip_prefix (nl ++ "---") (skip_cr s)) as [t|] eqn:E;
    [|discriminate].
  intros H. destruct (skip_cr_eol _ _ H) as (e3 & He3 & ->).
  assert (E' : strip_prefix nl (skip_cr s) = Some ("---" ++ e3 ++ body)).
  { apply strip_prefix_Some in E. rewrite E. reflexivity. }
  destruct (skip_cr_eol _ _ E') as (e2 & He2 & ->).
  exists e2, e3. auto.
Qed.

Lemma closing_fence_complete (e2 e3 body : string) :
  is_eol e2 -> is_eol e3 ->
  closing_fence (e2 ++ "---" ++ e3 ++ body) = Some body.
Proof.
  intros H2 H3. unfold closing_fence.
  assert (E : strip_prefix (nl ++ "---") (skip_cr (e2 ++ "---" ++ e3 ++ body))
              = Some (e3 ++ body))
    by (destruct H2 as [->| ->]; reflexivity).
  rewrite E. now apply eol_skip_cr.
Qed.

Lemma lazy_until_fence_sound (s f b : string) :
  lazy_until_fence s = Some (f, b) ->
  exists e2 e3, is_eol e2 /\ is_eol e3 /\ s = f ++ e2 ++ "---" ++ e3 ++ b.
Proof.
  revert f; induction s as [|c s IH]; intros f; cbn [lazy_until_fence].
  - destruct (closing_fence "") eqn:E; [|discriminate].
    intros [= <- <-]. exact (closing_fence_sound _ _ E).
  - destruct (closing_fence (String c s)) eqn:E.
    + intros [= <- <-]. exact (closing_fence_sound _ _ E).
    + destruct (lazy_until_fence s) as [[f' b']|]; [|discriminate].
      intros [= <- <-]. destruct (IH _ eq_refl) as (e2 & e3 & ? & ? & ->).
      exists e2, e3. auto.
Qed.

Lemma lazy_until_fence_here (s b : string) :
  closing_fence s = Some b -> lazy_until_fence s = Some ("", b).
Proof. intros H. destruct s; cbn [lazy_until_fence]; now rewrite H. Qed.

Lemma lazy_until_fence_complete (fm e2 e3 body : string) :
  is_eol e2 -> is_eol e3 ->
  exists f b, lazy_until_fence (fm ++ e2 ++ "---" ++ e3 ++ body) = Some (f, b).
Proof.
  intros H2 H3.
  assert (E := closing_fence_complete e2 e3 body H2 H3).
  set (tail := e2 ++ "---" ++ e3 ++ body) in *. clearbody tail.
  induction fm as [|c fm IH].
  - cbn [append]. rewrite (lazy_until_fence_here _ body E). eauto.
  - cbn [append lazy_until_fence].
    destruct (closing_fence (String c (fm ++ tail))); [eauto|].
    destruct IH as (f & b & ->). eauto.
Qed.

Lemma match_frontmatter_iff (content : string) :
  has_frontmatter content <-> exists f b, match_frontmatter content = Some (f, b).
Proof.
  unfold match_frontmatter. split.
  - intros (e1 & fm & e2 & e3 & body & H1 & H2 & H3 & ->).
    rewrite strip_prefix_app, (eol_skip_cr _ _ H1).
    now apply lazy_until_fence_complete.
  - intros (f & b & H).
    destruct (strip_prefix "---" content) as [t|] eqn:E; [|discriminate].
    destruct (strip_prefix nl (skip_cr t)) as [r|] eqn:F; [|discriminate].
    apply strip_prefix_Some in E. subst content.
    destruct (skip_cr_eol _ _ F) as (e1 & H1 & ->).
    destruct (lazy_until_fence_sound _ _ _ H) as (e2 & e3 & H2 & H3 & ->).
    exists e1, f, e2, e3, b. auto.
Qed.

Lemma story_fence_sound (s f : string) :
  Story.lazy_until_open_fence s = Some f ->
  exists e2 rest, is_eol e2 /\ s = f ++ e2 ++ "---" ++ rest.
Proof.
  assert (Here : forall s t, strip_prefix (nl ++ "---") (skip_cr s) = Some t ->
                 exists e2, is_eol e2 /\ s = e2 ++ "---" ++ t).
  { intros s0 t E.
    assert (E' : strip_prefix nl (skip_cr s0) = Some ("---" ++ t)).
    { apply strip_prefix_Some in E. rewrite E. reflexivity. }
    destruct (skip_cr_eol _ _ E') as (e2 & He2 & ->). eauto. }
  revert f; induction s as [|c s IH]; intros f; cbn [Story.lazy_until_open_fence].
  - destruct (strip_prefix (nl ++ "---") (skip_cr "")) eqn:E; [|discriminate].
    intros [= <-]. destruct (Here _ _ E) as (e2 & ? & ?). eauto.
  - destruct (strip_prefix (nl ++ "---") (skip_cr (String c s))) eqn:E.
    + intros [= <-]. destruct (Here _ _ E) as (e2 & ? & ?). eauto.
    + destruct (Story.lazy_until_open_fence s) as [f'|]; [|discriminate].
      intros [= <-]. destruct (IH _ eq_refl) as (e2 & rest & ? & ->).
      exists e2, rest. auto.
Qed.

Lemma story_match_frontmatter_sound (content f : string) :
  Story.match_frontmatter content = Some f -> has_open_frontmatter content.
Proof.
  unfold Story.match_frontmatter. intros H.
  destruct (strip_prefix "---" content) as [t|] eqn:E; [|discriminate].
  destruct (strip_prefix nl (skip_cr t)) as [r|] eqn:F; [|discriminate].
  apply strip_prefix_Some in E. subst content.
  destruct (skip_cr_eol _ _ F) as (e1 & H1 & ->).
  destruct (story_fence_sound _ _ H) as (e2 & rest & H2 & ->).
  exists e1, f, e2, rest. auto.
Qed.

(** C7. Loading the persisted state never raises: it returns a record or
    [null].  A missing state file, a state file that cannot be read, and a
    state file without a well-formed frontmatter block all yield [null], and
    on [null] the event handler does nothing.  This holds for [parseState]
    of the phase-graph plugin and of the story-queue plugin. *)
Theorem parseState_total_null_on_malformed (w : World) (directory : string) :
  let statePath := path_join directory STATE_FILE in
  ((exists r, parseState w directory = Return r) /\
   (exists r, Story.parseState w directory = Return r)) /\
  (fs w statePath = None ->
     parseState w directory = Return None /\
     Story.parseState w directory = Return None) /\
  (readFileSync w statePath = Throw ->
     parseState w directory = Return None /\
     Story.parseState w directory = Return None) /\
  (forall content, fs w statePath = Some (File content) ->
     (~ has_frontmatter content -> parseState w directory = Return None) /\
     (~ has_open_frontmatter content ->
        Story.parseState w directory = Return None)) /\
  (forall event_type, parseState w directory = Return None ->
     event_handler w directory event_type = idle_run w).
Proof.
  cbv zeta.
  assert (Hnull : forall event_type, parseState w directory = Return None ->
                  event_handler w directory event_type = idle_run w).
  { intros event_type H. unfold event_handler. rewrite H.
    destruct (negb (event_type =? "session.idle")); reflexivity. }
  unfold parseState, Story.parseState, existsSync, readFileSync in *.
  split; [split|split; [|split; [|split]]].
  - destruct (fs w _) as [[c|l]|]; cbn; eauto.
    destruct (match_frontmatter c) as [[f b]|]; cbn; eauto.
  - destruct (fs w _) as [[c|l]|]; cbn; eauto.
    destruct (Story.match_frontmatter c) as [f|]; cbn; eauto.
  - intros ->. split; reflexivity.
  - destruct (fs w _) as [[c|l]|]; cbn; try (split; reflexivity). discriminate.
  - intros content ->. cbn. split; intros H.
    + destruct (match_frontmatter content) as [[f b]|] eqn:E; [|reflexivity].
      exfalso. apply H. apply match_frontmatter_iff. eauto.
    + destruct (Story.match_frontmatter content) as [f|] eqn:E; [|reflexivity].
      exfalso. apply H. eapply story_match_frontmatter_sound. eauto.
  - exact Hnull.
Qed.

Lemma parseState_total_null_on_malformed_witness :
  parseState (world_with_state_text "/app" "active: true") "/app"
    = Return None /\
  Story.parseState (world_with_state_text "/app" "active: true") "/app"
    = Return None /\
  event_handler (world_with_state_text "/app" "active: true") "/app"
    "session.idle" = idle_run (world_with_state_text "/app" "active: true").
Proof.
  pose proof (parseState_total_null_on_malformed
    (world_with_state_text "/app" "active: true") "/app") as H.
  cbv zeta in H. destruct H as (_ & _ & _ & H & Hnull).
  destruct (H "active: true" eq_refl) as [H1 H2].
  assert (N1 : ~ has_frontmatter "active: true").
  { intros (e1 & fm & e2 & e3 & body & _ & _ & _ & E). discriminate E. }
  assert (N2 : ~ has_open_frontmatter "active: true").
  { intros (e1 & fm & e2 & rest & _ & _ & E). discriminate E. }
  split; [exact (H1 N1)|]. split; [exact (H2 N2)|].
  apply Hnull. exact (H1 N1).
Defined.

(** ** The event handler *)

Lemma writeState_persisted (f : string -> option node) (d : string)
  (st : MVPBuilderState) : persisted (writeState f d st) d st.
Proof.
  unfold persisted, writeState, update_fs. now rewrite String.eqb_refl.
Qed.

Lemma deleteState_absent (f : string -> option node) (d : string) :
  absent (fst (deleteState f d)) d.
Proof.
  unfold absent, deleteState.
  destruct (f (path_join d STATE_FILE)) eqn:E; cbn [fst].
  - unfold update_fs. now rewrite String.eqb_refl.
  - exact E.
Qed.

Lemma parseState_absent (w : World) (d : string) :
  absent (fs w) d -> parseState w d = Return None.
Proof.
  unfold absent, parseState, existsSync. now intros ->.
Qed.

Lemma check_response_cases (w : World) (d : string) (st : MVPBuilderState) :
  check_response w d st =
  match session w with
  | Throw => thrown w st
  | Return _ =>
      match last_response w with
      | Some t => phase_switch w d st t
      | None => unchanged st
      end
  end.
Proof.
  unfold check_response, last_response.
  destruct (session w) as [[ms|]|]; try reflexivity.
  destruct (lastAssistantMsg ms); reflexivity.
Qed.

Ltac split_ifs :=
  repeat match goal with
         | |- context [if ?b then _ else _] => destruct b eqn:?
         | |- context [match ?x with Return _ => _ | Throw => _ end] =>
             destruct x eqn:?
         | |- context [match ?x with Some _ => _ | None => _ end] =>
             destruct x eqn:?
         | |- context [match ?x with [] => _ | _ :: _ => _ end] =>
             destruct x eqn:?
         end.

(** The guarded block never touches the flags and counters of the record. *)
Lemma phase_switch_preserves (w : World) (d : string) (st : MVPBuilderState)
  (t : string) :
  let c := phase_switch w d st t in
  active (c_state c) = active st /\
  phase (c_state c) = phase st /\
  currentIteration (c_state c) = currentIteration st /\
  maxIterations (c_state c) = maxIterations st.
Proof.
  cbv zeta. unfold phase_switch. split_ifs; cbn; auto.
Qed.

Lemma check_response_preserves (w : World) (d : string) (st : MVPBuilderState) :
  let c := check_response w d st in
  active (c_state c) = active st /\
  phase (c_state c) = phase st /\
  currentIteration (c_state c) = currentIteration st /\
  maxIterations (c_state c) = maxIterations st.
Proof.
  cbv zeta. rewrite check_response_cases.
  destruct (session w); [|cbn; auto].
  destruct (last_response w); [apply phase_switch_preserves | cbn; auto].
Qed.

Lemma check_response_finished (w : World) (d : string) (st : MVPBuilderState) :
  c_finished (check_response w d st) = true <->
  phase st = "complete" /\
  exists t, last_response w = Some t /\ hasPromise t "MVP_COMPLETE" = true.
Proof.
  rewrite check_response_cases. split.
  - destruct (session w); [|cbn; discriminate].
    destruct (last_response w) as [t|]; [|cbn; discriminate].
    unfold phase_switch. split_ifs; cbn; try discriminate.
    intros _. split; [now apply String.eqb_eq | eauto].
  - intros (Hp & t & Ht & Hs). rewrite Ht.
    unfold last_response in Ht. destruct (session w); [|discriminate].
    unfold phase_switch. rewrite Hp, Hs. reflexivity.
Qed.

Lemma commit_step_preserves (w : World) (d : string) (c : Check) :
  let st := fst (fst (commit_step w d c)) in
  active st = active (c_state c) /\
  currentIteration st = currentIteration (c_state c) /\
  maxIterations st = maxIterations (c_state c).
Proof.
  cbv zeta. unfold commit_step.
  destruct (c_shouldAdvance c && nonempty (c_commitMessage c)); [|cbn; auto].
  destruct (gitCommit w d (c_commitMessage c)) as [[|a h]|]; cbn; auto.
Qed.

Lemma saved_state_counts (w : World) (d : string) (c : Check) :
  active (saved_state w d c) = active (c_state c) /\
  currentIteration (saved_state w d c) = num_succ (currentIteration (c_state c)) /\
  maxIterations (saved_state w d c) = maxIterations (c_state c).
Proof.
  pose proof (commit_step_preserves w d c) as H. cbv zeta in H.
  unfold saved_state. destruct (commit_step w d c) as [[st l] m].
  cbn in *. destruct H as (? & -> & ?). auto.
Qed.

Lemma saved_state_phase (w : World) (d : string) (c : Check) :
  phase (saved_state w d c) =
  if c_shouldAdvance c && nonempty (c_commitMessage c) then c_nextPhase c
  else phase (c_state c).
Proof.
  unfold saved_state, commit_step.
  destruct (c_shouldAdvance c && nonempty (c_commitMessage c)); [|reflexivity].
  destruct (gitCommit w d (c_commitMessage c)) as [[|a h]|]; reflexivity.
Qed.

Lemma continue_run_fs (w : World) (d : string) (c : Check) :
  fs_after (continue_run w d c) = writeState (fs w) d (saved_state w d c).
Proof.
  unfold continue_run. destruct (commit_step w d c) as [[st l] m].
  destruct (phase_prompt _ _ _); reflexivity.
Qed.

Lemma continue_run_sent (w : World) (d : string) (c : Check) :
  sent (continue_run w d c) =
  match phase_prompt (with_fs w (writeState (fs w) d (saved_state w d c)))
          (saved_state w d c) d with
  | Return prompt => [send_text (statusMsg (saved_state w d c)) prompt]
  | Throw => []
  end.
Proof.
  unfold continue_run. destruct (commit_step w d c) as [[st l] m].
  destruct (phase_prompt _ _ _); reflexivity.
Qed.

(** The three ways a trigger on an active workflow can go. *)
Lemma event_handler_triggered (w : World) (d : string) (st : MVPBuilderState) :
  triggered_on w d st ->
  event_handler w d "session.idle" =
  if num_geb (currentIteration st) (maxIterations st) then halt_run w d st
  else if c_finished (check_response w d st) then finish_run w d
  else continue_run w d (check_response w d st).
Proof.
  intros [Hp Ha]. unfold event_handler. rewrite Hp, Ha. reflexivity.
Qed.



(** C2. When the handler is triggered with the iteration counter at or
    above the limit, the state file is deleted (loading the state
    afterwards yields [null]), one warning is logged, nothing is committed
    and no instruction is sent.  Conversely, whenever a trigger on an
    active workflow leaves the state file deleted, either the counter had
    reached the limit or the workflow was classified completed (phase
    [complete] and the marker [MVP_COMPLETE] in the last response). *)
Theorem iteration_cap_halt_clears_state (w : World) (d : string)
  (st : MVPBuilderState) :
  triggered_on w d st ->
  (num_geb (currentIteration st) (maxIterations st) = true ->
     absent (fs_after (event_handler w d "session.idle")) d /\
     parseState (with_fs w (fs_after (event_handler w d "session.idle"))) d
       = Return None /\
     (exists msg,
        logs (event_handler w d "session.idle") = [mkLog "warn" msg]) /\
     commits (event_handler w d "session.idle") = [] /\
     sent (event_handler w d "session.idle") = [] /\
     rejected (event_handler w d "session.idle") = false) /\
  (absent (fs_after (event_handler w d "session.idle")) d ->
     num_geb (currentIteration st) (maxIterations st) = true \/
     (phase st = "complete" /\
      exists t, last_response w = Some t /\
                hasPromise t "MVP_COMPLETE" = true)).
Proof.
  intros T. rewrite (event_handler_triggered _ _ _ T). split.
  - intros ->. split; [apply deleteState_absent|].
    split; [apply parseState_absent; apply deleteState_absent|].
    split; [eexists; reflexivity|]. auto.
  - destruct (num_geb _ _); [auto|].
    destruct (c_finished (check_response w d st)) eqn:F.
    + intros _. right. now apply check_response_finished in F.
    + rewrite continue_run_fs. intros A.
      pose proof (writeState_persisted (fs w) d
                    (saved_state w d (check_response w d st))) as P.
      unfold absent in A. unfold persisted in P. congruence.
Qed.

Lemma iteration_cap_halt_clears_state_witness :
  absent
    (fs_after
       (event_handler
          (demo_world "/app" (state_text (demo_state "executing" 100 100))
             "<promise>PROMPT_COMPLETE</promise>")
          "/app" "session.idle")) "/app" /\
  sent
    (event_handler
       (demo_world "/app" (state_text (demo_state "executing" 100 100))
          "<promise>PROMPT_COMPLETE</promise>")
       "/app" "session.idle") = [].
Proof.
  assert (T : triggered_on
            (demo_world "/app" (state_text (demo_state "executing" 100 100))
               "<promise>PROMPT_COMPLETE</promise>") "/app"
            (demo_state "executing" 100 100))
    by (split; vm_compute; reflexivity).
  destruct (iteration_cap_halt_clears_state _ _ _ T) as [H _].
  destruct (H eq_refl) as (A & _ & _ & _ & S & _).
  split; [exact A | exact S].
Defined.

(** C8. In phase [generating_prompts], when the marker [PROMPTS_GENERATED]
    is detected and the discovery of prompt files returns no file, an error
    is logged, nothing is committed, the saved record is still in phase
    [generating_prompts], and the instruction sent is again the one of
    [buildPhase1BPrompt]; when the discovery returns at least one file the
    saved record is in phase [executing].  In this phase the saved record
    is in phase [executing] only if the marker was detected and at least
    one prompt file was discovered. *)
Theorem zero_prompt_files_keep_phase (w : World) (d : string)
  (st : MVPBuilderState) :
  triggered_on w d st ->
  num_geb (currentIteration st) (maxIterations st) = false ->
  phase st = "generating_prompts" ->
  exists st',
    persisted (fs_after (event_handler w d "session.idle")) d st' /\
    (forall t found,
       last_response w = Some t ->
       hasPromise t "PROMPTS_GENERATED" = true ->
       discoverPromptFiles w (path_join d (instructionsPath st)) = Return found ->
       match found with
       | [] =>
           phase st' = "generating_prompts" /\
           (exists msg,
              In (mkLog "error" msg) (logs (event_handler w d "session.idle"))) /\
           commits (event_handler w d "session.idle") = [] /\
           sent (event_handler w d "session.idle") =
             match buildPhase1BPrompt
                     (with_fs w (fs_after (event_handler w d "session.idle")))
                     st' d with
             | Return prompt => [send_text (statusMsg st') prompt]
             | Throw => []
             end
       | first :: others =>
           phase st' = "executing" /\
           promptSequence st' = set_status in_progress first :: others /\
           totalPrompts st' = Int (Z.of_nat (List.length found)) /\
           currentPromptIndex st' = Int 0
       end) /\
    (phase st' = "generating_prompts" \/ phase st' = "executing") /\
    (phase st' = "executing" ->
       exists t first others,
         last_response w = Some t /\
         hasPromise t "PROMPTS_GENERATED" = true /\
         discoverPromptFiles w (path_join d (instructionsPath st))
           = Return (first :: others)).
Proof.
  intros T Hcap Hph. rewrite (event_handler_triggered _ _ _ T), Hcap.
  assert (F : c_finished (check_response w d st) = false).
  { destruct (c_finished (check_response w d st)) eqn:F; [|reflexivity].
    apply check_response_finished in F. destruct F as [F _].
    rewrite Hph in F. discriminate. }
  rewrite F. exists (saved_state w d (check_response w d st)).
  rewrite continue_run_fs. split; [apply writeState_persisted|].
  assert (Sw : forall t, phase_switch w d st t =
    if hasPromise t "PROMPTS_GENERATED" then
      match discoverPromptFiles w (path_join d (instructionsPath st)) with
      | Throw => thrown w st
      | Return found =>
          match found with
          | first :: others =>
              advance
                (with_sequence
                   (with_index
                      (with_totalPrompts (with_sequence st found)
                         (Int (Z.of_nat (List.length found)))) (Int 0))
                   (set_status in_progress first :: others))
                "executing"
                (generated_message
                   (with_sequence
                      (with_index
                         (with_totalPrompts (with_sequence st found)
                            (Int (Z.of_nat (List.length found)))) (Int 0))
                      (set_status in_progress first :: others)))
          | [] =>
              mkCheck
                (with_totalPrompts (with_sequence st found)
                   (Int (Z.of_nat (List.length found))))
                false "" "generating_prompts"
                [no_files_log (path_join d (instructionsPath st))] false false
          end
      end
    else unchanged st).
  { intros t. unfold phase_switch. rewrite Hph. cbn [String.eqb Ascii.eqb Bool.eqb].
    destruct (hasPromise t "PROMPTS_GENERATED"); [|reflexivity].
    destruct (discoverPromptFiles _ _) as [[|first others]|]; reflexivity. }
  assert (G : forall s, nonempty (generated_message s) = true) by reflexivity.
  split; [|split].
  - intros t found Ht Hs Hd.
    rewrite continue_run_sent, saved_state_phase.
    rewrite check_response_cases, Ht.
    assert (Hsess : exists x, session w = Return x).
    { unfold last_response in Ht. destruct (session w); [eauto|discriminate]. }
    destruct Hsess as [x ->].
    rewrite (Sw t), Hs, Hd.
    destruct found as [|first others].
    + cbn [c_shouldAdvance andb c_state phase with_totalPrompts with_sequence].
      split; [exact Hph|]. split; [|split].
      * unfold continue_run, commit_step. cbn [c_shouldAdvance andb c_logs].
        destruct (phase_prompt _ _ _); cbn [logs];
          eexists; left; reflexivity.
      * unfold continue_run, commit_step. cbn [c_shouldAdvance andb].
        destruct (phase_prompt _ _ _); reflexivity.
      * unfold phase_prompt at 1. rewrite saved_state_phase.
        cbn [c_shouldAdvance andb c_state phase with_totalPrompts with_sequence].
        rewrite Hph. reflexivity.
    + cbn [c_shouldAdvance andb c_nextPhase advance c_commitMessage].
      rewrite G. split; [reflexivity|].
      unfold saved_state, commit_step.
      cbn [c_shouldAdvance c_commitMessage andb c_state c_nextPhase advance].
      rewrite G.
      destruct (gitCommit w d _) as [[|a h]|]; cbn; auto.
  - rewrite saved_state_phase, check_response_cases.
    destruct (session w); [|cbn; rewrite Hph; auto].
    destruct (last_response w) as [t|]; [|cbn; rewrite Hph; auto].
    rewrite (Sw t).
    destruct (hasPromise t "PROMPTS_GENERATED"); [|cbn; rewrite Hph; auto].
    destruct (discoverPromptFiles _ _) as [[|first others]|];
      cbn [c_shouldAdvance andb c_nextPhase advance c_commitMessage c_state
           thrown thrown_after phase with_totalPrompts with_sequence];
      rewrite ?G, ?Hph; auto.
  - rewrite saved_state_phase, check_response_cases.
    destruct (session w); [|cbn; rewrite Hph; discriminate].
    destruct (last_response w) as [t|]; [|cbn; rewrite Hph; discriminate].
    rewrite (Sw t).
    destruct (hasPromise t "PROMPTS_GENERATED") eqn:Hs;
      [|cbn; rewrite Hph; discriminate].
    destruct (discoverPromptFiles _ _) as [[|first others]|];
      cbn [c_shouldAdvance andb c_nextPhase advance c_commitMessage c_state
           thrown thrown_after phase with_totalPrompts with_sequence];
      rewrite ?G, ?Hph; try discriminate.
    intros _. exists t, first, others. auto.
Qed.

Lemma zero_prompt_files_keep_phase_witness :
  exists st',
    persisted
      (fs_after
         (event_handler
            (demo_world "/app" (state_text (demo_state "generating_prompts" 2 100))
               "Done. <promise>PROMPTS_GENERATED</promise>")
            "/app" "session.idle")) "/app" st' /\
    phase st' = "generating_prompts" /\
    commits
      (event_handler
         (demo_world "/app" (state_text (demo_state "generating_prompts" 2 100))
            "Done. <promise>PROMPTS_GENERATED</promise>")
         "/app" "session.idle") = [].
Proof.
  assert (T : triggered_on
            (demo_world "/app" (state_text (demo_state "generating_prompts" 2 100))
               "Done. <promise>PROMPTS_GENERATED</promise>") "/app"
            (demo_state "generating_prompts" 2 100))
    by (split; vm_compute; reflexivity).
  destruct (zero_prompt_files_keep_phase _ _ _ T eq_refl eq_refl)
    as (st' & P & H & _).
  exists st'. split; [exact P|].
  specialize (H "Done. <promise>PROMPTS_GENERATED</promise>" []
                eq_refl eq_refl eq_refl).
  cbv beta iota in H. destruct H as (Hph & _ & Hc & _).
  split; [exact Hph | exact Hc].
Defined.

(** C9 fails as stated: a save made after the workflow has reached phase
    [complete] keeps [active = true]. *)
Lemma completed_workflow_saved_active :
  triggered_on
    (demo_world "/app" (state_text (demo_state "complete" 5 100)) "All done.")
    "/app" (demo_state "complete" 5 100) /\
  persisted
    (fs_after
       (event_handler
          (demo_world "/app" (state_text (demo_state "complete" 5 100))
             "All done.")
          "/app" "session.idle")) "/app" (demo_state "complete" 6 100) /\
  active (demo_state "complete" 6 100) = true.
Proof.
  split; [split; vm_compute; reflexivity|].
  split; vm_compute; reflexivity.
Qed.

(** C9, amended.  Once the workflow is in phase [complete], a trigger
    either performs the terminal clear (when the iteration limit is reached
    or the marker [MVP_COMPLETE] is detected), after which the state file
    does not exist and loading the state yields [null], or saves a record
    that is still in phase [complete] with [active = true]: the handler
    never saves [active = false]. *)
Theorem complete_phase_active_until_cleared (w : World) (d : string)
  (st : MVPBuilderState) :
  triggered_on w d st ->
  phase st = "complete" ->
  ((num_geb (currentIteration st) (maxIterations st) = true \/
    exists t, last_response w = Some t /\ hasPromise t "MVP_COMPLETE" = true) ->
     absent (fs_after (event_handler w d "session.idle")) d /\
     parseState (with_fs w (fs_after (event_handler w d "session.idle"))) d
       = Return None /\
     sent (event_handler w d "session.idle") = []) /\
  (num_geb (currentIteration st) (maxIterations st) = false ->
   (forall t, last_response w = Some t -> hasPromise t "MVP_COMPLETE" = false) ->
     exists st',
       persisted (fs_after (event_handler w d "session.idle")) d st' /\
       active st' = true /\
       phase st' = "complete").
Proof.
  intros T Hph. rewrite (event_handler_triggered _ _ _ T). split.
  - intros H.
    assert (E : (if num_geb (currentIteration st) (maxIterations st)
                 then halt_run w d st
                 else if c_finished (check_response w d st)
                      then finish_run w d
                      else continue_run w d (check_response w d st))
                = halt_run w d st \/
                (if num_geb (currentIteration st) (maxIterations st)
                 then halt_run w d st
                 else if c_finished (check_response w d st)
                      then finish_run w d
                      else continue_run w d (check_response w d st))
                = finish_run w d).
    { destruct (num_geb _ _); [auto|].
      destruct H as [H|H]; [discriminate|].
      right. replace (c_finished (check_response w d st)) with true;
        [reflexivity|].
      symmetry. apply check_response_finished. auto. }
    destruct E as [-> | ->]; (split; [apply deleteState_absent|]);
      (split; [apply parseState_absent; apply deleteState_absent|]);
      reflexivity.
  - intros -> Hno.
    assert (F : c_finished (check_response w d st) = false).
    { destruct (c_finished (check_response w d st)) eqn:F; [|reflexivity].
      apply check_response_finished in F. destruct F as (_ & t & Ht & Hs).
      rewrite (Hno _ Ht) in Hs. discriminate. }
    rewrite F. exists (saved_state w d (check_response w d st)).
    rewrite continue_run_fs. split; [apply writeState_persisted|].
    destruct (saved_state_counts w d (check_response w d st)) as (Ha & _).
    destruct (check_response_preserves w d st) as (Ha' & Hp' & _).
    split; [rewrite Ha, Ha'; apply T|].
    rewrite saved_state_phase, Hp'.
    replace (c_shouldAdvance (check_response w d st)) with false;
      [exact Hph|].
    rewrite check_response_cases.
    destruct (session w); [|reflexivity].
    destruct (last_response w) as [t|] eqn:Ht; [|reflexivity].
    unfold phase_switch. rewrite Hph. cbn [String.eqb Ascii.eqb Bool.eqb].
    rewrite (Hno _ eq_refl). reflexivity.
Qed.

Lemma complete_phase_active_until_cleared_witness :
  absent
    (fs_after
       (event_handler
          (demo_world "/app" (state_text (demo_state "complete" 5 100))
             "<promise>MVP_COMPLETE</promise>")
          "/app" "session.idle")) "/app" /\
  exists st',
    persisted
      (fs_after
         (event_handler
            (demo_world "/app" (state_text (demo_state "complete" 5 100))
               "All done.")
            "/app" "session.idle")) "/app" st' /\
    active st' = true /\ phase st' = "complete".
Proof.
  assert (T1 : triggered_on
            (demo_world "/app" (state_text (demo_state "complete" 5 100))
               "<promise>MVP_COMPLETE</promise>") "/app"
            (demo_state "complete" 5 100))
    by (split; vm_compute; reflexivity).
  assert (T2 : triggered_on
            (demo_world "/app" (state_text (demo_state "complete" 5 100))
               "All done.") "/app"
            (demo_state "complete" 5 100))
    by (split; vm_compute; reflexivity).
  destruct (complete_phase_active_until_cleared _ _ _ T1 eq_refl) as [H1 _].
  destruct (complete_phase_active_until_cleared _ _ _ T2 eq_refl) as [_ H2].
  split.
  - apply H1. right. exists "<promise>MVP_COMPLETE</promise>".
    split; vm_compute; reflexivity.
  - apply H2; [reflexivity|].
    intros t Ht. vm_compute in Ht. injection Ht as <-. vm_compute. reflexivity.
Defined.

(** ** Prompt rendering *)

Lemma loadFileContent_agree (w1 w2 : World) (p : string) :
  fs w1 p = fs w2 p -> loadFileContent w1 p = loadFileContent w2 p.
Proof.
  intros H. unfold loadFileContent, existsSync, readFileSync. now rewrite H.
Qed.

Lemma loadReferenceDocs_loop_agree (w1 w2 : World) (d : string)
  (docs : list string) (acc : string) :
  (forall p, In p (map (path_join d) docs) -> fs w1 p = fs w2 p) ->
  loadReferenceDocs_loop w1 d docs acc = loadReferenceDocs_loop w2 d docs acc.
Proof.
  revert acc; induction docs as [|x docs IH]; intros acc H; [reflexivity|].
  cbn [loadReferenceDocs_loop]. unfold existsSync, readFileSync.
  rewrite (H (path_join d x)) by (left; reflexivity).
  destruct (fs w2 (path_join d x)) as [[c|l]|]; cbn [bind];
    try reflexivity; apply IH; intros p Hp; apply H; right; exact Hp.
Qed.

Lemma loadReferenceDocs_agree (w1 w2 : World) (d : string) (docs : list string) :
  (forall p, In p (map (path_join d) docs) -> fs w1 p = fs w2 p) ->
  loadReferenceDocs w1 d docs = loadReferenceDocs w2 d docs.
Proof.
  intros H. unfold loadReferenceDocs. destruct docs; [reflexivity|].
  now apply loadReferenceDocs_loop_agree.
Qed.

Lemma getRecentCommits_agree (w1 w2 : World) (d : string) (n : Z) :
  git_log w1 d n = git_log w2 d n ->
  getRecentCommits w1 d n = getRecentCommits w2 d n.
Proof. intros H. unfold getRecentCommits. now rewrite H. Qed.

Section SameInputs.
Variables (st : MVPBuilderState) (d : string) (w1 w2 : World).
Hypothesis Same : same_inputs st d w1 w2.

Let overview_path :=
  path_join (path_join d (instructionsPath st)) "project_overview.md".
Let plan_path :=
  path_join (path_join d (instructionsPath st)) "prompt_sequence_plan.md".

Lemma same_overview : loadFileContent w1 overview_path = loadFileContent w2 overview_path.
Proof.
  apply loadFileContent_agree, (proj1 Same). left. reflexivity.
Qed.

Lemma same_plan : loadFileContent w1 plan_path = loadFileContent w2 plan_path.
Proof.
  apply loadFileContent_agree, (proj1 Same). right. left. reflexivity.
Qed.

Lemma same_docs :
  loadReferenceDocs w1 d (referenceDocs st) = loadReferenceDocs w2 d (referenceDocs st).
Proof.
  apply loadReferenceDocs_agree. intros p Hp. apply (proj1 Same).
  unfold referenced_paths. right. right. apply in_or_app. right. exact Hp.
Qed.

Lemma same_commits (n : Z) : getRecentCommits w1 d n = getRecentCommits w2 d n.
Proof. apply getRecentCommits_agree, (proj2 Same). Qed.

Lemma buildPhase1APrompt_agree :
  buildPhase1APrompt w1 st d = buildPhase1APrompt w2 st d.
Proof.
  unfold buildPhase1APrompt. cbv zeta.
  fold overview_path. now rewrite same_overview, same_docs, same_commits.
Qed.

Lemma buildPhase1BPrompt_agree :
  buildPhase1BPrompt w1 st d = buildPhase1BPrompt w2 st d.
Proof.
  unfold buildPhase1BPrompt. cbv zeta.
  fold overview_path plan_path.
  now rewrite same_overview, same_plan, same_docs.
Qed.

Lemma buildPhase2Prompt_agree :
  buildPhase2Prompt w1 st d = buildPhase2Prompt w2 st d.
Proof.
  unfold buildPhase2Prompt. cbv zeta.
  destruct (nth_num (promptSequence st) (currentPromptIndex st)) as [p|] eqn:E;
    [|reflexivity].
  fold overview_path.
  rewrite (loadFileContent_agree w1 w2
             (path_join (path_join d (instructionsPath st)) (filename p))).
  - now rewrite same_overview, same_docs, same_commits.
  - apply (proj1 Same). unfold referenced_paths. rewrite E.
    right. right. left. reflexivity.
Qed.

Lemma buildPhase3APrompt_agree :
  buildPhase3APrompt w1 st d = buildPhase3APrompt w2 st d.
Proof.
  unfold buildPhase3APrompt. cbv zeta.
  fold overview_path. now rewrite same_overview, same_docs, same_commits.
Qed.

Lemma buildPhase3BPrompt_agree :
  buildPhase3BPrompt w1 st d = buildPhase3BPrompt w2 st d.
Proof.
  unfold buildPhase3BPrompt. cbv zeta.
  fold overview_path. now rewrite same_overview, same_docs.
Qed.

Lemma buildPhase4Prompt_agree :
  buildPhase4Prompt w1 st d = buildPhase4Prompt w2 st d.
Proof.
  unfold buildPhase4Prompt. cbv zeta.
  fold overview_path. now rewrite same_overview, same_docs.
Qed.

Lemma phase_prompt_agree :
  phase st <> "complete" -> phase_prompt w1 st d = phase_prompt w2 st d.
Proof.
  intros N. unfold phase_prompt. cbv zeta.
  rewrite buildPhase1APrompt_agree, buildPhase1BPrompt_agree,
    buildPhase2Prompt_agree, buildPhase3APrompt_agree,
    buildPhase3BPrompt_agree, buildPhase4Prompt_agree.
  destruct (String.eqb_spec (phase st) "complete") as [E|_]; [contradiction|].
  reflexivity.
Qed.

End SameInputs.

Lemma buildCompletePrompt_agree (w1 w2 : World) (st : MVPBuilderState) :
  now w1 = now w2 ->
  date_value w1 (startedAt st) = date_value w2 (startedAt st) ->
  buildCompletePrompt w1 st = buildCompletePrompt w2 st.
Proof. intros H1 H2. unfold buildCompletePrompt. now rewrite H1, H2. Qed.

(** C4 fails as stated for phase [complete]: with the same record, the same
    files and the same git history, [buildCompletePrompt] renders different
    texts at two different clock readings. *)
Lemma complete_prompt_depends_on_clock :
  same_inputs (demo_state "complete" 6 100) "/app"
    (demo_world "/app" "" "")
    (at_time (demo_world "/app" "" "") 1767232800000) /\
  buildCompletePrompt (demo_world "/app" "" "") (demo_state "complete" 6 100)
  <> buildCompletePrompt (at_time (demo_world "/app" "" "") 1767232800000)
       (demo_state "complete" 6 100).
Proof.
  split.
  - split; reflexivity.
  - intros H. apply String.eqb_eq in H. vm_compute in H. discriminate H.
Qed.

(** C4, amended.  For every phase other than [complete], prompt rendering
    is a function of the state record, the files at the referenced paths
    and the git-history output only: two environments that agree on these
    yield the same builder result, and so byte-identical instruction text,
    for each of the six phase builders and for the phase switch of the
    handler.  The text of [buildCompletePrompt] depends in addition on the
    clock: it is identical when the clock reading and the value of the
    start date are identical. *)
Theorem prompt_rendering_deterministic (st : MVPBuilderState) (d : string)
  (w1 w2 : World) :
  same_inputs st d w1 w2 ->
  buildPhase1APrompt w1 st d = buildPhase1APrompt w2 st d /\
  buildPhase1BPrompt w1 st d = buildPhase1BPrompt w2 st d /\
  buildPhase2Prompt w1 st d = buildPhase2Prompt w2 st d /\
  buildPhase3APrompt w1 st d = buildPhase3APrompt w2 st d /\
  buildPhase3BPrompt w1 st d = buildPhase3BPrompt w2 st d /\
  buildPhase4Prompt w1 st d = buildPhase4Prompt w2 st d /\
  (phase st <> "complete" -> phase_prompt w1 st d = phase_prompt w2 st d) /\
  (now w1 = now w2 ->
   date_value w1 (startedAt st) = date_value w2 (startedAt st) ->
   buildCompletePrompt w1 st = buildCompletePrompt w2 st).
Proof.
  intros S.
  split; [now apply buildPhase1APrompt_agree|].
  split; [now apply buildPhase1BPrompt_agree|].
  split; [now apply buildPhase2Prompt_agree|].
  split; [now apply buildPhase3APrompt_agree|].
  split; [now apply buildPhase3BPrompt_agree|].
  split; [now apply buildPhase4Prompt_agree|].
  split; [now apply phase_prompt_agree|].
  apply buildCompletePrompt_agree.
Qed.

Lemma prompt_rendering_deterministic_witness :
  buildPhase1APrompt (demo_world "/app" "" "")
    (demo_state "generating_plan" 1 100) "/app"
  = buildPhase1APrompt (at_time (demo_world "/app" "" "") 1767232800000)
      (demo_state "generating_plan" 1 100) "/app".
Proof.
  assert (S : same_inputs (demo_state "generating_plan" 1 100) "/app"
                (demo_world "/app" "" "")
                (at_time (demo_world "/app" "" "") 1767232800000))
    by (split; reflexivity).
  exact (proj1 (prompt_rendering_deterministic _ _ _ _ S)).
Defined.

(** ** Round trip through the state file: text and numbers *)

Lemma string_forall_app (P : ascii -> bool) (a b : string) :
  string_forall P (a ++ b) = string_forall P a && string_forall P b.
Proof.
  induction a as [|c a IH]; cbn; [reflexivity|].
  now rewrite IH, andb_assoc.
Qed.

Lemma string_forall_impl (P Q : ascii -> bool) (s : string) :
  (forall c, P c = true -> Q c = true) ->
  string_forall P s = true -> string_forall Q s = true.
Proof.
  intros H. induction s as [|c s IH]; cbn; [auto|].
  intros E. apply andb_true_iff in E. destruct E as [E1 E2].
  now rewrite (H _ E1), IH.
Qed.

Lemma no_line_terminator_forall (s : string) :
  no_line_terminator s = string_forall (fun c => negb (is_line_terminator c)) s.
Proof. induction s as [|c s IH]; cbn; [reflexivity|]. now rewrite IH. Qed.

Lemma no_line_terminator_app (a b : string) :
  no_line_terminator (a ++ b) = no_line_terminator a && no_line_terminator b.
Proof. rewrite !no_line_terminator_forall. apply string_forall_app. Qed.

Lemma take_line_app (a rest : string) :
  no_line_terminator a = true -> take_line (a ++ String LF rest) = a.
Proof.
  induction a as [|c a IH]; cbn; [reflexivity|].
  intros E. apply andb_true_iff in E. destruct E as [E1 E2].
  apply negb_true_iff in E1. rewrite E1. now rewrite IH.
Qed.

Lemma take_line_whole (a : string) :
  no_line_terminator a = true -> take_line a = a.
Proof.
  induction a as [|c a IH]; cbn; [reflexivity|].
  intros E. apply andb_true_iff in E. destruct E as [E1 E2].
  apply negb_true_iff in E1. rewrite E1. now rewrite IH.
Qed.

Lemma skip_space_head (s : string) :
  head_not_space s = true -> skip_space s = s.
Proof.
  destruct s as [|c s]; cbn; [discriminate|].
  intros E. apply negb_true_iff in E. now rewrite E.
Qed.

Lemma head_not_space_app (a b : string) :
  head_not_space a = true -> head_not_space (a ++ b) = true.
Proof. destruct a; cbn; [discriminate|auto]. Qed.

Lemma or_default_nonempty (s d : string) :
  nonempty s = true -> or_default (Some s) d = s.
Proof. destruct s; cbn; [discriminate|reflexivity]. Qed.

(** *** Decimal numerals *)

Lemma digits_of_uint (d : uint) :
  string_forall is_digit (NilEmpty.string_of_uint d) = true.
Proof. induction d; cbn; auto. Qed.

Lemma read_digits_of_uint (d : uint) :
  read_digits (NilEmpty.string_of_uint d) = d.
Proof.
  induction d; cbn [NilEmpty.string_of_uint read_digits]; rewrite ?IHd;
    reflexivity.
Qed.

Lemma digits_of_uint_nz (d : uint) :
  string_forall is_digit (NilZero.string_of_uint d) = true /\
  nonempty (NilZero.string_of_uint d) = true /\
  Z.of_uint (read_digits (NilZero.string_of_uint d)) = Z.of_uint d /\
  read_digits (NilZero.string_of_uint d) <> Nil.
Proof.
  destruct d; cbn;
    repeat split; try apply digits_of_uint; try discriminate;
    now rewrite ?read_digits_of_uint.
Qed.

Lemma is_digit_not_space (c : ascii) : is_digit c = true -> is_space c = false.
Proof.
  destruct c as [[] [] [] [] [] [] [] []]; cbn; intros H;
    try discriminate H; reflexivity.
Qed.

Lemma is_digit_not_terminator (c : ascii) :
  is_digit c = true -> negb (is_line_terminator c) = true.
Proof.
  destruct c as [[] [] [] [] [] [] [] []]; cbn; intros H;
    try discriminate H; reflexivity.
Qed.

Lemma is_digit_not_sign (c : ascii) :
  is_digit c = true -> (c =? "-")%char = false /\ (c =? "+")%char = false.
Proof.
  destruct c as [[] [] [] [] [] [] [] []]; cbn; intros H;
    try discriminate H; auto.
Qed.

Lemma parseInt_digits (s : string) :
  string_forall is_digit s = true -> nonempty s = true ->
  parseInt s = signed_digits false s.
Proof.
  destruct s as [|c s]; cbn [nonempty string_forall]; [discriminate|].
  intros E _. apply andb_true_iff in E. destruct E as [E _].
  unfold parseInt. cbn [skip_space]. rewrite (is_digit_not_space _ E).
  destruct (is_digit_not_sign _ E) as [-> ->]. reflexivity.
Qed.

Lemma parseInt_show_num (n : num) : parseInt (show_num n) = n.
Proof.
  destruct n as [z|]; [|reflexivity].
  unfold show_num. rewrite <- (DecimalZ.of_to z) at 2.
  destruct (Z.to_int z) as [d|d]; cbn [NilZero.string_of_int Z.of_int].
  - destruct (digits_of_uint_nz d) as (D & N & V & NN).
    rewrite (parseInt_digits _ D N). unfold signed_digits.
    destruct (read_digits (NilZero.string_of_uint d)); congruence.
  - destruct (digits_of_uint_nz d) as (D & N & V & NN).
    change (parseInt (String "-" (NilZero.string_of_uint d)))
      with (signed_digits true (NilZero.string_of_uint d)).
    unfold signed_digits.
    destruct (read_digits (NilZero.string_of_uint d)); try congruence;
      now rewrite <- V.
Qed.

Lemma show_num_shape (n : num) :
  no_line_terminator (show_num n) = true /\
  nonempty (show_num n) = true /\
  head_not_space (show_num n) = true /\
  (exists c s, show_num n = String c s /\ is_quote c = false).
Proof.
  destruct n as [z|]; [|cbn; repeat split; eauto].
  unfold show_num. destruct (Z.to_int z) as [d|d];
    cbn [NilZero.string_of_int];
    destruct (digits_of_uint_nz d) as (D & N & _ & _).
  - destruct (NilZero.string_of_uint d) as [|c s] eqn:E; [discriminate|].
    pose proof D as D'. cbn in D'. apply andb_true_iff in D'.
    destruct D' as [D1 D2].
    split; [|split; [|split]].
    + rewrite no_line_terminator_forall.
      apply (string_forall_impl is_digit); [apply is_digit_not_terminator|exact D].
    + reflexivity.
    + cbn. now rewrite (is_digit_not_space _ D1).
    + exists c, s. split; [reflexivity|].
      clear - D1. destruct c as [[] [] [] [] [] [] [] []]; cbn in *;
        try discriminate D1; reflexivity.
  - split; [|split; [|split]].
    + cbn. rewrite no_line_terminator_forall.
      apply (string_forall_impl is_digit); [apply is_digit_not_terminator|exact D].
    + reflexivity.
    + reflexivity.
    + eexists _, _. split; [reflexivity|reflexivity].
Qed.

(** *** Quoted values *)

Lemma quoted_tail_app (s : string) :
  no_line_terminator s = true -> quoted_tail (s ++ dq) = Some s.
Proof.
  induction s as [|c s IH]; [reflexivity|].
  cbn [no_line_terminator]. intros E. apply andb_true_iff in E.
  destruct E as [E1 E2]. apply negb_true_iff in E1.
  cbn [append quoted_tail]. rewrite E1, (IH E2).
  destruct (s ++ dq) eqn:F; [destruct s; discriminate F|reflexivity].
Qed.

Lemma strip_quotes_quoted (s : string) :
  no_line_terminator s = true -> strip_quotes (dq ++ s ++ dq) = s.
Proof.
  intros E. cbn [dq append strip_quotes]. change (is_quote DQ) with true.
  cbv iota. now rewrite quoted_tail_app.
Qed.

Lemma strip_quotes_plain (c : ascii) (s : string) :
  is_quote c = false -> strip_quotes (String c s) = String c s.
Proof. intros E. cbn. now rewrite E. Qed.

(** *** Values of the frontmatter *)

Lemma join_cons (sep x y : string) (l : list string) :
  join sep (x :: y :: l) = x ++ sep ++ join sep (y :: l).
Proof. reflexivity. Qed.

Lemma differs_strip (pat l rest : string) :
  differs pat l = true -> strip_prefix pat (l ++ rest) = None.
Proof.
  revert l; induction pat as [|a p IH]; intros l; [discriminate|].
  destruct l as [|b l]; [discriminate|]. cbn.
  destruct (a =? b)%char; [apply IH|reflexivity].
Qed.

Lemma find_line_start_in_line (pat l rest : string) :
  no_line_terminator l = true ->
  find_line_start false pat (l ++ String LF rest) = find_line_start true pat rest.
Proof.
  induction l as [|c l IH]; [reflexivity|].
  cbn [no_line_terminator]. intros E. apply andb_true_iff in E.
  destruct E as [E1 E2]. apply negb_true_iff in E1.
  cbn [append find_line_start]. rewrite E1. now apply IH.
Qed.

Lemma find_line_start_skip (pat l rest : string) :
  no_line_terminator l = true -> differs pat l = true ->
  find_line_start true pat (l ++ String LF rest) = find_line_start true pat rest.
Proof.
  intros E D. pose proof (differs_strip _ _ (String LF rest) D) as S.
  destruct l as [|c l]; [destruct pat; discriminate D|].
  cbn [no_line_terminator] in E. apply andb_true_iff in E.
  destruct E as [E1 E2]. apply negb_true_iff in E1.
  cbn [append find_line_start] in *. rewrite S, E1.
  now apply find_line_start_in_line.
Qed.

Lemma find_line_start_here (pat s r : string) :
  strip_prefix pat s = Some r -> find_line_start true pat s = Some r.
Proof. intros H. destruct s; cbn [find_line_start]; now rewrite H. Qed.

Lemma find_line_start_lines (key : string) (pre : list string) (s : string) :
  Forall (skipped_line key) pre ->
  find_line_start true (key ++ ":")
    (fold_right (fun l acc => l ++ String LF acc) s pre)
  = find_line_start true (key ++ ":") s.
Proof.
  induction 1 as [|l pre [E D] _ IH]; [reflexivity|].
  cbn [fold_right]. now rewrite find_line_start_skip.
Qed.

Lemma join_fold (pre : list string) (x : string) (post : list string) :
  join nl (pre ++ x :: post)%list =
  fold_right (fun l acc => l ++ String LF acc) (join nl (x :: post)) pre.
Proof.
  induction pre as [|a pre IH]; [reflexivity|].
  cbn [fold_right]. rewrite <- IH.
  change ((a :: pre) ++ x :: post)%list with (a :: (pre ++ x :: post)%list).
  destruct (pre ++ x :: post)%list eqn:E; [destruct pre; discriminate E|].
  reflexivity.
Qed.

(** The value read for [key] when the frontmatter consists of lines, the
    lines before the line of [key] are skipped, and the value [v] is a
    single line that does not start with white space. *)
Lemma getValue_lines (key v : string) (pre post : list string) :
  Forall (skipped_line key) pre ->
  no_line_terminator v = true ->
  head_not_space v = true ->
  getValue (join nl (pre ++ (key ++ ": " ++ v)%string :: post)%list) key
  = Some (strip_quotes v).
Proof.
  intros Hpre Hv Hh. unfold getValue.
  rewrite join_fold, (find_line_start_lines _ _ _ Hpre).
  assert (E : join nl ((key ++ ": " ++ v) :: post)
              = (key ++ ":") ++ " " ++ v ++
                match post with [] => "" | _ => nl ++ join nl post end).
  { destruct post; cbn [join String.concat];
      rewrite ?append_assoc; cbn [append]; now rewrite ?append_nil_r. }
  rewrite E, (find_line_start_here _ _ _ (strip_prefix_app _ _)).
  cbn [append skip_space]. change (is_space " ") with true. cbv iota.
  rewrite skip_space_head by now apply head_not_space_app.
  destruct post.
  - now rewrite append_nil_r, take_line_whole.
  - change (nl ++ join nl (s :: post)) with (String LF (join nl (s :: post))).
    now rewrite take_line_app.
Qed.

(** *** JSON text of the reference documents *)

Lemma json_scan_escape (c : ascii) (acc : string) (done : list string)
  (t : string) :
  json_scan (JInStr acc) done (json_escape c ++ t)
  = json_scan (JInStr (acc ++ String c "")) done t.
Proof. destruct c as [[] [] [] [] [] [] [] []]; reflexivity. Qed.

Lemma json_scan_string (s acc : string) (done : list string) (rest : string) :
  json_scan (JInStr acc) done (json_escape_all s ++ String DQ rest)
  = json_scan JAfter (done ++ [(acc ++ s)%string])%list rest.
Proof.
  revert acc; induction s as [|c s IH]; intros acc.
  - cbn [json_escape_all append]. now rewrite append_nil_r.
  - cbn [json_escape_all]. rewrite append_assoc, json_scan_escape, IH.
    now rewrite append_assoc.
Qed.

Lemma json_scan_quote (m : json_mode) (s : string) (done : list string)
  (rest : string) :
  m = JFirst \/ m = JElem ->
  json_scan m done (json_quote s ++ rest)
  = json_scan JAfter (done ++ [s])%list rest.
Proof.
  intros Hm. unfold json_quote. rewrite !append_assoc.
  change (dq ++ json_escape_all s ++ dq ++ rest)
    with (String DQ (json_escape_all s ++ String DQ rest)).
  destruct Hm as [-> | ->]; cbn [json_scan];
    change (is_json_ws DQ) with false; cbv iota;
    change (DQ =? "]")%char with false; cbv iota;
    rewrite Ascii.eqb_refl; apply json_scan_string.
Qed.

Lemma json_scan_tail (l done : list string) :
  json_scan JAfter done (json_tail l) = Some (done ++ l)%list.
Proof.
  revert done; induction l as [|y l IH]; intros done.
  - cbn. now rewrite List.app_nil_r.
  - cbn [json_tail].
    change ("," ++ json_quote y ++ json_tail l)
      with (String "," (json_quote y ++ json_tail l)).
    cbn [json_scan]. change (is_json_ws ",") with false. cbv iota.
    rewrite Ascii.eqb_refl, json_scan_quote by auto.
    rewrite IH, <- List.app_assoc. reflexivity.
Qed.

Lemma join_quote_tail (x : string) (l : list string) :
  join "," (json_quote x :: map json_quote l) ++ "]" = json_quote x ++ json_tail l.
Proof.
  revert x; induction l as [|y l IH]; intros x.
  - reflexivity.
  - cbn [map]. rewrite join_cons, !append_assoc, IH. reflexivity.
Qed.

Lemma JSON_stringify_cons (x : string) (l : list string) :
  JSON_stringify (x :: l) = "[" ++ json_quote x ++ json_tail l.
Proof.
  unfold JSON_stringify. cbn [map]. now rewrite join_quote_tail.
Qed.

Lemma JSON_parse_stringify (l : list string) :
  JSON_parse (JSON_stringify l) = Return l.
Proof.
  destruct l as [|x l]; [reflexivity|].
  rewrite JSON_stringify_cons. unfold JSON_parse.
  change ("[" ++ json_quote x ++ json_tail l)
    with (String "[" (json_quote x ++ json_tail l)).
  cbn [json_scan]. change (is_json_ws "[") with false. cbv iota.
  rewrite Ascii.eqb_refl, json_scan_quote by auto.
  now rewrite json_scan_tail.
Qed.

Lemma json_escape_single_line (c : ascii) :
  no_line_terminator (json_escape c) = true.
Proof. destruct c as [[] [] [] [] [] [] [] []]; reflexivity. Qed.

Lemma json_quote_single_line (s : string) :
  no_line_terminator (json_quote s) = true.
Proof.
  unfold json_quote. rewrite !no_line_terminator_app.
  assert (E : no_line_terminator (json_escape_all s) = true).
  { induction s as [|c s IH]; [reflexivity|].
    cbn [json_escape_all].
    now rewrite no_line_terminator_app, json_escape_single_line, IH. }
  now rewrite E.
Qed.

Lemma json_tail_single_line (l : list string) :
  no_line_terminator (json_tail l) = true.
Proof.
  induction l as [|y l IH]; [reflexivity|].
  cbn [json_tail].
  now rewrite !no_line_terminator_app, json_quote_single_line, IH.
Qed.

Lemma JSON_stringify_shape (l : list string) :
  no_line_terminator (JSON_stringify l) = true /\
  (exists s, JSON_stringify l = String "[" s) /\
  (l <> [] -> (JSON_stringify l =? "[]") = false).
Proof.
  destruct l as [|x l].
  - repeat split; [eexists; reflexivity | congruence].
  - rewrite JSON_stringify_cons. split; [|split].
    + now rewrite !no_line_terminator_app, json_quote_single_line,
        json_tail_single_line.
    + eexists. reflexivity.
    + intros _. reflexivity.
Qed.

(** *** The prompt lines of the body *)

Lemma differs_app (p s rest : string) :
  differs p s = true -> differs p (s ++ rest) = true.
Proof.
  revert s; induction p as [|a p IH]; intros s; [discriminate|].
  destruct s as [|b s]; [discriminate|]. cbn.
  destruct (a =? b)%char; [apply IH|reflexivity].
Qed.

Lemma conflict_app (s rest : string) :
  conflict s = true -> conflict (s ++ rest) = true.
Proof.
  unfold conflict. intros H. apply orb_true_iff in H.
  destruct H as [H|H].
  - now rewrite (differs_app _ _ rest H).
  - destruct s as [|a [|b [|c [|e r]]]]; try discriminate H.
    cbn [append]. apply orb_true_iff in H. destruct H as [H|H].
    + rewrite H. now rewrite orb_true_r.
    + rewrite (differs_app _ _ rest H). now rewrite !orb_true_r.
Qed.

Lemma conflict_no_match (s : string) :
  conflict s = true -> match_prompt_here s = None.
Proof.
  unfold conflict, match_prompt_here. intros H.
  apply orb_true_iff in H. destruct H as [H|H].
  - pose proof (differs_strip _ _ "" H) as E. rewrite append_nil_r in E.
    now rewrite E.
  - destruct s as [|a [|b [|c [|e r]]]]; try discriminate H.
    destruct (strip_prefix "- [" (String a (String b (String c (String e r)))))
      as [t|] eqn:E; [|reflexivity].
    apply strip_prefix_Some in E. injection E as -> -> -> <-.
    apply orb_true_iff in H. destruct H as [H|H].
    + apply negb_true_iff in H. now rewrite H.
    + pose proof (differs_strip _ _ "" H) as F. rewrite append_nil_r in F.
      rewrite F. now destruct (is_status_char e).
Qed.

Lemma quiet_scan (t rest : string) :
  quiet t = true ->
  match_all_prompts false (t ++ rest) = match_all_prompts false rest.
Proof.
  induction t as [|c t IH]; [reflexivity|].
  cbn [quiet]. intros H. apply andb_true_iff in H. destruct H as [H1 H2].
  cbn [append match_all_prompts].
  change (String c (t ++ rest)) with (String c t ++ rest).
  rewrite (conflict_no_match _ (conflict_app _ rest H1)). now apply IH.
Qed.

Lemma quiet_app (a b : string) :
  quiet a = true -> quiet b = true -> quiet (a ++ b) = true.
Proof.
  intros Ha Hb. induction a as [|c a IH]; [exact Hb|].
  cbn [quiet] in Ha. apply andb_true_iff in Ha. destruct Ha as [H1 H2].
  cbn [append quiet]. change (String c (a ++ b)) with (String c a ++ b).
  now rewrite (conflict_app _ b H1), IH.
Qed.

Lemma quiet_cons (c : ascii) (s : string) :
  conflict (String c s) = true -> quiet s = true -> quiet (String c s) = true.
Proof. intros H1 H2. cbn [quiet]. now rewrite H1, H2. Qed.

Lemma quiet_digits (s : string) :
  string_forall is_digit s = true -> quiet s = true.
Proof.
  induction s as [|c s IH]; [reflexivity|].
  cbn [string_forall]. intros H. apply andb_true_iff in H.
  destruct H as [H1 H2]. apply quiet_cons; [|now apply IH].
  unfold conflict. cbn [differs].
  destruct (is_digit_not_sign _ H1) as [E _].
  rewrite Ascii.eqb_sym in E. now rewrite E.
Qed.

Lemma quiet_show_num (n : num) : quiet (show_num n) = true.
Proof.
  destruct n as [z|]; [|reflexivity].
  unfold show_num. destruct (Z.to_int z) as [d|d];
    cbn [NilZero.string_of_int];
    destruct (digits_of_uint_nz d) as (D & N & _ & _).
  - now apply quiet_digits.
  - apply quiet_cons; [|now apply quiet_digits].
    destruct (NilZero.string_of_uint d) as [|c s]; [discriminate N|].
    cbn [string_forall] in D. apply andb_true_iff in D. destruct D as [D _].
    unfold conflict. cbn [differs]. rewrite Ascii.eqb_refl.
    clear - D. destruct c as [[] [] [] [] [] [] [] []]; cbn in *;
      try discriminate D; reflexivity.
Qed.

Lemma in_match_skips (l rest : string) :
  no_line_terminator l = true ->
  match_all_prompts true (l ++ String LF rest) = match_all_prompts false rest.
Proof.
  induction l as [|c l IH]; [reflexivity|].
  cbn [no_line_terminator]. intros E. apply andb_true_iff in E.
  destruct E as [E1 E2]. cbn [append match_all_prompts]. rewrite E1.
  now apply IH.
Qed.

Lemma take_drop_digits (r : string) :
  r = take_digits r ++ drop_digits r /\
  string_forall is_digit (take_digits r) = true.
Proof.
  induction r as [|c r [IH1 IH2]]; [split; reflexivity|].
  cbn [take_digits drop_digits]. destruct (is_digit c) eqn:E.
  - cbn [append string_forall]. rewrite E, IH2. split; [now f_equal|reflexivity].
  - split; reflexivity.
Qed.

Lemma take_digits_app (ds rest : string) :
  string_forall is_digit ds = true ->
  take_digits (ds ++ String "." rest) = ds /\
  drop_digits (ds ++ String "." rest) = String "." rest.
Proof.
  induction ds as [|c ds IH]; [split; reflexivity|].
  cbn [string_forall]. intros H. apply andb_true_iff in H.
  destruct H as [H1 H2]. destruct (IH H2) as [I1 I2].
  cbn [append take_digits drop_digits]. rewrite H1, I1, I2. auto.
Qed.

(** The shape of the file names the prompt-line pattern accepts. *)
Lemma is_prompt_file_shape (f : string) :
  is_prompt_file f = true ->
  exists ds, f = "prompt_" ++ ds ++ ".md" /\
             string_forall is_digit ds = true /\ nonempty ds = true.
Proof.
  unfold is_prompt_file.
  destruct (strip_prefix "prompt_" f) as [r|] eqn:E; [|discriminate].
  intros H. apply andb_true_iff in H. destruct H as [H1 H2].
  apply String.eqb_eq in H2. apply strip_prefix_Some in E.
  destruct (take_drop_digits r) as [R D].
  exists (take_digits r). rewrite E, R at 1. rewrite H2. auto.
Qed.

Lemma status_char_ascii (s : PromptStatus) :
  status_char s = String (status_ascii s) "" /\
  is_status_char (status_ascii s) = true /\
  status_of_char (status_ascii s) = status (as_read (mkPromptInfo "" "" s)).
Proof. destruct s; repeat split; reflexivity. Qed.

Lemma single_line_split (s : string) :
  single_line s = true -> no_line_terminator s = true /\ nonempty s = true.
Proof. unfold single_line. intros H. now apply andb_true_iff in H. Qed.

Lemma match_prompt_here_line (p : PromptInfo) (tail : string) :
  well_formed_prompt p = true ->
  tail = "" \/ (exists r, tail = String LF r) ->
  match_prompt_here (prompt_line p ++ tail)
  = Some (status_ascii (status p), filename p, title p).
Proof.
  unfold well_formed_prompt. intros H Ht. apply andb_true_iff in H.
  destruct H as [Hf Ht'].
  destruct (is_prompt_file_shape _ Hf) as (ds & Ef & Dd & Nd).
  destruct (single_line_split _ Ht') as [Tl Tn].
  destruct (status_char_ascii (status p)) as (Ec & Sc & _).
  assert (E : prompt_line p ++ tail =
              "- [" ++ String (status_ascii (status p))
                ("] prompt_" ++ (ds ++ String "." ("md - " ++ (title p ++ tail))))).
  { unfold prompt_line. rewrite Ec, Ef. rewrite !append_assoc. reflexivity. }
  rewrite E. unfold match_prompt_here. rewrite strip_prefix_app, Sc.
  rewrite strip_prefix_app.
  destruct (take_digits_app ds ("md - " ++ (title p ++ tail)) Dd) as [-> ->].
  destruct ds as [|d0 ds]; [discriminate Nd|].
  change (String "." ("md - " ++ title p ++ tail))
    with (".md - " ++ (title p ++ tail)).
  rewrite strip_prefix_app.
  assert (L : take_line (title p ++ tail) = title p).
  { destruct Ht as [-> | [r ->]].
    - rewrite append_nil_r. now apply take_line_whole.
    - now apply take_line_app. }
  rewrite L. destruct (title p) as [|t0 t] eqn:Et; [discriminate Tn|].
  rewrite <- Ef. reflexivity.
Qed.

Lemma prompt_line_single_line (p : PromptInfo) :
  well_formed_prompt p = true -> no_line_terminator (prompt_line p) = true.
Proof.
  unfold well_formed_prompt. intros H. apply andb_true_iff in H.
  destruct H as [Hf Ht].
  destruct (is_prompt_file_shape _ Hf) as (ds & Ef & Dd & Nd).
  destruct (single_line_split _ Ht) as [Tl Tn].
  unfold prompt_line. rewrite Ef, !no_line_terminator_app, Tl.
  assert (D : no_line_terminator ds = true).
  { rewrite no_line_terminator_forall.
    apply (string_forall_impl is_digit); [apply is_digit_not_terminator|exact Dd]. }
  rewrite D. now destruct (status p).
Qed.

Lemma matched_text_line (p : PromptInfo) :
  matched_text (status_ascii (status p), filename p, title p) = prompt_line p.
Proof.
  unfold matched_text, prompt_line.
  now destruct (status_char_ascii (status p)) as (-> & _).
Qed.

Lemma prompt_line_head (p : PromptInfo) :
  exists s, prompt_line p = String "-" s.
Proof. eexists. reflexivity. Qed.

Lemma match_all_line (p : PromptInfo) (rest : string) :
  well_formed_prompt p = true ->
  match_all_prompts false (prompt_line p ++ String LF rest)
  = prompt_line p :: match_all_prompts false rest.
Proof.
  intros H.
  pose proof (match_prompt_here_line p (String LF rest) H
                (or_intror (ex_intro _ rest eq_refl))) as M.
  pose proof (prompt_line_single_line p H) as L.
  destruct (prompt_line_head p) as [s Es]. rewrite Es in *.
  cbn [append match_all_prompts].
  change (String "-" (s ++ String LF rest)) with (String "-" s ++ String LF rest).
  rewrite M, <- Es, matched_text_line. f_equal.
  apply in_match_skips. cbn in L. exact L.
Qed.

Lemma match_all_lines (l : list PromptInfo) (rest : string) :
  l <> [] ->
  forallb well_formed_prompt l = true ->
  match_all_prompts false (join nl (map prompt_line l) ++ String LF rest)
  = (map prompt_line l ++ match_all_prompts false rest)%list.
Proof.
  induction l as [|p l IH]; [congruence|]. intros _ H.
  cbn [forallb] in H. apply andb_true_iff in H. destruct H as [Hp Hl].
  destruct l as [|q l].
  - cbn [map join String.concat app]. now apply match_all_line.
  - cbn [map]. cbn [map] in IH. rewrite join_cons, !append_assoc.
    change (nl ++ join nl (prompt_line q :: map prompt_line l) ++ String LF rest)
      with (String LF (join nl (prompt_line q :: map prompt_line l)
                       ++ String LF rest)).
    rewrite (match_all_line p _ Hp), IH by (congruence || assumption).
    reflexivity.
Qed.

Lemma match_prompt_line (p : PromptInfo) :
  well_formed_prompt p = true ->
  match_prompt (prompt_line p)
  = Some (status_ascii (status p), filename p, title p).
Proof.
  intros H. pose proof (match_prompt_here_line p "" H (or_introl eq_refl)) as M.
  rewrite append_nil_r in M.
  destruct (prompt_line_head p) as [s Es]. rewrite Es in *.
  cbn [match_prompt]. now rewrite M.
Qed.

Lemma parse_matched_lines (l : list PromptInfo) :
  forallb well_formed_prompt l = true ->
  flat_map
    (fun line =>
       match match_prompt line with
       | Some (c, f, t) => [mkPromptInfo f t (status_of_char c)]
       | None => []
       end)
    (map prompt_line l)
  = map as_read l.
Proof.
  induction l as [|p l IH]; [reflexivity|]. intros H.
  cbn [forallb] in H. apply andb_true_iff in H. destruct H as [Hp Hl].
  cbn [map flat_map]. rewrite (match_prompt_line p Hp), (IH Hl).
  destruct (status_char_ascii (status p)) as (_ & _ & ->).
  reflexivity.
Qed.

Lemma promptList_nonempty (st : MVPBuilderState) :
  promptSequence st <> [] -> nonempty (promptList st) = true.
Proof.
  unfold promptList. destruct (promptSequence st) as [|p l]; [congruence|].
  intros _. cbn [map]. destruct (map prompt_line l); reflexivity.
Qed.

Lemma quiet_lines (lines : list string) :
  Forall (fun l => quiet (l ++ nl) = true) lines ->
  lines <> [] ->
  quiet (join nl lines ++ nl) = true.
Proof.
  induction 1 as [|l ls Hl _ IH]; [congruence|]. intros _.
  destruct ls as [|y ls]; [exact Hl|].
  rewrite join_cons, !append_assoc.
  rewrite <- (append_assoc l nl). apply quiet_app; [exact Hl|].
  apply IH. discriminate.
Qed.

Ltac quiet_steps :=
  cbn [append];
  repeat first
    [ reflexivity
    | apply quiet_cons; [reflexivity|]
    | apply quiet_app; [apply quiet_show_num|] ].

Lemma quiet_phase_progress (st : MVPBuilderState) :
  quiet (join nl (phase_progress_lines st) ++ nl) = true.
Proof.
  apply quiet_lines; [|discriminate].
  unfold phase_progress_lines. cbv zeta.
  repeat apply Forall_cons; try apply Forall_nil;
    rewrite !append_assoc;
    repeat match goal with
           | |- context [if ?b then _ else _] => destruct b
           end;
    rewrite ?append_assoc; quiet_steps.
Qed.

(** *** The frontmatter match on a written state *)

Lemma lazy_until_fence_char (c : ascii) (s : string) :
  is_line_terminator c = false ->
  lazy_until_fence (String c s) =
  match lazy_until_fence s with
  | Some (f, b) => Some (String c f, b)
  | None => None
  end.
Proof.
  intros H. cbn [lazy_until_fence].
  replace (closing_fence (String c s)) with (@None string); [reflexivity|].
  unfold closing_fence, skip_cr. unfold is_line_terminator in H.
  apply orb_false_iff in H. destruct H as [H1 H2]. rewrite H2.
  change (strip_prefix (nl ++ "---") (String c s))
    with (if (LF =? c)%char then strip_prefix "---" s else None).
  rewrite Ascii.eqb_sym in H1. now rewrite H1.
Qed.

Lemma lazy_until_fence_line (l s : string) :
  no_line_terminator l = true ->
  lazy_until_fence (l ++ s) =
  match lazy_until_fence s with
  | Some (f, b) => Some (l ++ f, b)
  | None => None
  end.
Proof.
  induction l as [|c l IH]; cbn [append no_line_terminator].
  - intros _. now destruct (lazy_until_fence s) as [[f b]|].
  - intros E. apply andb_true_iff in E. destruct E as [E1 E2].
    apply negb_true_iff in E1. rewrite (lazy_until_fence_char _ _ E1), (IH E2).
    now destruct (lazy_until_fence s) as [[f b]|].
Qed.

Lemma lazy_until_fence_newline (l s : string) :
  differs "---" l = true ->
  lazy_until_fence (String LF (l ++ s)) =
  match lazy_until_fence (l ++ s) with
  | Some (f, b) => Some (String LF f, b)
  | None => None
  end.
Proof.
  intros D. cbn [lazy_until_fence].
  replace (closing_fence (String LF (l ++ s))) with (@None string);
    [reflexivity|].
  unfold closing_fence. cbn [skip_cr]. change (LF =? CR)%char with false.
  cbv iota. change (strip_prefix (nl ++ "---") (String LF (l ++ s)))
    with (strip_prefix "---" (l ++ s)).
  now rewrite (differs_strip _ _ s D).
Qed.

Lemma lazy_until_fence_lines (lines : list string) (body : string) :
  Forall (fun l => no_line_terminator l = true /\ differs "---" l = true) lines ->
  lines <> [] ->
  lazy_until_fence (join nl lines ++ nl ++ "---" ++ nl ++ body)
  = Some (join nl lines, body).
Proof.
  induction 1 as [|l ls [Hl Dl] Hls IH]; [congruence|]. intros _.
  destruct ls as [|y ls].
  - cbn [join String.concat]. rewrite (lazy_until_fence_line _ _ Hl).
    cbn. now rewrite append_nil_r.
  - rewrite join_cons, !append_assoc, (lazy_until_fence_line _ _ Hl).
    change (nl ++ join nl (y :: ls) ++ nl ++ "---" ++ nl ++ body)
      with (String LF (join nl (y :: ls) ++ nl ++ "---" ++ nl ++ body)).
    assert (Dy : differs "---" y = true) by (inversion Hls; tauto).
    assert (E : join nl (y :: ls) ++ nl ++ "---" ++ nl ++ body
                = y ++ match ls with
                       | [] => ""
                       | _ => nl ++ join nl ls
                       end ++ nl ++ "---" ++ nl ++ body).
    { destruct ls; [reflexivity|]. now rewrite join_cons, !append_assoc. }
    rewrite E, (lazy_until_fence_newline _ _ Dy), <- E, IH by discriminate.
    reflexivity.
Qed.

Lemma getValue_nth (lines : list string) (i : nat) (key v : string) :
  nth_error lines i = Some (key ++ ": " ++ v) ->
  Forall (skipped_line key) (firstn i lines) ->
  no_line_terminator v = true ->
  head_not_space v = true ->
  getValue (join nl lines) key = Some (strip_quotes v).
Proof.
  intros Hn Hpre Hv Hh.
  destruct (nth_error_split _ _ Hn) as (pre & post & -> & <-).
  rewrite firstn_app, firstn_all, Nat.sub_diag in Hpre.
  cbn [firstn] in Hpre. rewrite List.app_nil_r in Hpre.
  now apply getValue_lines.
Qed.

Lemma skipped_lines_firstn (lines : list string) (i : nat) (key : string) :
  Forall (fun l => no_line_terminator l = true) lines ->
  forallb (differs (key ++ ":")) (firstn i lines) = true ->
  Forall (skipped_line key) (firstn i lines).
Proof.
  intros Hl. revert i; induction Hl as [|l ls H _ IH]; intros i Hd.
  - destruct i; constructor.
  - destruct i as [|i]; [constructor|].
    cbn [firstn forallb] in *. apply andb_true_iff in Hd.
    destruct Hd as [D1 D2]. constructor; [split; assumption|]. now apply IH.
Qed.

Lemma well_formed_fields (st : MVPBuilderState) :
  well_formed st = true ->
  single_line (phase st) = true /\
  single_line (startedAt st) = true /\
  single_line (instructionsPath st) = true /\
  (exists c, lastCommit st = Some c /\ single_line c = true) /\
  forallb well_formed_prompt (promptSequence st) = true.
Proof.
  unfold well_formed. intros H.
  apply andb_true_iff in H. destruct H as [H H5].
  apply andb_true_iff in H. destruct H as [H H4].
  apply andb_true_iff in H. destruct H as [H H3].
  apply andb_true_iff in H. destruct H as [H1 H2].
  split; [exact H1|]. split; [exact H2|]. split; [exact H3|].
  split; [|exact H5].
  destruct (lastCommit st) as [c|]; [eauto|discriminate].
Qed.

Lemma frontmatter_lines_single (st : MVPBuilderState) :
  well_formed st = true ->
  Forall (fun l => no_line_terminator l = true) (frontmatter_lines st).
Proof.
  intros W. destruct (well_formed_fields _ W) as (Hp & Hs & Hi & (c & Hc & Hc') & _).
  apply single_line_split in Hp, Hs, Hi, Hc'.
  destruct Hp as [Hp _], Hs as [Hs _], Hi as [Hi _], Hc' as [Hc1 Hc2].
  unfold frontmatter_lines. rewrite Hc.
  destruct c as [|c0 c]; [discriminate Hc2|].
  repeat apply Forall_cons; try apply Forall_nil;
    rewrite !no_line_terminator_app;
    rewrite ?Hp, ?Hs, ?Hi, ?Hc1;
    try reflexivity.
  - now destruct (active st).
  - now destruct (show_num_shape (currentPromptIndex st)) as (-> & _).
  - now destruct (show_num_shape (totalPrompts st)) as (-> & _).
  - now destruct (JSON_stringify_shape (referenceDocs st)) as (-> & _).
  - now destruct (show_num_shape (maxIterations st)) as (-> & _).
  - now destruct (show_num_shape (currentIteration st)) as (-> & _).
Qed.

Lemma match_frontmatter_written (st : MVPBuilderState) :
  well_formed st = true ->
  match_frontmatter (state_text st) = Some (frontmatter_text st, state_body st).
Proof.
  intros W. unfold state_text, match_frontmatter.
  rewrite strip_prefix_app.
  change (strip_prefix nl (skip_cr (nl ++ frontmatter_text st ++ nl ++ "---" ++ nl ++ state_body st)))
    with (Some (frontmatter_text st ++ nl ++ "---" ++ nl ++ state_body st)).
  apply lazy_until_fence_lines; [|discriminate].
  pose proof (frontmatter_lines_single st W) as S.
  unfold frontmatter_lines in *.
  repeat match goal with
         | H : Forall _ (_ :: _) |- _ => inversion_clear H
         end.
  repeat apply Forall_cons; try apply Forall_nil; (split; [assumption|reflexivity]).
Qed.

(** *** The record read back *)

Lemma parse_body_written (st : MVPBuilderState) :
  forallb well_formed_prompt (promptSequence st) = true ->
  parse_prompt_sequence (state_body st) = map as_read (promptSequence st).
Proof.
  intros W. unfold parse_prompt_sequence.
  assert (Q : quiet (nl ++ "## Phase Progress" ++ nl ++
                     join nl (phase_progress_lines st) ++ nl) = true).
  { rewrite <- (append_assoc nl), <- append_assoc.
    apply quiet_app; [reflexivity|apply quiet_phase_progress]. }
  assert (M : match_all_prompts false (state_body st)
              = map prompt_line (promptSequence st)).
  { unfold state_body.
    rewrite <- (append_assoc nl "## Prompt Sequence"), <- append_assoc.
    rewrite quiet_scan by reflexivity.
    destruct (promptSequence st) as [|p l] eqn:E.
    - unfold promptList. rewrite E. cbn [map join String.concat].
      rewrite <- (append_nil_r (_ ++ _)), quiet_scan; [reflexivity|].
      rewrite <- append_assoc. apply quiet_app; [reflexivity|exact Q].
    - assert (N : nonempty (promptList st) = true)
        by (apply promptList_nonempty; congruence).
      assert (P : match promptList st with
                  | "" => "No prompts generated yet."
                  | String a s => String a s
                  end = promptList st)
        by (destruct (promptList st); [discriminate N|reflexivity]).
      rewrite P. unfold promptList. rewrite E.
      change (nl ++ nl ++ "## Phase Progress" ++ nl ++
              join nl (phase_progress_lines st) ++ nl)
        with (String LF (nl ++ "## Phase Progress" ++ nl ++
                         join nl (phase_progress_lines st) ++ nl)).
      rewrite match_all_lines by (congruence || assumption).
      rewrite <- (append_nil_r (nl ++ _)), quiet_scan by exact Q.
      cbn [match_all_prompts]. now rewrite List.app_nil_r. }
  rewrite M. now apply parse_matched_lines.
Qed.

Section WrittenValues.
Variable st : MVPBuilderState.
Hypothesis W : well_formed st = true.

Let fm := frontmatter_text st.

Lemma getValue_written (i : nat) (key v : string) :
  nth_error (frontmatter_lines st) i = Some (key ++ ": " ++ v) ->
  forallb (differs (key ++ ":")) (firstn i (frontmatter_lines st)) = true ->
  head_not_space v = true ->
  getValue fm key = Some (strip_quotes v).
Proof.
  intros Hn Hd Hh.
  assert (Hv : no_line_terminator v = true).
  { pose proof (frontmatter_lines_single st W) as S.
    rewrite Forall_forall in S.
    specialize (S _ (nth_error_In _ _ Hn)).
    rewrite !no_line_terminator_app in S.
    apply andb_true_iff in S. destruct S as [_ S].
    apply andb_true_iff in S. now destruct S. }
  apply (getValue_nth _ i); try assumption.
  apply skipped_lines_firstn; [now apply frontmatter_lines_single|exact Hd].
Qed.

Lemma getValue_number (i : nat) (key : string) (n : num) :
  nth_error (frontmatter_lines st) i = Some (key ++ ": " ++ show_num n) ->
  forallb (differs (key ++ ":")) (firstn i (frontmatter_lines st)) = true ->
  forall d, parseInt (or_default (getValue fm key) d) = n.
Proof.
  intros Hn Hd d.
  destruct (show_num_shape n) as (_ & N & H & (c & s & E & Q)).
  rewrite (getValue_written i key _ Hn Hd H).
  rewrite E, (strip_quotes_plain _ _ Q), <- E.
  rewrite (or_default_nonempty _ _ N). apply parseInt_show_num.
Qed.

Lemma getValue_quoted (i : nat) (key s : string) :
  nth_error (frontmatter_lines st) i = Some (key ++ ": " ++ dq ++ s ++ dq) ->
  forallb (differs (key ++ ":")) (firstn i (frontmatter_lines st)) = true ->
  single_line s = true ->
  getValue fm key = Some s /\ forall d, or_default (getValue fm key) d = s.
Proof.
  intros Hn Hd Hs. destruct (single_line_split _ Hs) as [L N].
  rewrite (getValue_written i key _ Hn Hd eq_refl).
  rewrite (strip_quotes_quoted _ L). split; [reflexivity|].
  intros d. now apply or_default_nonempty.
Qed.

Lemma state_of_match_written (w : World) :
  state_of_match w fm (state_body st)
  = with_sequence st (map as_read (promptSequence st)).
Proof.
  destruct (well_formed_fields _ W) as (Hp & Hs & Hi & (c & Hc & Hc') & Hq).
  unfold state_of_match, with_sequence. cbv zeta.
  rewrite (parse_body_written st Hq).
  rewrite (getValue_number 2 "current_prompt_index" (currentPromptIndex st)
             eq_refl eq_refl).
  rewrite (getValue_number 3 "total_prompts" (totalPrompts st) eq_refl eq_refl).
  rewrite (getValue_number 8 "max_iterations" (maxIterations st) eq_refl eq_refl).
  rewrite (getValue_number 9 "current_iteration" (currentIteration st)
             eq_refl eq_refl).
  rewrite (proj2 (getValue_quoted 1 "phase" (phase st) eq_refl eq_refl Hp)).
  rewrite (proj2 (getValue_quoted 4 "started_at" (startedAt st) eq_refl eq_refl Hs)).
  rewrite (proj2 (getValue_quoted 6 "instructions_path" (instructionsPath st)
                    eq_refl eq_refl Hi)).
  assert (A : getValue fm "active" = Some (show_bool (active st))).
  { rewrite (getValue_written 0 "active" (show_bool (active st)) eq_refl eq_refl)
      by (now destruct (active st)).
    now destruct (active st). }
  rewrite A.
  assert (C : getValue fm "last_commit" = lastCommit st).
  { rewrite Hc. destruct (single_line_split _ Hc') as [_ N].
    destruct c as [|c0 c]; [discriminate N|].
    refine (proj1 (getValue_quoted 5 "last_commit" (String c0 c) _ eq_refl Hc')).
    unfold frontmatter_lines. now rewrite Hc. }
  rewrite C.
  assert (R : getArrayValue fm "reference_docs" = referenceDocs st).
  { unfold getArrayValue.
    destruct (JSON_stringify_shape (referenceDocs st)) as (_ & (s & E) & NE).
    rewrite (getValue_written 7 "reference_docs"
               (JSON_stringify (referenceDocs st)) eq_refl eq_refl)
      by (now rewrite E).
    rewrite E, (strip_quotes_plain "[" s eq_refl), <- E.
    destruct (referenceDocs st) as [|x l] eqn:D; [reflexivity|].
    rewrite NE by discriminate. rewrite E. cbn [nonempty negb orb].
    rewrite <- E. now rewrite JSON_parse_stringify. }
  rewrite R.
  replace (show_bool (active st) =? "true") with (active st)
    by (now destruct (active st)).
  reflexivity.
Qed.

End WrittenValues.

(** Loading a state file written from a well-formed record. *)
Lemma parseState_written (w : World) (d : string) (st : MVPBuilderState) :
  persisted (fs w) d st ->
  well_formed st = true ->
  parseState w d
  = Return (Some (with_sequence st (map as_read (promptSequence st)))).
Proof.
  unfold persisted. intros P W. unfold parseState, existsSync, readFileSync.
  rewrite P. cbn [negb bind catch].
  rewrite (match_frontmatter_written st W). cbn [catch].
  now rewrite (state_of_match_written st W w).
Qed.

Lemma map_as_read_id (l : list PromptInfo) :
  Forall (fun p => status p <> skipped) l -> map as_read l = l.
Proof.
  induction 1 as [|p l H _ IH]; [reflexivity|].
  cbn [map]. rewrite IH. f_equal.
  destruct p as [f t s]. unfold as_read. cbn in *. now destruct s.
Qed.


(** A last commit of [null] is written as the bare word [null] and read
    back as the text [null]. *)
Example null_commit_read_as_text :
  parseState
    (with_fs (world_with_state_text "/app" "")
       (writeState (fs (world_with_state_text "/app" "")) "/app"
          demo_initial_state)) "/app"
  = Return (Some (with_lastCommit demo_initial_state (Some "null"))).
Proof. vm_compute. reflexivity. Qed.



(** ** Cycles without completion signal *)

Lemma no_signal_unchanged (w : World) (d : string) (st : MVPBuilderState) :
  signal_detected w st = false ->
  c_state (check_response w d st) = st /\
  c_shouldAdvance (check_response w d st) = false /\
  c_finished (check_response w d st) = false.
Proof.
  unfold signal_detected. intros H. rewrite check_response_cases.
  destruct (session w); [|cbn; auto].
  destruct (last_response w) as [t|]; [|cbn; auto].
  unfold phase_switch, expected_marker in *.
  repeat match goal with
         | |- context [if (phase st =? ?x) then _ else _] =>
             destruct (phase st =? x)
         end;
    try rewrite H; cbn; auto.
Qed.

Lemma no_signal_saved (w : World) (d : string) (st : MVPBuilderState) :
  signal_detected w st = false ->
  saved_state w d (check_response w d st) = next_iteration st /\
  commits (continue_run w d (check_response w d st)) = [].
Proof.
  intros H. destruct (no_signal_unchanged w d st H) as (E1 & E2 & _).
  unfold saved_state, continue_run, commit_step. rewrite E1, E2. cbn [andb].
  split; [reflexivity|].
  destruct (phase_prompt _ _ _); reflexivity.
Qed.

Lemma phase_prompt_next_iteration (w : World) (d : string)
  (st : MVPBuilderState) :
  phase st <> "complete" ->
  phase_prompt w (next_iteration st) d = phase_prompt w st d.
Proof.
  intros N. destruct st as [a ph idx tot seq sa lc ip rd mx cur].
  unfold next_iteration, phase_prompt. cbn [phase with_iteration] in *.
  destruct (String.eqb_spec ph "complete") as [E|_]; [contradiction|].
  reflexivity.
Qed.




(** ** Completion detection in the handler *)

Lemma phase_switch_without_marker (w : World) (d : string)
  (st : MVPBuilderState) (t : string) :
  (forall m, expected_marker (phase st) = Some m -> hasPromise t m = false) ->
  phase_switch w d st t = unchanged st.
Proof.
  unfold phase_switch, expected_marker.
  repeat match goal with
         | |- context [if (phase st =? ?x) then _ else _] =>
             destruct (phase st =? x)
         end;
    intros H; rewrite ?(H _ eq_refl); reflexivity.
Qed.

(** C3. Completion detection honours only the first delimiter of the
    response: when the response has a first delimiter, a signal is reported
    exactly when its trimmed content is the expected marker (string
    equality), whatever later delimiters hold; when the response has no
    well-formed delimiter, no signal is reported.  This holds for
    [hasPromise] and for [checkCompletionPromise].  When no signal is
    reported for the marker of the current phase, the handler's switch
    leaves the record unchanged and requests no advancement. *)
Theorem completion_detection_first_delimiter (text promise : string) :
  (forall body, first_delimiter text body ->
     hasPromise text promise = (trim body =? promise) /\
     Legacy.checkCompletionPromise text promise = (trim body =? promise)) /\
  ((forall body, ~ first_delimiter text body) ->
     hasPromise text promise = false /\
     Legacy.checkCompletionPromise text promise = false) /\
  (forall w d st,
     expected_marker (phase st) = Some promise ->
     hasPromise text promise = false ->
     phase_switch w d st text = unchanged st /\
     c_shouldAdvance (phase_switch w d st text) = false).
Proof.
  unfold hasPromise, Legacy.checkCompletionPromise. split; [|split].
  - intros body H. now rewrite (match_promise_complete _ _ H).
  - intros H. now rewrite (match_promise_none _ H).
  - intros w d st E H.
    assert (U : phase_switch w d st text = unchanged st).
    { apply phase_switch_without_marker. intros m Em.
      rewrite E in Em. injection Em as <-. exact H. }
    now rewrite U.
Qed.

(** A response whose first delimiter holds another string yields no signal
    although the expected marker appears in a later delimiter. *)
Lemma completion_detection_first_delimiter_witness :
  first_delimiter
    "ok <promise> NOT_YET </promise> <promise>PROMPT_COMPLETE</promise>"
    " NOT_YET " /\
  hasPromise
    "ok <promise> NOT_YET </promise> <promise>PROMPT_COMPLETE</promise>"
    "PROMPT_COMPLETE" = false /\
  hasPromise
    "ok <promise> NOT_YET </promise> <promise>PROMPT_COMPLETE</promise>"
    "NOT_YET" = true /\
  phase_switch (demo_world "/app" "" "") "/app" demo_executing_state
    "ok <promise> NOT_YET </promise> <promise>PROMPT_COMPLETE</promise>"
  = unchanged demo_executing_state.
Proof.
  assert (D : first_delimiter
    "ok <promise> NOT_YET </promise> <promise>PROMPT_COMPLETE</promise>"
    " NOT_YET ").
  { exists "ok ", " NOT_YET </promise> <promise>PROMPT_COMPLETE</promise>",
      " <promise>PROMPT_COMPLETE</promise>".
    split; apply split_at_first_occurs; reflexivity. }
  pose proof (completion_detection_first_delimiter
    "ok <promise> NOT_YET </promise> <promise>PROMPT_COMPLETE</promise>"
    "PROMPT_COMPLETE") as (H1 & _ & H3).
  pose proof (completion_detection_first_delimiter
    "ok <promise> NOT_YET </promise> <promise>PROMPT_COMPLETE</promise>"
    "NOT_YET") as (H1' & _).
  assert (F : hasPromise
    "ok <promise> NOT_YET </promise> <promise>PROMPT_COMPLETE</promise>"
    "PROMPT_COMPLETE" = false).
  { rewrite (proj1 (H1 _ D)). reflexivity. }
  split; [exact D|]. split; [exact F|]. split.
  - rewrite (proj1 (H1' _ D)). reflexivity.
  - exact (proj1 (H3 (demo_world "/app" "" "") "/app" demo_executing_state
                    eq_refl F)).
Defined.

(** The story plugin's own test is a different one: it looks for the
    delimited marker anywhere in the response and compares without
    trimming, so there a later delimiter counts and a padded one does
    not. *)
Example story_detection_any_occurrence :
  Story.hasPromise
    "<promise>STORY_COMPLETE</promise> and <promise>COMPLETE</promise>"
    "COMPLETE" = true /\
  hasPromise
    "<promise>STORY_COMPLETE</promise> and <promise>COMPLETE</promise>"
    "COMPLETE" = false /\
  Story.hasPromise "<promise> COMPLETE </promise>" "COMPLETE" = false /\
  hasPromise "<promise> COMPLETE </promise>" "COMPLETE" = true.
Proof. repeat split; vm_compute; reflexivity. Qed.

(** * Further properties *)

(** ** The state store and the file system *)

Lemma update_fs_other (f : string -> option node) (p q : string)
  (n : option node) : q <> p -> update_fs f p n q = f q.
Proof.
  intros H. unfold update_fs. destruct (String.eqb_spec q p); congruence.
Qed.

(** X14. [deleteState] reports whether the state file existed; afterwards
    the state file is absent and [parseState] yields [null], every other
    path is untouched, and a second call reports [false] and changes
    nothing. *)
Theorem deleteState_reports_and_clears (f : string -> option node)
  (d : string) :
  (snd (deleteState f d) = true <-> ~ absent f d) /\
  absent (fst (deleteState f d)) d /\
  (forall p, p <> path_join d STATE_FILE -> fst (deleteState f d) p = f p) /\
  deleteState (fst (deleteState f d)) d = (fst (deleteState f d), false) /\
  (forall w, parseState (with_fs w (fst (deleteState f d))) d = Return None).
Proof.
  assert (A : absent (fst (deleteState f d)) d) by apply deleteState_absent.
  split; [|split; [exact A|split; [|split]]].
  - unfold deleteState, absent.
    destruct (f (path_join d STATE_FILE)); cbn; split; congruence.
  - intros p H. unfold deleteState.
    destruct (f (path_join d STATE_FILE)); cbn [fst]; [|reflexivity].
    now apply update_fs_other.
  - unfold absent in A. unfold deleteState at 1. now rewrite A.
  - intros w. now apply parseState_absent.
Qed.

(** X13. The only file the handler itself writes or deletes is the state
    file: after any event, every other path of the file system is as
    before.  (What git does to the repository is recorded apart, in
    [commits].) *)
Theorem handler_writes_state_file_only (w : World) (d ev p : string) :
  p <> path_join d STATE_FILE ->
  fs_after (event_handler w d ev) p = fs w p.
Proof.
  intros H. unfold event_handler.
  destruct (negb (ev =? "session.idle")); [reflexivity|].
  destruct (parseState w d) as [[st|]|]; try reflexivity.
  destruct (negb (active st)); [reflexivity|].
  assert (D : fst (deleteState (fs w) d) p = fs w p).
  { unfold deleteState.
    destruct (fs w (path_join d STATE_FILE)); cbn [fst]; [|reflexivity].
    now apply update_fs_other. }
  destruct (num_geb _ _); [exact D|].
  destruct (c_finished _); [exact D|].
  rewrite continue_run_fs. unfold writeState. now apply update_fs_other.
Qed.

Lemma handler_writes_state_file_only_witness :
  "/app/instructions/project_overview.md" <> path_join "/app" STATE_FILE /\
  fs_after
    (event_handler
       (demo_world "/app" (state_text (demo_state "qa_integration" 3 100))
          "<promise>INTEGRATION_CHECK_COMPLETE</promise>")
       "/app" "session.idle")
    "/app/instructions/project_overview.md"
  = Some (File "A to-do list application.").
Proof.
  assert (N : "/app/instructions/project_overview.md"
              <> path_join "/app" STATE_FILE) by (vm_compute; discriminate).
  split; [exact N|].
  rewrite (handler_writes_state_file_only _ "/app" "session.idle" _ N).
  reflexivity.
Defined.

(** ** The order of the phases *)

Lemma signal_detected_inv (w : World) (st : MVPBuilderState) :
  signal_detected w st = true ->
  exists t m, last_response w = Some t /\
              expected_marker (phase st) = Some m /\
              hasPromise t m = true.
Proof.
  unfold signal_detected.
  destruct (last_response w) as [t|]; [|discriminate].
  destruct (expected_marker (phase st)) as [m|]; [|discriminate].
  intros H. now exists t, m.
Qed.

Lemma check_response_on_response (w : World) (d : string)
  (st : MVPBuilderState) (t : string) :
  last_response w = Some t ->
  check_response w d st = phase_switch w d st t.
Proof.
  intros H. rewrite check_response_cases, H.
  unfold last_response in H. now destruct (session w).
Qed.

Lemma phase_switch_next (w : World) (d : string) (st : MVPBuilderState)
  (t : string) :
  c_nextPhase (phase_switch w d st t) = phase st \/
  (exists m, expected_marker (phase st) = Some m /\ hasPromise t m = true) /\
  following_phase (phase st) = Some (c_nextPhase (phase_switch w d st t)).
Proof.
  unfold phase_switch, expected_marker, following_phase.
  repeat match goal with
         | |- context [phase st =? ?x] =>
             destruct (String.eqb_spec (phase st) x) as [E|]; [rewrite E; cbn|]
         end;
    split_ifs; cbn; auto; right; eauto.
Qed.

(** X4. The phase never goes back and never skips a phase: a trigger on
    an active workflow either deletes the state file or saves a record
    whose phase is the loaded one or, when the completion signal of the
    loaded phase was detected, the phase that follows it. *)
Theorem phase_changes_only_forward (w : World) (d : string)
  (st : MVPBuilderState) :
  triggered_on w d st ->
  absent (fs_after (event_handler w d "session.idle")) d \/
  exists st',
    persisted (fs_after (event_handler w d "session.idle")) d st' /\
    (phase st' = phase st \/
     signal_detected w st = true /\
     following_phase (phase st) = Some (phase st')).
Proof.
  intros T. rewrite (event_handler_triggered _ _ _ T).
  destruct (num_geb _ _); [left; apply deleteState_absent|].
  destruct (c_finished _) eqn:F; [left; apply deleteState_absent|].
  right. exists (saved_state w d (check_response w d st)).
  rewrite continue_run_fs. split; [apply writeState_persisted|].
  rewrite saved_state_phase.
  destruct (check_response_preserves w d st) as (_ & Hp & _).
  destruct (c_shouldAdvance _ && nonempty _); [|now left].
  rewrite check_response_cases in *.
  destruct (session w) eqn:S; [|now left].
  destruct (last_response w) as [t|] eqn:L; [|now left].
  destruct (phase_switch_next w d st t) as [E|[(m & Hm & Ht) E]]; [now left|].
  right. split; [|exact E].
  unfold signal_detected. now rewrite L, Hm.
Qed.

Lemma phase_changes_only_forward_witness :
  persisted
    (fs_after
       (event_handler
          (demo_world "/app" (state_text (demo_state "qa_integration" 3 100))
             "<promise>INTEGRATION_CHECK_COMPLETE</promise>")
          "/app" "session.idle"))
    "/app" (demo_state "qa_completeness" 4 100) /\
  following_phase "qa_integration" = Some "qa_completeness" /\
  (absent
     (fs_after
        (event_handler
           (demo_world "/app" (state_text (demo_state "qa_integration" 3 100))
              "<promise>INTEGRATION_CHECK_COMPLETE</promise>")
           "/app" "session.idle")) "/app" \/
   exists st',
     persisted
       (fs_after
          (event_handler
             (demo_world "/app" (state_text (demo_state "qa_integration" 3 100))
                "<promise>INTEGRATION_CHECK_COMPLETE</promise>")
             "/app" "session.idle")) "/app" st' /\
     (phase st' = "qa_integration" \/
      signal_detected
        (demo_world "/app" (state_text (demo_state "qa_integration" 3 100))
           "<promise>INTEGRATION_CHECK_COMPLETE</promise>")
        (demo_state "qa_integration" 3 100) = true /\
      following_phase "qa_integration" = Some (phase st'))).
Proof.
  split; [vm_compute; reflexivity|]. split; [reflexivity|].
  apply (phase_changes_only_forward
           (demo_world "/app" (state_text (demo_state "qa_integration" 3 100))
              "<promise>INTEGRATION_CHECK_COMPLETE</promise>")
           "/app" (demo_state "qa_integration" 3 100)).
  split; [vm_compute; reflexivity | reflexivity].
Defined.

(** ** Advancing on a signal *)

Lemma continue_run_commits (w : World) (d : string) (c : Check) :
  commits (continue_run w d c) = snd (commit_step w d c).
Proof.
  unfold continue_run. destruct (commit_step w d c) as [[st l] m].
  destruct (phase_prompt _ _ _); reflexivity.
Qed.

Lemma plain_phase_switch (w : World) (d : string) (st : MVPBuilderState)
  (t msg : string) :
  plain_phase_commit (phase st) = Some msg ->
  (exists m, expected_marker (phase st) = Some m /\ hasPromise t m = true) ->
  exists next,
    following_phase (phase st) = Some next /\
    phase_switch w d st t = advance st next msg.
Proof.
  unfold plain_phase_commit, expected_marker, following_phase, phase_switch.
  intros P (m & M & H).
  repeat match type of P with
         | context [phase st =? ?x] =>
             destruct (String.eqb_spec (phase st) x) as [E|];
               [rewrite E in *; cbn in *|]
         end;
    try discriminate;
    injection P as <-; injection M as <-; rewrite H; eauto.
Qed.

Lemma plain_commit_nonempty (ph msg : string) :
  plain_phase_commit ph = Some msg -> nonempty msg = true.
Proof.
  unfold plain_phase_commit.
  repeat match goal with
         | |- context [ph =? ?x] => destruct (ph =? x)
         end; intros [= <-]; reflexivity.
Qed.

(** X5. In the phases [generating_plan], [qa_integration],
    [qa_completeness] and [documentation], a detected signal always
    advances: one commit is attempted with the message of the phase and
    the saved record is in the following phase with the iteration counted,
    also when the commit fails; the last commit is replaced only by a
    non-empty hash. *)
Theorem signal_advances_plain_phase (w : World) (d : string)
  (st : MVPBuilderState) (msg : string) :
  triggered_on w d st ->
  num_geb (currentIteration st) (maxIterations st) = false ->
  plain_phase_commit (phase st) = Some msg ->
  signal_detected w st = true ->
  exists next,
    following_phase (phase st) = Some next /\
    commits (event_handler w d "session.idle") = [msg] /\
    persisted (fs_after (event_handler w d "session.idle")) d
      (next_iteration
         (with_phase
            (match gitCommit w d msg with
             | Some h => if nonempty h then with_lastCommit st (Some h) else st
             | None => st
             end) next)).
Proof.
  intros T C P S. rewrite (event_handler_triggered _ _ _ T), C.
  destruct (signal_detected_inv _ _ S) as (t & m & L & M & H).
  rewrite (check_response_on_response w d st t L).
  destruct (plain_phase_switch w d st t msg P (ex_intro _ m (conj M H)))
    as (next & F & ->).
  exists next. split; [exact F|].
  cbn [c_finished advance]. rewrite continue_run_commits, continue_run_fs.
  unfold saved_state, commit_step.
  cbn [c_shouldAdvance c_commitMessage c_state c_nextPhase advance andb].
  rewrite (plain_commit_nonempty _ _ P).
  destruct (gitCommit w d msg) as [[|a h]|]; cbn [snd nonempty];
    (split; [reflexivity | apply writeState_persisted]).
Qed.

Lemma signal_advances_plain_phase_witness :
  commits
    (event_handler
       (demo_world_without_git "/app"
          (state_text (demo_state "documentation" 7 100))
          "Done. <promise>DOCUMENTATION_COMPLETE</promise>")
       "/app" "session.idle")
  = ["MVP Builder: Documentation complete"] /\
  persisted
    (fs_after
       (event_handler
          (demo_world_without_git "/app"
             (state_text (demo_state "documentation" 7 100))
             "Done. <promise>DOCUMENTATION_COMPLETE</promise>")
          "/app" "session.idle"))
    "/app" (demo_state "complete" 8 100).
Proof.
  destruct (signal_advances_plain_phase
              (demo_world_without_git "/app"
                 (state_text (demo_state "documentation" 7 100))
                 "Done. <promise>DOCUMENTATION_COMPLETE</promise>")
              "/app" (demo_state "documentation" 7 100)
              "MVP Builder: Documentation complete")
    as (next & F & C & P).
  - split; [vm_compute; reflexivity | reflexivity].
  - reflexivity.
  - reflexivity.
  - reflexivity.
  - injection F as <-. split; [exact C | exact P].
Defined.

Lemma saved_state_advance (w : World) (d : string) (st : MVPBuilderState)
  (next msg : string) :
  nonempty msg = true ->
  saved_state w d (advance st next msg) =
  next_iteration
    (with_phase
       (with_lastCommit st (commit_recorded (lastCommit st) (gitCommit w d msg)))
       next) /\
  snd (commit_step w d (advance st next msg)) = [msg].
Proof.
  intros N. unfold saved_state, commit_step, commit_recorded.
  cbn [c_shouldAdvance c_commitMessage c_state c_nextPhase advance andb].
  rewrite N. destruct st.
  destruct (gitCommit w d msg) as [[|a h]|]; split; reflexivity.
Qed.

(** X6. When the signal of [generating_prompts] is detected and prompt
    files are found, the saved record is in phase [executing] at index 0
    with the number of files as prompt count, the first entry in progress
    and the others as discovered, and the commit message names the
    count. *)
Theorem prompts_generated_starts_execution (w : World) (d : string)
  (st : MVPBuilderState) (first : PromptInfo) (others : list PromptInfo) :
  triggered_on w d st ->
  num_geb (currentIteration st) (maxIterations st) = false ->
  phase st = "generating_prompts" ->
  signal_detected w st = true ->
  discoverPromptFiles w (path_join d (instructionsPath st))
    = Return (first :: others) ->
  let n := Int (Z.of_nat (List.length (first :: others))) in
  let msg := "MVP Builder: Generated " ++ show_num n ++ " execution prompts" in
  commits (event_handler w d "session.idle") = [msg] /\
  persisted (fs_after (event_handler w d "session.idle")) d
    (mkState (active st) "executing" (Int 0) n
       (set_status in_progress first :: others)
       (startedAt st)
       (commit_recorded (lastCommit st) (gitCommit w d msg))
       (instructionsPath st) (referenceDocs st) (maxIterations st)
       (num_succ (currentIteration st))).
Proof.
  intros T C E S D n msg.
  rewrite (event_handler_triggered _ _ _ T), C.
  destruct (signal_detected_inv _ _ S) as (t & m & L & M & H).
  rewrite E in M. injection M as <-.
  rewrite (check_response_on_response w d st t L).
  unfold phase_switch. rewrite E, H, D.
  cbn [String.eqb Ascii.eqb Bool.eqb].
  cbn [c_finished advance].
  rewrite continue_run_commits, continue_run_fs.
  assert (N : forall k, nonempty ("MVP Builder: Generated " ++ k) = true)
    by reflexivity.
  match goal with
  | |- context [advance ?s ?x ?m] =>
      destruct (saved_state_advance w d s x m (N _)) as [-> ->]
  end.
  split; [reflexivity|]. apply writeState_persisted.
Qed.

Lemma prompts_generated_starts_execution_witness :
  commits
    (event_handler
       (demo_prompts_world (state_text (demo_state "generating_prompts" 2 100))
          "<promise>PROMPTS_GENERATED</promise>")
       "/app" "session.idle")
  = ["MVP Builder: Generated 3 execution prompts"] /\
  persisted
    (fs_after
       (event_handler
          (demo_prompts_world
             (state_text (demo_state "generating_prompts" 2 100))
             "<promise>PROMPTS_GENERATED</promise>")
          "/app" "session.idle"))
    "/app"
    (mkState true "executing" (Int 0) (Int 3)
       [mkPromptInfo "prompt_01.md" "Project setup" in_progress;
        mkPromptInfo "prompt_2.md" "Seed data" pending;
        mkPromptInfo "prompt_10.md" "Prompt" pending]
       "2026-01-01T00:00:00.000Z" (Some "abc1234") "instructions" []
       (Int 100) (Int 3)).
Proof.
  apply (prompts_generated_starts_execution
           (demo_prompts_world
              (state_text (demo_state "generating_prompts" 2 100))
              "<promise>PROMPTS_GENERATED</promise>")
           "/app" (demo_state "generating_prompts" 2 100)
           (mkPromptInfo "prompt_01.md" "Project setup" pending)
           [mkPromptInfo "prompt_2.md" "Seed data" pending;
            mkPromptInfo "prompt_10.md" "Prompt" pending]).
  - split; [vm_compute; reflexivity | reflexivity].
  - reflexivity.
  - reflexivity.
  - reflexivity.
  - vm_compute. reflexivity.
Defined.

(** ** Completing a prompt *)

Lemma nth_error_update_nth {A} (f : A -> A) (n j : nat) (l : list A) :
  nth_error (update_nth n f l) j =
  if (j =? n)%nat then option_map f (nth_error l j) else nth_error l j.
Proof.
  revert n j; induction l as [|x l IH]; intros n j.
  - cbn. destruct j, n; cbn; try reflexivity.
    destruct (j =? n)%nat; reflexivity.
  - destruct n as [|n], j as [|j]; cbn; try reflexivity. apply IH.
Qed.

Lemma nth_error_set_status_at (l : list PromptInfo) (i : Z) (s : PromptStatus)
  (j : nat) :
  (0 <= i)%Z ->
  nth_error (set_status_at l (Int i) s) j =
  if (j =? Z.to_nat i)%nat then option_map (set_status s) (nth_error l j)
  else nth_error l j.
Proof.
  intros P. unfold set_status_at.
  replace (i <? 0)%Z with false by (symmetry; apply Z.ltb_ge; lia).
  apply nth_error_update_nth.
Qed.

Lemma nth_num_Int {A} (l : list A) (i : Z) :
  (0 <= i)%Z -> nth_num l (Int i) = nth_error l (Z.to_nat i).
Proof.
  intros P. unfold nth_num.
  now replace (i <? 0)%Z with false by (symmetry; apply Z.ltb_ge; lia).
Qed.

Lemma executing_signal (w : World) (st : MVPBuilderState) :
  phase st = "executing" -> signal_detected w st = true ->
  exists t, last_response w = Some t /\ hasPromise t "PROMPT_COMPLETE" = true.
Proof.
  intros E S. destruct (signal_detected_inv _ _ S) as (t & m & L & M & H).
  rewrite E in M. injection M as <-. eauto.
Qed.

Lemma executing_switch (w : World) (d : string) (st : MVPBuilderState)
  (t : string) :
  phase st = "executing" -> hasPromise t "PROMPT_COMPLETE" = true ->
  phase_switch w d st t =
  let idx := currentPromptIndex st in
  let '(state, commitMessage) :=
    match nth_num (promptSequence st) idx with
    | Some p =>
        (with_sequence st (set_status_at (promptSequence st) idx completed),
         "MVP Builder: Completed " ++ filename p)
    | None => (st, "")
    end in
  if num_ltb (num_succ idx) (totalPrompts state) then
    let state := with_index state (num_succ idx) in
    match nth_num (promptSequence state) (num_succ idx) with
    | Some _ =>
        advance
          (with_sequence state
             (set_status_at (promptSequence state) (num_succ idx) in_progress))
          "executing" commitMessage
    | None => thrown_after w state commitMessage
    end
  else
    advance state "qa_integration"
      "MVP Builder: All execution prompts completed".
Proof.
  intros E H. unfold phase_switch. rewrite E, H. reflexivity.
Qed.

(** X7. In phase [executing], a detected signal with a further prompt to
    run marks the current entry completed and the next one in progress,
    moves the index by one, stays in [executing] and commits with the
    name of the completed file; the other entries and the prompt count are
    unchanged. *)
Theorem prompt_complete_starts_next_prompt (w : World) (d : string)
  (st : MVPBuilderState) (i n : Z) (p q : PromptInfo) :
  triggered_on w d st ->
  num_geb (currentIteration st) (maxIterations st) = false ->
  phase st = "executing" ->
  signal_detected w st = true ->
  currentPromptIndex st = Int i -> (0 <= i)%Z ->
  totalPrompts st = Int n -> (i + 1 < n)%Z ->
  nth_error (promptSequence st) (Z.to_nat i) = Some p ->
  nth_error (promptSequence st) (Z.to_nat (i + 1)) = Some q ->
  commits (event_handler w d "session.idle")
    = ["MVP Builder: Completed " ++ filename p] /\
  exists st',
    persisted (fs_after (event_handler w d "session.idle")) d st' /\
    phase st' = "executing" /\
    currentPromptIndex st' = Int (i + 1) /\
    totalPrompts st' = Int n /\
    currentIteration st' = num_succ (currentIteration st) /\
    lastCommit st' =
      commit_recorded (lastCommit st)
        (gitCommit w d ("MVP Builder: Completed " ++ filename p)) /\
    nth_error (promptSequence st') (Z.to_nat i) = Some (set_status completed p) /\
    nth_error (promptSequence st') (Z.to_nat (i + 1))
      = Some (set_status in_progress q) /\
    (forall j, j <> Z.to_nat i -> j <> Z.to_nat (i + 1) ->
       nth_error (promptSequence st') j = nth_error (promptSequence st) j).
Proof.
  intros T C E S Hi Pi Hn Ln Hp Hq.
  rewrite (event_handler_triggered _ _ _ T), C.
  destruct (executing_signal w st E S) as (t & L & H).
  rewrite (check_response_on_response w d st t L).
  rewrite (executing_switch w d st t E H). cbv zeta.
  rewrite Hi. rewrite (nth_num_Int _ i Pi), Hp.
  cbn [totalPrompts with_sequence num_succ]. rewrite Hn. cbn [num_ltb].
  replace (i + 1 <? n)%Z with true by (symmetry; apply Z.ltb_lt; lia).
  cbn [promptSequence with_index with_sequence].
  assert (Pi' : (0 <= i + 1)%Z) by lia.
  assert (D : Z.to_nat i <> Z.to_nat (i + 1)) by lia.
  rewrite (nth_num_Int _ (i + 1) Pi'), (nth_error_set_status_at _ i _ _ Pi).
  replace (Z.to_nat (i + 1) =? Z.to_nat i)%nat with false
    by (symmetry; apply Nat.eqb_neq; lia).
  rewrite Hq. cbn [c_finished advance].
  rewrite continue_run_commits, continue_run_fs.
  assert (N : nonempty ("MVP Builder: Completed " ++ filename p) = true)
    by reflexivity.
  match goal with
  | |- context [advance ?s ?x ?m] =>
      destruct (saved_state_advance w d s x m N) as [-> ->]
  end.
  split; [reflexivity|].
  eexists. split; [apply writeState_persisted|].
  cbn [phase currentPromptIndex totalPrompts currentIteration lastCommit
       promptSequence next_iteration with_iteration with_phase with_lastCommit
       with_index with_sequence].
  rewrite Hn.
  repeat (split; [reflexivity|]).
  split; [|split].
  - rewrite (nth_error_set_status_at _ (i + 1) _ _ Pi').
    rewrite (nth_error_set_status_at _ i _ _ Pi).
    replace (Z.to_nat i =? Z.to_nat (i + 1))%nat with false
      by (symmetry; apply Nat.eqb_neq; lia).
    now rewrite Nat.eqb_refl, Hp.
  - rewrite (nth_error_set_status_at _ (i + 1) _ _ Pi').
    rewrite (nth_error_set_status_at _ i _ _ Pi).
    rewrite Nat.eqb_refl.
    replace (Z.to_nat (i + 1) =? Z.to_nat i)%nat with false
      by (symmetry; apply Nat.eqb_neq; lia).
    now rewrite Hq.
  - intros j J1 J2.
    rewrite (nth_error_set_status_at _ (i + 1) _ _ Pi').
    rewrite (nth_error_set_status_at _ i _ _ Pi).
    replace (j =? Z.to_nat (i + 1))%nat with false
      by (symmetry; now apply Nat.eqb_neq).
    now replace (j =? Z.to_nat i)%nat with false
      by (symmetry; now apply Nat.eqb_neq).
Qed.

Lemma prompt_complete_starts_next_prompt_witness :
  commits
    (event_handler
       (demo_world "/app" (state_text (demo_prompt_state 0 2))
          "<promise>PROMPT_COMPLETE</promise>")
       "/app" "session.idle")
  = ["MVP Builder: Completed prompt_01.md"] /\
  persisted
    (fs_after
       (event_handler
          (demo_world "/app" (state_text (demo_prompt_state 0 2))
             "<promise>PROMPT_COMPLETE</promise>")
          "/app" "session.idle"))
    "/app"
    (mkState true "executing" (Int 1) (Int 2)
       [mkPromptInfo "prompt_01.md" "Project setup" completed;
        mkPromptInfo "prompt_02.md" "Seed data" in_progress]
       "2026-01-01T00:00:00.000Z" (Some "abc1234") "instructions" []
       (Int 100) (Int 6)).
Proof.
  split; [|vm_compute; reflexivity].
  apply (prompt_complete_starts_next_prompt
           (demo_world "/app" (state_text (demo_prompt_state 0 2))
              "<promise>PROMPT_COMPLETE</promise>")
           "/app" (demo_prompt_state 0 2) 0 2
           (mkPromptInfo "prompt_01.md" "Project setup" in_progress)
           (mkPromptInfo "prompt_02.md" "Seed data" pending)).
  - split; [vm_compute; reflexivity | reflexivity].
  - reflexivity.
  - reflexivity.
  - reflexivity.
  - reflexivity.
  - lia.
  - reflexivity.
  - lia.
  - reflexivity.
  - reflexivity.
Defined.

Lemma nth_error_set_status_at_any (l : list PromptInfo) (i : Z)
  (s : PromptStatus) (j : nat) :
  nth_error (set_status_at l (Int i) s) j =
  if (0 <=? i)%Z && (j =? Z.to_nat i)%nat
  then option_map (set_status s) (nth_error l j)
  else nth_error l j.
Proof.
  destruct (Z.leb_spec 0 i) as [P|P]; cbn [andb].
  - now apply nth_error_set_status_at.
  - unfold set_status_at.
    now replace (i <? 0)%Z with true by (symmetry; apply Z.ltb_lt; lia).
Qed.

Lemma set_status_at_missing (l : list PromptInfo) (i : num) (s : PromptStatus) :
  nth_num l i = None -> set_status_at l i s = l.
Proof.
  unfold nth_num, set_status_at. destruct i as [z|]; [|reflexivity].
  destruct (z <? 0)%Z; [reflexivity|].
  generalize (Z.to_nat z). intros n. revert n.
  induction l as [|x l IH]; intros n H; [destruct n; reflexivity|].
  destruct n as [|n]; [discriminate|]. cbn in *. now rewrite IH.
Qed.

(** X8. In phase [executing], a detected signal at the last prompt (the
    index plus one is not below the prompt count) marks the current entry
    completed when there is one, keeps the index, and moves to
    [qa_integration] with the commit message for the end of execution. *)
Theorem last_prompt_complete_starts_qa (w : World) (d : string)
  (st : MVPBuilderState) (i n : Z) :
  triggered_on w d st ->
  num_geb (currentIteration st) (maxIterations st) = false ->
  phase st = "executing" ->
  signal_detected w st = true ->
  currentPromptIndex st = Int i ->
  totalPrompts st = Int n -> (n <= i + 1)%Z ->
  commits (event_handler w d "session.idle")
    = ["MVP Builder: All execution prompts completed"] /\
  exists st',
    persisted (fs_after (event_handler w d "session.idle")) d st' /\
    phase st' = "qa_integration" /\
    currentPromptIndex st' = Int i /\
    totalPrompts st' = Int n /\
    currentIteration st' = num_succ (currentIteration st) /\
    lastCommit st' =
      commit_recorded (lastCommit st)
        (gitCommit w d "MVP Builder: All execution prompts completed") /\
    (forall j,
       nth_error (promptSequence st') j =
       if (0 <=? i)%Z && (j =? Z.to_nat i)%nat
       then option_map (set_status completed) (nth_error (promptSequence st) j)
       else nth_error (promptSequence st) j).
Proof.
  intros T C E S Hi Hn Ln.
  rewrite (event_handler_triggered _ _ _ T), C.
  destruct (executing_signal w st E S) as (t & L & H).
  rewrite (check_response_on_response w d st t L).
  rewrite (executing_switch w d st t E H). cbv zeta.
  rewrite Hi.
  assert (X : forall s0 msg,
            totalPrompts s0 = Int n ->
            promptSequence s0 =
              set_status_at (promptSequence st) (Int i) completed ->
            currentPromptIndex s0 = Int i ->
            currentIteration s0 = currentIteration st ->
            lastCommit s0 = lastCommit st ->
            let r :=
              (let c :=
                 if num_ltb (num_succ (Int i)) (totalPrompts s0) then
                   let state := with_index s0 (num_succ (Int i)) in
                   match nth_num (promptSequence state) (num_succ (Int i)) with
                   | Some _ =>
                       advance
                         (with_sequence state
                            (set_status_at (promptSequence state)
                               (num_succ (Int i)) in_progress))
                         "executing" msg
                   | None => thrown_after w state msg
                   end
                 else
                   advance s0 "qa_integration"
                     "MVP Builder: All execution prompts completed" in
               if c_finished c then finish_run w d else continue_run w d c) in
            commits r = ["MVP Builder: All execution prompts completed"] /\
            exists st',
              persisted (fs_after r) d st' /\
              phase st' = "qa_integration" /\
              currentPromptIndex st' = Int i /\
              totalPrompts st' = Int n /\
              currentIteration st' = num_succ (currentIteration st) /\
              lastCommit st' =
                commit_recorded (lastCommit st)
                  (gitCommit w d "MVP Builder: All execution prompts completed") /\
              (forall j,
                 nth_error (promptSequence st') j =
                 if (0 <=? i)%Z && (j =? Z.to_nat i)%nat
                 then option_map (set_status completed)
                        (nth_error (promptSequence st) j)
                 else nth_error (promptSequence st) j)).
  { intros s0 msg Ht Hs Hx Hit Hlc. cbv zeta.
    rewrite Ht. cbn [num_succ num_ltb].
    replace (i + 1 <? n)%Z with false by (symmetry; apply Z.ltb_ge; lia).
    cbn [c_finished advance].
    rewrite continue_run_commits, continue_run_fs.
    destruct (saved_state_advance w d s0 "qa_integration"
                "MVP Builder: All execution prompts completed" eq_refl)
      as [-> ->].
    split; [reflexivity|].
    eexists. split; [apply writeState_persisted|].
    cbn [phase currentPromptIndex totalPrompts currentIteration lastCommit
         promptSequence next_iteration with_iteration with_phase
         with_lastCommit].
    rewrite Hx, Ht, Hit, Hlc, Hs. repeat (split; [reflexivity|]).
    intros j. apply nth_error_set_status_at_any. }
  destruct (nth_num (promptSequence st) (Int i)) as [p|] eqn:N.
  - apply X; try reflexivity; assumption.
  - apply X; try reflexivity; try assumption.
    now rewrite (set_status_at_missing _ _ _ N).
Qed.

Lemma last_prompt_complete_starts_qa_witness :
  commits
    (event_handler
       (demo_world "/app" (state_text (demo_prompt_state 1 2))
          "<promise>PROMPT_COMPLETE</promise>")
       "/app" "session.idle")
  = ["MVP Builder: All execution prompts completed"] /\
  persisted
    (fs_after
       (event_handler
          (demo_world "/app" (state_text (demo_prompt_state 1 2))
             "<promise>PROMPT_COMPLETE</promise>")
          "/app" "session.idle"))
    "/app"
    (mkState true "qa_integration" (Int 1) (Int 2)
       [mkPromptInfo "prompt_01.md" "Project setup" in_progress;
        mkPromptInfo "prompt_02.md" "Seed data" completed]
       "2026-01-01T00:00:00.000Z" (Some "abc1234") "instructions" []
       (Int 100) (Int 6)).
Proof.
  split; [|vm_compute; reflexivity].
  apply (last_prompt_complete_starts_qa
           (demo_world "/app" (state_text (demo_prompt_state 1 2))
              "<promise>PROMPT_COMPLETE</promise>")
           "/app" (demo_prompt_state 1 2) 1 2).
  - split; [vm_compute; reflexivity | reflexivity].
  - reflexivity.
  - reflexivity.
  - reflexivity.
  - reflexivity.
  - reflexivity.
  - lia.
Defined.

(** X9. When the prompt count announces a next prompt that the sequence
    does not hold, the assignment to the missing entry raises inside the
    guarded block: a warning is logged, nothing is committed, the phase
    stays [executing], the index has already moved past the entries, and
    the instruction sent is the error text of [buildPhase2Prompt]. *)
Theorem prompt_count_beyond_entries (w : World) (d : string)
  (st : MVPBuilderState) (i n : Z) :
  triggered_on w d st ->
  num_geb (currentIteration st) (maxIterations st) = false ->
  phase st = "executing" ->
  signal_detected w st = true ->
  currentPromptIndex st = Int i -> (0 <= i)%Z ->
  totalPrompts st = Int n -> (i + 1 < n)%Z ->
  nth_error (promptSequence st) (Z.to_nat (i + 1)) = None ->
  commits (event_handler w d "session.idle") = [] /\
  In (mkLog "warn" ("Could not check session: " ++ error_text w))
    (logs (event_handler w d "session.idle")) /\
  exists st',
    persisted (fs_after (event_handler w d "session.idle")) d st' /\
    phase st' = "executing" /\
    currentPromptIndex st' = Int (i + 1) /\
    totalPrompts st' = Int n /\
    currentIteration st' = num_succ (currentIteration st) /\
    lastCommit st' = lastCommit st /\
    sent (event_handler w d "session.idle")
      = [send_text (statusMsg st') "ERROR: No more prompts to execute."].
Proof.
  intros T C E S Hi Pi Hn Ln Hq.
  rewrite (event_handler_triggered _ _ _ T), C.
  destruct (executing_signal w st E S) as (t & L & H).
  rewrite (check_response_on_response w d st t L).
  rewrite (executing_switch w d st t E H). cbv zeta.
  rewrite Hi.
  assert (Pi' : (0 <= i + 1)%Z) by lia.
  assert (X : forall s0 msg,
            totalPrompts s0 = Int n ->
            promptSequence s0 =
              set_status_at (promptSequence st) (Int i) completed ->
            phase s0 = "executing" ->
            currentIteration s0 = currentIteration st ->
            lastCommit s0 = lastCommit st ->
            let r :=
              (let c :=
                 if num_ltb (num_succ (Int i)) (totalPrompts s0) then
                   let state := with_index s0 (num_succ (Int i)) in
                   match nth_num (promptSequence state) (num_succ (Int i)) with
                   | Some _ =>
                       advance
                         (with_sequence state
                            (set_status_at (promptSequence state)
                               (num_succ (Int i)) in_progress))
                         "executing" msg
                   | None => thrown_after w state msg
                   end
                 else
                   advance s0 "qa_integration"
                     "MVP Builder: All execution prompts completed" in
               if c_finished c then finish_run w d else continue_run w d c) in
            commits r = [] /\
            In (mkLog "warn" ("Could not check session: " ++ error_text w))
              (logs r) /\
            exists st',
              persisted (fs_after r) d st' /\
              phase st' = "executing" /\
              currentPromptIndex st' = Int (i + 1) /\
              totalPrompts st' = Int n /\
              currentIteration st' = num_succ (currentIteration st) /\
              lastCommit st' = lastCommit st /\
              sent r = [send_text (statusMsg st')
                          "ERROR: No more prompts to execute."]).
  { intros s0 msg Ht Hs Hph Hit Hlc. cbv zeta.
    rewrite Ht. cbn [num_succ num_ltb].
    replace (i + 1 <? n)%Z with true by (symmetry; apply Z.ltb_lt; lia).
    cbn [promptSequence with_index].
    rewrite (nth_num_Int _ (i + 1) Pi'), Hs.
    rewrite (nth_error_set_status_at _ i _ _ Pi).
    replace (Z.to_nat (i + 1) =? Z.to_nat i)%nat with false
      by (symmetry; apply Nat.eqb_neq; lia).
    rewrite Hq. cbn [c_finished thrown_after].
    rewrite continue_run_commits, continue_run_sent, continue_run_fs.
    unfold saved_state, commit_step.
    cbn [c_shouldAdvance c_state thrown_after andb snd].
    split; [reflexivity|]. split.
    { unfold continue_run, commit_step.
      cbn [c_shouldAdvance c_state c_logs thrown_after andb].
      destruct (phase_prompt _ _ _); cbn [logs]; left; reflexivity. }
    eexists. split; [apply writeState_persisted|].
    cbn [phase currentPromptIndex totalPrompts currentIteration lastCommit
         with_iteration with_index].
    rewrite Hph, Ht, Hit, Hlc. repeat (split; [reflexivity|]).
    unfold phase_prompt.
    cbn [phase with_iteration with_index]. rewrite Hph.
    cbn [String.eqb Ascii.eqb Bool.eqb].
    unfold buildPhase2Prompt.
    cbn [promptSequence currentPromptIndex with_iteration with_index].
    rewrite (nth_num_Int _ (i + 1) Pi'), Hs.
    rewrite (nth_error_set_status_at _ i _ _ Pi).
    replace (Z.to_nat (i + 1) =? Z.to_nat i)%nat with false
      by (symmetry; apply Nat.eqb_neq; lia).
    rewrite Hq. reflexivity. }
  destruct (nth_num (promptSequence st) (Int i)) as [p|] eqn:N.
  - apply X; try reflexivity; assumption.
  - apply X; try reflexivity; try assumption.
    now rewrite (set_status_at_missing _ _ _ N).
Qed.

Lemma prompt_count_beyond_entries_witness :
  commits
    (event_handler
       (demo_world "/app" (state_text (demo_prompt_state 1 4))
          "<promise>PROMPT_COMPLETE</promise>")
       "/app" "session.idle") = [] /\
  sent
    (event_handler
       (demo_world "/app" (state_text (demo_prompt_state 1 4))
          "<promise>PROMPT_COMPLETE</promise>")
       "/app" "session.idle")
  = ["[MVP Builder | Iteration 6/100 | Phase: executing | Prompt 3/4]

ERROR: No more prompts to execute."].
Proof.
  assert (T : triggered_on
                (demo_world "/app" (state_text (demo_prompt_state 1 4))
                   "<promise>PROMPT_COMPLETE</promise>")
                "/app" (demo_prompt_state 1 4))
    by (split; [vm_compute; reflexivity | reflexivity]).
  assert (L1 : (0 <= 1)%Z) by lia.
  assert (L2 : (1 + 1 < 4)%Z) by lia.
  destruct (prompt_count_beyond_entries _ "/app" (demo_prompt_state 1 4) 1 4
              T eq_refl eq_refl eq_refl eq_refl L1 eq_refl L2 eq_refl)
    as (C & _ & _).
  split; [exact C | vm_compute; reflexivity].
Defined.

(** ** A limit that is not a number *)

(** X10. A limit or a counter that [parseInt] could not read ([NaN])
    disables the safety stop: the trigger either completes the workflow
    (phase [complete] with its marker) or saves an active record in which
    the unreadable value is unreadable still. *)
Theorem unreadable_limit_disables_cap (w : World) (d : string)
  (st : MVPBuilderState) :
  triggered_on w d st ->
  maxIterations st = NaN \/ currentIteration st = NaN ->
  (phase st = "complete" /\ signal_detected w st = true /\
   event_handler w d "session.idle" = finish_run w d) \/
  exists st',
    persisted (fs_after (event_handler w d "session.idle")) d st' /\
    active st' = true /\
    (maxIterations st' = NaN \/ currentIteration st' = NaN).
Proof.
  intros T N. rewrite (event_handler_triggered _ _ _ T).
  assert (C : num_geb (currentIteration st) (maxIterations st) = false).
  { destruct N as [-> | ->]; [destruct (currentIteration st)|]; reflexivity. }
  rewrite C.
  destruct (c_finished (check_response w d st)) eqn:F.
  - left. apply check_response_finished in F.
    destruct F as (P & t & L & H). split; [exact P|]. split; [|reflexivity].
    unfold signal_detected. now rewrite L, P.
  - right. exists (saved_state w d (check_response w d st)).
    rewrite continue_run_fs. split; [apply writeState_persisted|].
    destruct (saved_state_counts w d (check_response w d st)) as (-> & -> & ->).
    destruct (check_response_preserves w d st) as (-> & _ & -> & ->).
    split; [exact (proj2 T)|].
    destruct N as [-> | ->]; auto.
Qed.

Lemma unreadable_limit_disables_cap_witness :
  parseInt "NaN" = NaN /\
  persisted
    (fs_after
       (event_handler
          (demo_world "/app" (state_text demo_unlimited_state) "Working.")
          "/app" "session.idle"))
    "/app"
    (mkState true "qa_integration" (Int 0) (Int 0) []
       "2026-01-01T00:00:00.000Z" (Some "abc1234") "instructions" []
       NaN (Int 501)) /\
  ((phase demo_unlimited_state = "complete" /\
    signal_detected
      (demo_world "/app" (state_text demo_unlimited_state) "Working.")
      demo_unlimited_state = true /\
    event_handler
      (demo_world "/app" (state_text demo_unlimited_state) "Working.")
      "/app" "session.idle"
    = finish_run
        (demo_world "/app" (state_text demo_unlimited_state) "Working.")
        "/app") \/
   exists st',
     persisted
       (fs_after
          (event_handler
             (demo_world "/app" (state_text demo_unlimited_state) "Working.")
             "/app" "session.idle")) "/app" st' /\
     active st' = true /\
     (maxIterations st' = NaN \/ currentIteration st' = NaN)).
Proof.
  split; [reflexivity|]. split; [vm_compute; reflexivity|].
  apply (unreadable_limit_disables_cap
           (demo_world "/app" (state_text demo_unlimited_state) "Working.")
           "/app" demo_unlimited_state).
  - split; [vm_compute; reflexivity | reflexivity].
  - left. reflexivity.
Defined.

(** ** The response that is examined *)

Lemma find_app_none {A} (f : A -> bool) (l1 l2 : list A) :
  find f l1 = None -> find f (l1 ++ l2) = find f l2.
Proof.
  induction l1 as [|x l1 IH]; [reflexivity|]. cbn.
  destruct (f x); [discriminate|exact IH].
Qed.

Lemma find_none_Forall {A} (f : A -> bool) (l : list A) :
  Forall (fun x => f x = false) l -> find f l = None.
Proof.
  induction 1 as [|x l H _ IH]; [reflexivity|]. cbn. now rewrite H.
Qed.

Lemma lastAssistantMsg_latest (before after : list Message) (m : Message) :
  role m = "assistant" ->
  Forall (fun x => role x <> "assistant") after ->
  lastAssistantMsg (before ++ m :: after) = Some m.
Proof.
  intros R F. unfold lastAssistantMsg.
  rewrite rev_app_distr. cbn [List.rev]. rewrite <- List.app_assoc.
  rewrite find_app_none.
  - cbn. now rewrite R.
  - apply find_none_Forall. apply Forall_rev.
    eapply Forall_impl; [|exact F]. intros x H.
    now apply String.eqb_neq.
Qed.

Lemma lastAssistantMsg_none (ms : list Message) :
  Forall (fun x => role x <> "assistant") ms -> lastAssistantMsg ms = None.
Proof.
  intros F. unfold lastAssistantMsg. apply find_none_Forall, Forall_rev.
  eapply Forall_impl; [|exact F]. intros x H. now apply String.eqb_neq.
Qed.

(** X11. Completion detection reads the text of the latest assistant
    message only: messages after it that are not from the assistant are
    skipped, earlier assistant messages are ignored, a session without
    assistant message gives no signal, and parts that are not text
    contribute nothing. *)
Theorem detection_reads_latest_assistant_message (w : World) (d : string)
  (st : MVPBuilderState) (ms : list Message) :
  session w = Return (Some ms) ->
  (forall before m after,
     ms = (before ++ m :: after)%list ->
     role m = "assistant" ->
     Forall (fun x => role x <> "assistant") after ->
     check_response w d st = phase_switch w d st (textContent m)) /\
  (Forall (fun x => role x <> "assistant") ms ->
   check_response w d st = unchanged st) /\
  (forall r, textContent (mkMessage r None) = "") /\
  (forall r ps p,
     ptype p <> "text" ->
     textContent (mkMessage r (Some (p :: ps)))
     = textContent (mkMessage r (Some ps))).
Proof.
  intros S. unfold check_response. rewrite S.
  split; [|split; [|split]].
  - intros before m after -> R F.
    now rewrite (lastAssistantMsg_latest before after m R F).
  - intros F. now rewrite (lastAssistantMsg_none ms F).
  - reflexivity.
  - intros r ps p N. unfold textContent. cbn [parts filter].
    apply String.eqb_neq in N. now rewrite N.
Qed.

Lemma detection_reads_latest_assistant_message_witness :
  check_response demo_conversation_world "/app"
    (demo_state "qa_completeness" 4 100)
  = unchanged (demo_state "qa_completeness" 4 100).
Proof.
  rewrite (proj1 (detection_reads_latest_assistant_message
                    demo_conversation_world "/app"
                    (demo_state "qa_completeness" 4 100)
                    demo_conversation eq_refl)
             [mkMessage "assistant"
                (Some [mkPart "text" "<promise>MVP_READY</promise>"])]
             (mkMessage "assistant"
                (Some [mkPart "tool" "<promise>MVP_READY</promise>";
                       mkPart "text" "Two features are missing."]))
             [mkMessage "user" (Some [mkPart "text" "continue"])]
             eq_refl eq_refl).
  - reflexivity.
  - repeat constructor. discriminate.
Defined.

(** ** The marker an instruction asks for *)

Lemma ends_with_app (suffix a b : string) :
  ends_with suffix b = true -> ends_with suffix (a ++ b) = true.
Proof.
  intros H. induction a as [|c a IH]; [exact H|].
  cbn [append ends_with]. rewrite IH. apply orb_true_r.
Qed.

Lemma ends_with_sound (suffix s : string) :
  ends_with suffix s = true -> exists pre, s = pre ++ suffix.
Proof.
  induction s as [|c s IH]; cbn [ends_with].
  - rewrite orb_false_r. intros H. apply String.eqb_eq in H. subst.
    now exists "".
  - intros H. apply orb_true_iff in H. destruct H as [H|H].
    + apply String.eqb_eq in H. rewrite H. now exists "".
    + destruct (IH H) as [pre ->]. now exists (String c pre).
Qed.

Lemma Return_inj {A} (a b : A) : Return a = Return b -> a = b.
Proof. congruence. Qed.

Ltac to_last_chunk :=
  repeat match goal with
         | |- ends_with _ (_ ++ _) = true => apply ends_with_app
         end.

(** X12. Every instruction the handler renders ends by asking for the
    marker the handler looks for in that phase: the text of each of the
    seven phases ends with the delimited expected marker (in [executing],
    unless the text is the error for a missing prompt). *)
Theorem instruction_ends_with_expected_marker (w : World) (d : string)
  (st : MVPBuilderState) (m text : string) :
  expected_marker (phase st) = Some m ->
  phase_prompt w st d = Return text ->
  text <> "ERROR: No more prompts to execute." ->
  ends_with (OPEN_TAG ++ m ++ CLOSE_TAG) text = true.
Proof.
  unfold expected_marker, phase_prompt.
  repeat match goal with
         | |- context [phase st =? ?x] => destruct (phase st =? x)
         end; intros [= <-]; try discriminate.
  - unfold buildPhase1APrompt.
    destruct (loadFileContent w _); [|discriminate].
    destruct (loadReferenceDocs w d _); [|discriminate].
    intros H _; apply Return_inj in H; subst text. to_last_chunk. vm_compute. reflexivity.
  - unfold buildPhase1BPrompt.
    destruct (loadFileContent w _); [|discriminate].
    destruct (loadFileContent w _); [|discriminate].
    destruct (loadReferenceDocs w d _); [|discriminate].
    intros H _; apply Return_inj in H; subst text. to_last_chunk. vm_compute. reflexivity.
  - unfold buildPhase2Prompt.
    destruct (nth_num _ _) as [p|]; [|intros [= <-] N; now contradiction N].
    destruct (loadFileContent w _); [|discriminate].
    destruct (loadFileContent w _); [|discriminate].
    destruct (loadReferenceDocs w d _); [|discriminate].
    intros H _; apply Return_inj in H; subst text. to_last_chunk. vm_compute. reflexivity.
  - unfold buildPhase3APrompt.
    destruct (loadFileContent w _); [|discriminate].
    destruct (loadReferenceDocs w d _); [|discriminate].
    intros H _; apply Return_inj in H; subst text. to_last_chunk. vm_compute. reflexivity.
  - unfold buildPhase3BPrompt.
    destruct (loadFileContent w _); [|discriminate].
    destruct (loadReferenceDocs w d _); [|discriminate].
    intros H _; apply Return_inj in H; subst text. to_last_chunk. vm_compute. reflexivity.
  - unfold buildPhase4Prompt.
    destruct (loadFileContent w _); [|discriminate].
    destruct (loadReferenceDocs w d _); [|discriminate].
    intros H _; apply Return_inj in H; subst text. to_last_chunk. vm_compute. reflexivity.
  - intros H _; apply Return_inj in H; subst text.
    unfold buildCompletePrompt. to_last_chunk.
    vm_compute. reflexivity.
Qed.

Lemma instruction_ends_with_expected_marker_witness :
  exists text,
    phase_prompt (demo_world "/app" "" "") (demo_state "qa_integration" 3 100)
      "/app" = Return text /\
    ends_with "<promise>INTEGRATION_CHECK_COMPLETE</promise>" text = true.
Proof.
  destruct (phase_prompt (demo_world "/app" "" "")
              (demo_state "qa_integration" 3 100) "/app") as [text|] eqn:E;
    [|vm_compute in E; discriminate].
  exists text. split; [reflexivity|].
  apply (instruction_ends_with_expected_marker (demo_world "/app" "" "")
           "/app" (demo_state "qa_integration" 3 100)
           "INTEGRATION_CHECK_COMPLETE" text eq_refl E).
  intros ->. vm_compute in E. discriminate.
Defined.

(** ** Keys missing from the state file *)

Lemma find_line_start_occurs (b : bool) (pat s r : string) :
  find_line_start b pat s = Some r -> exists pre, s = pre ++ pat ++ r.
Proof.
  revert b; induction s as [|c s IH]; intros b; cbn [find_line_start].
  - destruct b; [|discriminate].
    destruct (strip_prefix pat "") as [x|] eqn:E; [|discriminate].
    intros [= <-]. apply strip_prefix_Some in E. now exists "".
  - destruct (if b then strip_prefix pat (String c s) else None) as [x|] eqn:E.
    + intros [= <-]. destruct b; [|discriminate].
      apply strip_prefix_Some in E. now exists "".
    + intros H. destruct (IH _ H) as [pre ->]. now exists (String c pre).
Qed.

Lemma occurs_inside (pat a s b : string) :
  occurs pat (a ++ s ++ b) = false -> occurs pat s = false.
Proof.
  unfold occurs. intros H.
  destruct (split_at_first pat s) as [[x y]|] eqn:E; [|reflexivity].
  apply split_at_first_occurs in E. destruct E as [-> _].
  destruct (split_at_first_found pat (a ++ (x ++ pat ++ y) ++ b) (a ++ x) (y ++ b))
    as (u & v & F).
  { now rewrite !append_assoc. }
  now rewrite F in H.
Qed.

Lemma getValue_absent (fm key : string) :
  occurs (key ++ ":") fm = false -> getValue fm key = None.
Proof.
  unfold occurs, getValue. intros H.
  destruct (find_line_start true (key ++ ":") fm) as [r|] eqn:E; [|reflexivity].
  destruct (find_line_start_occurs _ _ _ _ E) as [pre ->].
  destruct (split_at_first_found (key ++ ":") _ pre r eq_refl) as (u & v & F).
  now rewrite F in H.
Qed.

Lemma parseState_inv (w : World) (d content : string) (st : MVPBuilderState) :
  fs w (path_join d STATE_FILE) = Some (File content) ->
  parseState w d = Return (Some st) ->
  exists fm body a b,
    content = a ++ fm ++ b /\ st = state_of_match w fm body.
Proof.
  intros F. unfold parseState, existsSync, readFileSync. rewrite F.
  cbn [negb bind].
  destruct (match_frontmatter content) as [[fm body]|] eqn:M; [|discriminate].
  cbn [catch]. intros [= <-].
  assert (H : has_frontmatter content) by (apply match_frontmatter_iff; eauto).
  unfold match_frontmatter in M.
  destruct (strip_prefix "---" content) as [t|] eqn:E; [|discriminate].
  destruct (strip_prefix nl (skip_cr t)) as [r|] eqn:G; [|discriminate].
  apply strip_prefix_Some in E. subst content.
  destruct (skip_cr_eol _ _ G) as (e1 & H1 & ->).
  destruct (lazy_until_fence_sound _ _ _ M) as (e2 & e3 & H2 & H3 & ->).
  exists fm, body, ("---" ++ e1), (e2 ++ "---" ++ e3 ++ body).
  split; [|reflexivity]. now rewrite !append_assoc.
Qed.

(** X15. A key missing from the state file takes its default: when the
    text of the key followed by a colon occurs nowhere in the file, the
    field is [false] for [active], [generating_plan] for the phase, 0 for
    the index and the count, the current time for the start date, [null]
    for the last commit, [instructions] for the path, the empty list for
    the reference documents, 100 for the limit and 1 for the counter. *)
Theorem missing_keys_take_defaults (w : World) (d content : string)
  (st : MVPBuilderState) :
  fs w (path_join d STATE_FILE) = Some (File content) ->
  parseState w d = Return (Some st) ->
  (occurs "active:" content = false -> active st = false) /\
  (occurs "phase:" content = false -> phase st = "generating_plan") /\
  (occurs "current_prompt_index:" content = false ->
   currentPromptIndex st = Int 0) /\
  (occurs "total_prompts:" content = false -> totalPrompts st = Int 0) /\
  (occurs "started_at:" content = false -> startedAt st = now_iso w) /\
  (occurs "last_commit:" content = false -> lastCommit st = None) /\
  (occurs "instructions_path:" content = false ->
   instructionsPath st = "instructions") /\
  (occurs "reference_docs:" content = false -> referenceDocs st = []) /\
  (occurs "max_iterations:" content = false -> maxIterations st = Int 100) /\
  (occurs "current_iteration:" content = false -> currentIteration st = Int 1).
Proof.
  intros F P. destruct (parseState_inv w d content st F P)
    as (fm & body & a & b & -> & ->).
  assert (G : forall key, occurs (key ++ ":") (a ++ fm ++ b) = false ->
                          getValue fm key = None).
  { intros key H. apply getValue_absent. now apply occurs_inside in H. }
  unfold state_of_match, getArrayValue.
  cbn [active phase currentPromptIndex totalPrompts startedAt lastCommit
       instructionsPath referenceDocs maxIterations currentIteration].
  repeat split; intros H;
    match type of H with
    | occurs (String ?c ?k) _ = false =>
        match goal with
        | |- context [getValue fm ?key] => rewrite (G key H)
        end
    end; reflexivity.
Qed.

Lemma missing_keys_take_defaults_witness :
  parseState (world_with_state_text "/app" demo_sparse_state_text) "/app"
  = Return (Some (mkState true "qa_integration" (Int 0) (Int 0) [] "" None
                    "instructions" [] (Int 100) (Int 1))) /\
  maxIterations
    (mkState true "qa_integration" (Int 0) (Int 0) [] "" None
       "instructions" [] (Int 100) (Int 1)) = Int 100.
Proof.
  assert (P : parseState (world_with_state_text "/app" demo_sparse_state_text)
                "/app"
              = Return (Some (mkState true "qa_integration" (Int 0) (Int 0) []
                                "" None "instructions" [] (Int 100) (Int 1))))
    by (vm_compute; reflexivity).
  split; [exact P|].
  refine (proj1 (proj2 (proj2 (proj2 (proj2 (proj2 (proj2 (proj2 (proj2
    (missing_keys_take_defaults
       (world_with_state_text "/app" demo_sparse_state_text) "/app"
       demo_sparse_state_text _ eq_refl P))))))))) _).
  reflexivity.
Defined.

(** ** Reference documents given as a comma-separated list *)

Lemma split_comma_from_app (cur x s : string) :
  comma_free x = true ->
  split_comma_from cur (x ++ s) = split_comma_from (cur ++ x) s.
Proof.
  unfold comma_free. revert cur; induction x as [|c x IH]; intros cur.
  - now rewrite append_nil_r.
  - cbn [string_forall]. intros H. apply andb_true_iff in H.
    destruct H as [H1 H2]. apply negb_true_iff in H1.
    cbn [append split_comma_from]. rewrite H1, (IH _ H2).
    now rewrite append_assoc.
Qed.

Lemma split_comma_join (items : list string) :
  items <> [] ->
  Forall (fun x => comma_free x = true) items ->
  split_comma (join "," items) = items.
Proof.
  intros N F. unfold split_comma.
  induction F as [|x l Hx F IH]; [congruence|].
  destruct l as [|y l].
  - cbn [join String.concat]. rewrite <- (append_nil_r x) at 1.
    now rewrite (split_comma_from_app "" x "" Hx).
  - rewrite join_cons, (split_comma_from_app "" x _ Hx).
    cbn [append split_comma_from]. change ("," =? ",")%char with true.
    cbv iota. now rewrite IH by discriminate.
Qed.

Lemma JSON_parse_not_json (s : string) :
  not_json_start s = true -> JSON_parse s = Throw.
Proof.
  destruct s as [|c s]; [discriminate|]. unfold not_json_start, JSON_parse.
  intros H. apply negb_true_iff in H.
  apply orb_false_iff in H. destruct H as [H H3].
  apply orb_false_iff in H. destruct H as [H1 H2].
  cbn [existsb] in H3. apply orb_false_iff in H3. destruct H3 as [H3 _].
  cbn [json_scan].
  assert (W : is_json_ws c = false).
  { clear - H1. destruct c as [[] [] [] [] [] [] [] []]; cbn in *;
      try discriminate H1; reflexivity. }
  now rewrite W, H3.
Qed.

(** X16. A [reference_docs] value that is not JSON is read as a
    comma-separated list: when the value is items joined by commas and its
    first character cannot start a JSON text, the result is the items
    trimmed, without the empty ones. *)
Theorem comma_separated_reference_docs (fm : string) (items : list string) :
  getValue fm "reference_docs" = Some (join "," items) ->
  Forall (fun x => comma_free x = true) items ->
  not_json_start (join "," items) = true ->
  getArrayValue fm "reference_docs" = filter nonempty (map trim items).
Proof.
  intros G F N. unfold getArrayValue. rewrite G.
  destruct (join "," items) as [|c s] eqn:E; [discriminate|].
  cbn [nonempty negb orb].
  assert (B : (String c s =? "[]") = false).
  { destruct (String.eqb_spec (String c s) "[]") as [X|]; [|reflexivity].
    rewrite X in N. discriminate. }
  rewrite B, (JSON_parse_not_json _ N), <- E.
  rewrite split_comma_join; [reflexivity| |exact F].
  intros ->. discriminate.
Qed.

Lemma comma_separated_reference_docs_witness :
  getArrayValue "active: true
reference_docs: docs/api.md, docs/style guide.md ,
max_iterations: 20" "reference_docs"
  = ["docs/api.md"; "docs/style guide.md"].
Proof.
  apply (comma_separated_reference_docs _
           ["docs/api.md"; " docs/style guide.md "; ""]); try reflexivity.
  repeat constructor.
Defined.

(** ** Discovery of the prompt files *)


Section SortByMore.
Context {A : Type} (key : A -> Z).

Lemma insert_by_perm (x : A) (l : list A) :
  Permutation (insert_by key x l) (x :: l).
Proof.
  induction l as [|y l IH]; [reflexivity|].
  cbn [insert_by]. destruct (key x <=? key y)%Z; [reflexivity|].
  rewrite IH. apply perm_swap.
Qed.

Lemma sort_by_perm (l : list A) : Permutation (sort_by key l) l.
Proof.
  induction l as [|a l IH]; [reflexivity|].
  cbn [sort_by fold_right]. fold (sort_by key l).
  rewrite insert_by_perm. now constructor.
Qed.

Lemma insert_by_sorted (x : A) (l : list A) :
  StronglySorted (fun a b => (key a <= key b)%Z) l ->
  StronglySorted (fun a b => (key a <= key b)%Z) (insert_by key x l).
Proof.
  induction 1 as [|y l S IH F]; cbn [insert_by].
  - constructor; constructor.
  - destruct (Z.leb_spec (key x) (key y)) as [L|L].
    + constructor; [now constructor|].
      constructor; [exact L|].
      eapply Forall_impl; [|exact F]. cbn. intros; lia.
    + constructor; [exact IH|].
      eapply Permutation_Forall; [symmetry; apply insert_by_perm|].
      constructor; [lia|exact F].
Qed.

Lemma sort_by_sorted (l : list A) :
  StronglySorted (fun a b => (key a <= key b)%Z) (sort_by key l).
Proof.
  induction l as [|a l IH]; [constructor|].
  cbn [sort_by fold_right]. fold (sort_by key l). now apply insert_by_sorted.
Qed.

(** Stability: the elements of any one key keep their order. *)
Lemma insert_by_stable (x : A) (l : list A) (k : Z) :
  filter (fun y => (key y =? k)%Z) (insert_by key x l)
  = filter (fun y => (key y =? k)%Z) (x :: l).
Proof.
  induction l as [|y l IH]; [reflexivity|].
  cbn [insert_by]. destruct (Z.leb_spec (key x) (key y)) as [L|L];
    [reflexivity|].
  cbn [filter] in *. rewrite IH.
  destruct (Z.eqb_spec (key x) k), (Z.eqb_spec (key y) k);
    try reflexivity. lia.
Qed.

Lemma sort_by_stable (l : list A) (k : Z) :
  filter (fun y => (key y =? k)%Z) (sort_by key l)
  = filter (fun y => (key y =? k)%Z) l.
Proof.
  induction l as [|a l IH]; [reflexivity|].
  cbn [sort_by fold_right]. fold (sort_by key l).
  rewrite insert_by_stable. cbn [filter]. now rewrite IH.
Qed.

End SortByMore.

Lemma take_line_no_terminator (s : string) :
  no_line_terminator (take_line s) = true.
Proof.
  induction s as [|c s IH]; [reflexivity|].
  cbn [take_line]. destruct (is_line_terminator c) eqn:E; [reflexivity|].
  cbn [no_line_terminator]. now rewrite E, IH.
Qed.

Lemma is_line_terminator_space (c : ascii) :
  is_line_terminator c = true -> is_space c = true.
Proof.
  unfold is_line_terminator. intros H. apply orb_true_iff in H.
  destruct H as [H|H]; apply Ascii.eqb_eq in H; subst; reflexivity.
Qed.

Lemma last_non_terminator_sound (s : string) (d : ascii) :
  last_non_terminator s = Some d -> is_line_terminator d = false.
Proof.
  induction s as [|c s IH]; [discriminate|].
  cbn [last_non_terminator].
  destruct (last_non_terminator s) as [e|].
  - intros [= <-]. now apply IH.
  - destruct (is_line_terminator c) eqn:E; [discriminate|].
    now intros [= <-].
Qed.

Lemma skip_space_head_not_space (s : string) (c : ascii) (r : string) :
  skip_space s = String c r -> is_space c = false.
Proof.
  induction s as [|a s IH]; [discriminate|].
  cbn [skip_space]. destruct (is_space a) eqn:E; [exact IH|].
  now intros [= <- _].
Qed.

Lemma title_after_hash_single_line (s t : string) :
  title_after_hash s = Some t -> single_line t = true.
Proof.
  unfold title_after_hash, single_line.
  destruct s as [|c s']; [discriminate|].
  destruct (is_space c); [|discriminate].
  destruct (skip_space s') as [|a r] eqn:E.
  - destruct (last_non_terminator s') as [e|] eqn:L; [|discriminate].
    intros [= <-]. cbn. now rewrite (last_non_terminator_sound _ _ L).
  - intros [= <-].
    pose proof (skip_space_head_not_space _ _ _ E) as N.
    pose proof (take_line_no_terminator (String a r)) as L.
    cbn [take_line] in *.
    destruct (is_line_terminator a) eqn:T.
    + apply is_line_terminator_space in T. congruence.
    + now rewrite L.
Qed.

Lemma find_title_single_line (b : bool) (s t : string) :
  find_title b s = Some t -> single_line t = true.
Proof.
  revert b; induction s as [|c s IH]; intros b; [discriminate|].
  cbn [find_title].
  destruct (if b && (c =? "#")%char then title_after_hash s else None) as [u|] eqn:E.
  - intros [= <-]. destruct (b && (c =? "#")%char); [|discriminate].
    now apply title_after_hash_single_line in E.
  - apply IH.
Qed.

Lemma take_single_line (n : nat) (s : string) :
  single_line s = true -> single_line (take (S n) s) = true.
Proof.
  unfold single_line. intros H. apply andb_true_iff in H. destruct H as [H N].
  destruct s as [|c s]; [discriminate|]. cbn [take nonempty].
  rewrite andb_true_r. clear N. revert c s H.
  induction n as [|n IH]; intros c s H; cbn [no_line_terminator] in *;
    apply andb_true_iff in H; destruct H as [H1 H2]; rewrite H1; cbn [andb].
  - destruct s; reflexivity.
  - destruct s as [|c' s']; [reflexivity|]. now apply IH.
Qed.

Lemma take_length (n : nat) (s : string) : String.length (take n s) <= n.
Proof.
  revert s; induction n as [|n IH]; intros s; [destruct s; cbn; lia|].
  destruct s as [|c s]; cbn; [lia|]. specialize (IH s). lia.
Qed.

Lemma discovered_title_spec (content : string) :
  single_line (match find_title true content with
               | Some t => take 50 t
               | None => "Prompt"
               end) = true /\
  String.length (match find_title true content with
                 | Some t => take 50 t
                 | None => "Prompt"
                 end) <= 50.
Proof.
  destruct (find_title true content) as [t|] eqn:E.
  - apply find_title_single_line in E.
    split; [now apply take_single_line | apply take_length].
  - split; [reflexivity | cbn; lia].
Qed.

(** What [discoverPromptFiles] promises of an entry. *)
Lemma discover_titles_spec (w : World) (dir : string) (files : list string)
  (found : list PromptInfo) :
  discover_titles w dir files = Return found ->
  map filename found = files /\
  Forall (fun p => single_line (title p) = true /\
                   String.length (title p) <= 50 /\
                   status p = pending) found.
Proof.
  revert found; induction files as [|f files IH]; intros found.
  - intros [= <-]. split; [reflexivity|constructor].
  - cbn [discover_titles].
    destruct (loadFileContent w (path_join dir f)) as [content|]; [|discriminate].
    cbn [bind].
    destruct (discover_titles w dir files) as [infos|]; [|discriminate].
    cbn [bind]. intros [= <-].
    destruct (IH infos eq_refl) as [M F].
    split; [cbn; now rewrite M|].
    constructor; [|exact F].
    destruct (discovered_title_spec content) as [T1 T2].
    split; [exact T1|]. split; [exact T2 | reflexivity].
Qed.

Lemma discoverPromptFiles_listing (w : World) (dir : string)
  (files : list string) :
  fs w dir = Some (Dir files) ->
  discoverPromptFiles w dir =
  discover_titles w dir (sort_by prompt_number (filter is_prompt_file files)).
Proof.
  intros H. unfold discoverPromptFiles, existsSync, readdirSync.
  now rewrite H.
Qed.

Lemma first_digit_run_digits (ds rest : string) :
  string_forall is_digit ds = true -> nonempty ds = true ->
  first_digit_run (ds ++ String "." rest) = ds.
Proof.
  destruct ds as [|c ds]; [discriminate|]. intros D _.
  pose proof (take_digits_app (String c ds) rest D) as [T _].
  cbn [string_forall] in D. apply andb_true_iff in D. destruct D as [D1 D2].
  change (String c ds ++ String "." rest) with (String c (ds ++ String "." rest)) in *.
  cbn [first_digit_run]. rewrite D1. exact T.
Qed.

Lemma first_digit_run_prompt (r : string) :
  first_digit_run ("prompt_" ++ r) = first_digit_run r.
Proof. reflexivity. Qed.

Lemma prompt_number_value (z : Z) :
  (0 <= z)%Z ->
  prompt_number ("prompt_" ++ show_num (Int z) ++ ".md") = z.
Proof.
  intros P. unfold prompt_number, show_num.
  destruct (Z.to_int z) as [d|d] eqn:E.
  - cbn [NilZero.string_of_int].
    destruct (digits_of_uint_nz d) as (D & N & V & _).
    rewrite first_digit_run_prompt.
    change (NilZero.string_of_uint d ++ ".md")
      with (NilZero.string_of_uint d ++ String "." "md").
    rewrite (first_digit_run_digits _ _ D N).
    destruct (NilZero.string_of_uint d) as [|c s] eqn:S; [discriminate|].
    cbn [or_default]. rewrite V.
    assert (Z.of_int (Z.to_int z) = z) by apply DecimalZ.of_to.
    rewrite E in H. exact H.
  - exfalso. destruct z; cbn in E; try discriminate. lia.
Qed.

Lemma discoverPromptFiles_entries (w : World) (dir : string)
  (found : list PromptInfo) :
  discoverPromptFiles w dir = Return found ->
  Forall (fun p => well_formed_prompt p = true /\
                   String.length (title p) <= 50 /\
                   status p = pending) found.
Proof.
  unfold discoverPromptFiles.
  destruct (negb (existsSync w dir)); [intros [= <-]; constructor|].
  destruct (readdirSync w dir) as [files|]; [|discriminate].
  cbn [bind]. intros H. apply discover_titles_spec in H.
  destruct H as [M F].
  assert (P : Forall (fun f => is_prompt_file f = true) (map filename found)).
  { rewrite M. apply Forall_forall. intros f Hf.
    eapply Permutation_in in Hf; [|apply sort_by_perm].
    now apply filter_In in Hf. }
  clear M. induction F as [|p l (T & L & S) F IH]; [constructor|].
  cbn [map] in P. inversion P as [|? ? P1 P2]; subst.
  constructor; [|now apply IH].
  unfold well_formed_prompt. now rewrite P1, T.
Qed.



(** X18. Every entry [discoverPromptFiles] returns can be kept in the
    state file: its file name has the form [prompt_N.md], its title is a
    non-empty single line of at most 50 characters (the first heading of
    the file, or [Prompt]) and its status is [pending]. *)
Theorem discovered_prompts_well_formed (w : World) (dir : string)
  (found : list PromptInfo) :
  discoverPromptFiles w dir = Return found ->
  Forall (fun p => well_formed_prompt p = true /\
                   String.length (title p) <= 50 /\
                   status p = pending) found.
Proof. exact (discoverPromptFiles_entries w dir found). Qed.

Lemma discovered_prompts_well_formed_witness :
  Forall (fun p => well_formed_prompt p = true /\
                   String.length (title p) <= 50 /\
                   status p = pending)
    [mkPromptInfo "prompt_01.md" "Project setup" pending;
     mkPromptInfo "prompt_2.md" "Seed data" pending;
     mkPromptInfo "prompt_10.md" "Prompt" pending].
Proof.
  apply (discovered_prompts_well_formed (demo_prompts_world "" "")
           "/app/instructions").
  vm_compute. reflexivity.
Defined.

(** ** Reference documents *)

Lemma loadReferenceDocs_loop_skip (w : World) (d x : string)
  (pre post : list string) :
  existsSync w (path_join d x) = false ->
  forall content,
    loadReferenceDocs_loop w d (pre ++ x :: post) content
    = loadReferenceDocs_loop w d (pre ++ post) content.
Proof.
  intros M. induction pre as [|y pre IH]; intros content.
  - cbn [List.app loadReferenceDocs_loop]. cbv zeta. now rewrite M.
  - cbn [List.app loadReferenceDocs_loop]. cbv zeta.
    destruct (existsSync w (path_join d y)); [|apply IH].
    destruct (readFileSync w (path_join d y)); [|reflexivity].
    cbn [bind]. apply IH.
Qed.

Lemma loadReferenceDocs_loop_missing (w : World) (d : string)
  (docs : list string) (content : string) :
  Forall (fun x => existsSync w (path_join d x) = false) docs ->
  loadReferenceDocs_loop w d docs content = Return content.
Proof.
  induction 1 as [|x docs M _ IH]; [reflexivity|].
  cbn [loadReferenceDocs_loop]. cbv beta zeta in *. now rewrite M.
Qed.

Lemma loadReferenceDocs_loop_total (w : World) (d : string)
  (docs : list string) :
  Forall (fun x => forall l, fs w (path_join d x) <> Some (Dir l)) docs ->
  forall content, exists out,
    loadReferenceDocs_loop w d docs content = Return out.
Proof.
  induction 1 as [|x docs M _ IH]; intros content; [now exists content|].
  cbn [loadReferenceDocs_loop]. cbv zeta. unfold existsSync, readFileSync.
  destruct (fs w (path_join d x)) as [[c|l]|]; cbn [bind]; try apply IH.
  cbv beta in M. now contradiction (M l).
Qed.

(** X19. [loadReferenceDocs] skips a missing document: leaving it out of
    a list that names another document gives the same text.  A list of
    missing documents only gives the section header alone, which is not
    the empty text of the empty list.  The function raises only when a
    listed path is a directory. *)
Theorem missing_reference_documents_skipped (w : World) (d : string) :
  (forall pre x post,
     existsSync w (path_join d x) = false ->
     (pre ++ post)%list <> [] ->
     loadReferenceDocs w d (pre ++ x :: post)
     = loadReferenceDocs w d (pre ++ post)) /\
  (forall x docs,
     Forall (fun y => existsSync w (path_join d y) = false) (x :: docs) ->
     loadReferenceDocs w d (x :: docs) = loadReferenceDocs w d [x] /\
     loadReferenceDocs w d (x :: docs) <> loadReferenceDocs w d []) /\
  (forall docs,
     Forall (fun x => forall l, fs w (path_join d x) <> Some (Dir l)) docs ->
     exists out, loadReferenceDocs w d docs = Return out).
Proof.
  split; [|split].
  - intros pre x post M N. unfold loadReferenceDocs.
    destruct (pre ++ x :: post)%list eqn:E1; [now destruct pre|].
    destruct (pre ++ post)%list eqn:E2; [congruence|].
    rewrite <- E1, <- E2. now apply loadReferenceDocs_loop_skip.
  - intros x docs F. unfold loadReferenceDocs.
    rewrite (loadReferenceDocs_loop_missing _ _ _ _ F).
    inversion F as [|? ? Fx Fd]; subst.
    rewrite (loadReferenceDocs_loop_missing w d [x]);
      [|constructor; [exact Fx|constructor]].
    split; [reflexivity|discriminate].
  - intros docs F. unfold loadReferenceDocs.
    destruct docs as [|x docs]; [now exists ""|].
    now apply loadReferenceDocs_loop_total.
Qed.

(** ** The saved record stays readable *)

Lemma well_formed_intro (st : MVPBuilderState) (c : string) :
  single_line (phase st) = true ->
  single_line (startedAt st) = true ->
  single_line (instructionsPath st) = true ->
  lastCommit st = Some c -> single_line c = true ->
  forallb well_formed_prompt (promptSequence st) = true ->
  well_formed st = true.
Proof.
  unfold well_formed. intros -> -> -> -> -> ->. reflexivity.
Qed.

Lemma parse_prompt_sequence_statuses (body : string) :
  Forall (fun p => status p <> skipped) (parse_prompt_sequence body).
Proof.
  unfold parse_prompt_sequence.
  induction (match_all_prompts false body) as [|l ls IH]; [constructor|].
  cbn [flat_map]. destruct (match_prompt l) as [[[c f] t]|]; [|exact IH].
  constructor; [|exact IH]. cbn. unfold status_of_char.
  destruct (c =? "x")%char; [discriminate|].
  destruct (c =? "/")%char; discriminate.
Qed.

Lemma parseState_statuses (w : World) (d : string) (st : MVPBuilderState) :
  parseState w d = Return (Some st) ->
  Forall (fun p => status p <> skipped) (promptSequence st).
Proof.
  unfold parseState. destruct (negb (existsSync w _)); [discriminate|].
  destruct (readFileSync w _) as [content|]; [|discriminate].
  cbn [bind]. destruct (match_frontmatter content) as [[fm body]|];
    [|discriminate].
  cbn [catch]. intros [= <-]. apply parse_prompt_sequence_statuses.
Qed.

Lemma update_nth_Forall {A} (P : A -> Prop) (f : A -> A) (n : nat)
  (l : list A) :
  (forall x, P x -> P (f x)) -> Forall P l -> Forall P (update_nth n f l).
Proof.
  intros Hf H. revert n; induction H as [|x l Hx H IH]; intros n.
  - destruct n; constructor.
  - destruct n; cbn; constructor; auto.
Qed.

Lemma set_status_at_Forall (P : PromptInfo -> Prop) (l : list PromptInfo)
  (i : num) (s : PromptStatus) :
  (forall x, P x -> P (set_status s x)) ->
  Forall P l -> Forall P (set_status_at l i s).
Proof.
  intros Hf H. unfold set_status_at. destruct i as [z|]; [|exact H].
  destruct (z <? 0)%Z; [exact H|]. now apply update_nth_Forall.
Qed.

Lemma kept_entry_set_status (s : PromptStatus) (p : PromptInfo) :
  s <> skipped -> kept_entry p -> kept_entry (set_status s p).
Proof. intros N [W _]. split; [exact W | exact N]. Qed.

Lemma exact_record_entries (st : MVPBuilderState) :
  exact_record st <->
  single_line (phase st) = true /\
  single_line (startedAt st) = true /\
  single_line (instructionsPath st) = true /\
  (exists c, lastCommit st = Some c /\ single_line c = true) /\
  Forall kept_entry (promptSequence st).
Proof.
  unfold exact_record, kept_entry. split.
  - intros [W S]. destruct (well_formed_fields st W) as (A & B & C & D & E).
    repeat (split; [assumption|]).
    rewrite forallb_forall in E. rewrite Forall_forall in *.
    intros p Hp. split; auto.
  - intros (A & B & C & (c & D1 & D2) & E). split.
    + apply (well_formed_intro st c); auto.
      apply forallb_forall. rewrite Forall_forall in E.
      intros p Hp. now apply E.
    + eapply Forall_impl; [|exact E]. now intros p [_ ?].
Qed.

Lemma phase_switch_keeps_fields (w : World) (d : string)
  (st : MVPBuilderState) (t : string) :
  let c := phase_switch w d st t in
  phase (c_state c) = phase st /\
  startedAt (c_state c) = startedAt st /\
  lastCommit (c_state c) = lastCommit st /\
  instructionsPath (c_state c) = instructionsPath st /\
  referenceDocs (c_state c) = referenceDocs st.
Proof.
  cbv zeta. unfold phase_switch. split_ifs; cbn; auto.
Qed.

Lemma phase_switch_keeps_entries (w : World) (d : string)
  (st : MVPBuilderState) (t : string) :
  Forall kept_entry (promptSequence st) ->
  Forall kept_entry (promptSequence (c_state (phase_switch w d st t))).
Proof.
  intros H.
  assert (S : forall i s, s <> skipped ->
              Forall kept_entry (set_status_at (promptSequence st) i s)).
  { intros i s N. apply set_status_at_Forall; [|exact H].
    intros x. now apply kept_entry_set_status. }
  unfold phase_switch.
  destruct (phase st =? "generating_plan"); [split_ifs; exact H|].
  destruct (phase st =? "generating_prompts").
  { destruct (hasPromise t "PROMPTS_GENERATED"); [|exact H].
    destruct (discoverPromptFiles w _) as [found|] eqn:D; [|exact H].
    apply discoverPromptFiles_entries in D.
    assert (K : Forall kept_entry found).
    { eapply Forall_impl; [|exact D]. intros p (W & _ & P).
      split; [exact W|]. rewrite P. discriminate. }
    destruct found as [|first others]; [constructor|].
    cbn. inversion K; subst. constructor; [|assumption].
    apply kept_entry_set_status; [discriminate|assumption]. }
  destruct (phase st =? "executing").
  { destruct (hasPromise t "PROMPT_COMPLETE"); [|exact H].
    assert (C : Forall kept_entry
                  (set_status_at (promptSequence st) (currentPromptIndex st)
                     completed)) by (apply S; discriminate).
    destruct (nth_num (promptSequence st) (currentPromptIndex st)) as [p|].
    - destruct (num_ltb _ _); [|exact C].
      cbn [promptSequence with_index with_sequence].
      destruct (nth_num _ _); cbn; [|exact C].
      apply set_status_at_Forall; [|exact C].
      intros x. apply kept_entry_set_status. discriminate.
    - destruct (num_ltb _ _); [|exact H].
      cbn [promptSequence with_index with_sequence].
      destruct (nth_num _ _); cbn; [|exact H].
      apply S. discriminate. }
  split_ifs; exact H.
Qed.

Lemma phase_switch_next_single_line (w : World) (d : string)
  (st : MVPBuilderState) (t : string) :
  single_line (phase st) = true ->
  single_line (c_nextPhase (phase_switch w d st t)) = true.
Proof.
  intros H. unfold phase_switch. split_ifs; cbn; auto.
Qed.

Lemma check_response_exact (w : World) (d : string) (st : MVPBuilderState) :
  exact_record st ->
  exact_record (c_state (check_response w d st)) /\
  single_line (c_nextPhase (check_response w d st)) = true.
Proof.
  intros E. pose proof E as E0. apply exact_record_entries in E.
  destruct E as (A & B & C & D & K).
  rewrite check_response_cases.
  destruct (session w); [|split; [exact E0 | exact A]].
  destruct (last_response w) as [t|]; [|split; [exact E0 | exact A]].
  split; [|now apply phase_switch_next_single_line].
  apply exact_record_entries.
  destruct (phase_switch_keeps_fields w d st t) as (-> & -> & -> & -> & _).
  repeat (split; [assumption|]).
  now apply phase_switch_keeps_entries.
Qed.

Lemma saved_state_exact (w : World) (d : string) (c : Check) :
  (forall m h, gitCommit w d m = Some h -> no_line_terminator h = true) ->
  exact_record (c_state c) ->
  single_line (c_nextPhase c) = true ->
  exact_record (saved_state w d c).
Proof.
  intros G E N. apply exact_record_entries in E.
  destruct E as (A & B & C & D & K).
  apply exact_record_entries.
  unfold saved_state, commit_step.
  destruct (c_shouldAdvance c && nonempty (c_commitMessage c));
    [|cbn; auto].
  destruct (gitCommit w d (c_commitMessage c)) as [[|a h]|] eqn:H; cbn;
    try (now auto).
  split; [exact N|]. split; [exact B|]. split; [exact C|].
  split; [|exact K]. eexists; split; [reflexivity|].
  unfold single_line. now rewrite (G _ _ H).
Qed.

Lemma persisted_exact_triggered (w : World) (d : string)
  (st : MVPBuilderState) :
  persisted (fs w) d st -> exact_record st -> active st = true ->
  triggered_on w d st.
Proof.
  intros P [W S] A. split; [|exact A].
  rewrite (parseState_written w d st P W), (map_as_read_id _ S).
  now destruct st.
Qed.

Lemma trigger_exact (w : World) (d : string) (st : MVPBuilderState) :
  triggered_on w d st ->
  well_formed st = true ->
  one_line_hashes w d ->
  absent (fs_after (event_handler w d "session.idle")) d \/
  (num_geb (currentIteration st) (maxIterations st) = false /\
   exists st',
     persisted (fs_after (event_handler w d "session.idle")) d st' /\
     exact_record st' /\
     active st' = true /\
     currentIteration st' = num_succ (currentIteration st) /\
     maxIterations st' = maxIterations st).
Proof.
  intros T W G. rewrite (event_handler_triggered _ _ _ T).
  destruct (num_geb _ _); [left; apply deleteState_absent|].
  destruct (c_finished _); [left; apply deleteState_absent|].
  right. split; [reflexivity|].
  exists (saved_state w d (check_response w d st)).
  rewrite continue_run_fs. split; [apply writeState_persisted|].
  assert (E : exact_record st).
  { split; [exact W|]. destruct T as [T _]. now apply parseState_statuses in T. }
  destruct (check_response_exact w d st E) as [E' N].
  split; [now apply saved_state_exact|].
  destruct (saved_state_counts w d (check_response w d st)) as (-> & -> & ->).
  destruct (check_response_preserves w d st) as (-> & _ & -> & ->).
  destruct T as [_ ->]. auto.
Qed.

Lemma handler_absent (w : World) (d : string) :
  absent (fs w) d -> absent (fs_after (event_handler w d "session.idle")) d.
Proof.
  intros A. unfold event_handler. cbn [String.eqb Ascii.eqb Bool.eqb negb].
  rewrite (parseState_absent _ _ A). exact A.
Qed.

Lemma consecutive_absent (d : string) (ws : list World) :
  forall w, absent (fs w) d -> consecutive d w ws ->
  Forall (fun w' => absent (fs w') d) ws.
Proof.
  induction ws as [|w' ws IH]; intros w A C; [constructor|].
  destruct C as [K C].
  assert (A' : absent (fs w') d).
  { unfold absent. rewrite K. now apply handler_absent. }
  constructor; [exact A' | now apply (IH w')].
Qed.

Lemma consecutive_counts (d : string) (ws : list World) :
  forall (w : World) (st : MVPBuilderState) (c m : Z),
    triggered_on w d st -> well_formed st = true ->
    currentIteration st = Int c -> maxIterations st = Int m ->
    consecutive d w ws ->
    Forall (fun w' => one_line_hashes w' d) (w :: ws) ->
    forall i wi, nth_error (w :: ws) i = Some wi ->
      absent (fs wi) d \/
      exists sti,
        triggered_on wi d sti /\ well_formed sti = true /\
        currentIteration sti = Int (c + Z.of_nat i) /\
        maxIterations sti = Int m.
Proof.
  induction ws as [|w' ws IH]; intros w st c m T W Hc Hm C G i wi Hi.
  - destruct i as [|i]; [|destruct i; discriminate].
    injection Hi as <-. right. exists st.
    rewrite Z.add_0_r. auto.
  - destruct i as [|i].
    + injection Hi as <-. right. exists st. rewrite Z.add_0_r. auto.
    + cbn [nth_error] in Hi. destruct C as [K C].
      inversion G as [|? ? G1 G2]; subst.
      destruct (trigger_exact w d st T W G1)
        as [A|(_ & st' & P & E & Ha & Hi' & Hm')].
      * left.
        assert (A' : absent (fs w') d) by (unfold absent; now rewrite K).
        pose proof (consecutive_absent d ws w' A' C) as F.
        assert (F' : Forall (fun x => absent (fs x) d) (w' :: ws))
          by (now constructor).
        rewrite Forall_forall in F'. apply F'.
        now apply nth_error_In in Hi.
      * assert (P' : persisted (fs w') d st')
          by (unfold persisted; now rewrite K).
        pose proof (persisted_exact_triggered w' d st' P' E Ha) as T'.
        rewrite Hc in Hi'. cbn [num_succ] in Hi'. rewrite Hm in Hm'.
        destruct (IH w' st' (c + 1)%Z m T' (proj1 E) Hi' Hm' C G2 i wi Hi)
          as [A|(sti & Ti & Wi & Ci & Mi)]; [now left|].
        right. exists sti. repeat (split; [assumption|]).
        split; [|exact Mi]. rewrite Ci. f_equal. lia.
Qed.

Lemma last_cons_default {A} (l : list A) (a x y : A) :
  last (a :: l) x = last (a :: l) y.
Proof.
  revert a; induction l as [|b l IH]; intros a; [reflexivity|].
  change (last (a :: b :: l) x) with (last (b :: l) x).
  change (last (a :: b :: l) y) with (last (b :: l) y). apply IH.
Qed.

Lemma nth_error_last {A} (l : list A) (x : A) :
  nth_error (x :: l) (List.length l) = Some (last l x).
Proof.
  revert x; induction l as [|y l IH]; intros x; [reflexivity|].
  cbn [List.length nth_error]. rewrite IH. f_equal.
  destruct l as [|a l]; [reflexivity|].
  change (last (y :: a :: l) x) with (last (a :: l) x).
  apply last_cons_default.
Qed.

Lemma demo_one_line_hashes (text response : string) :
  one_line_hashes (demo_world "/app" text response) "/app".
Proof. intros m h H. injection H as <-. reflexivity. Qed.







(** ** Round trip through the state file of the story-queue plugin *)

Lemma raw_value_lines (key v : string) (pre post : list string) :
  Forall (skipped_line key) pre ->
  no_line_terminator v = true ->
  head_not_space v = true ->
  find_line_start true (key ++ ":")
    (join nl (pre ++ (key ++ ": " ++ v)%string :: post)%list)
  = Some (" " ++ v ++ match post with [] => "" | _ => nl ++ join nl post end)
  /\
  take_line (skip_space
    (" " ++ v ++ match post with [] => "" | _ => nl ++ join nl post end)) = v.
Proof.
  intros Hpre Hv Hh.
  rewrite join_fold, (find_line_start_lines _ _ _ Hpre).
  assert (E : join nl ((key ++ ": " ++ v) :: post)
              = (key ++ ":") ++ " " ++ v ++
                match post with [] => "" | _ => nl ++ join nl post end).
  { destruct post; cbn [join String.concat];
      rewrite ?append_assoc; cbn [append]; now rewrite ?append_nil_r. }
  rewrite E, (find_line_start_here _ _ _ (strip_prefix_app _ _)).
  split; [reflexivity|].
  cbn [append skip_space]. change (is_space " ") with true. cbv iota.
  rewrite skip_space_head by now apply head_not_space_app.
  destruct post.
  - now rewrite append_nil_r, take_line_whole.
  - change (nl ++ join nl (s :: post)) with (String LF (join nl (s :: post))).
    now rewrite take_line_app.
Qed.

Lemma story_getValue_nth (lines : list string) (i : nat) (key v : string) :
  nth_error lines i = Some (key ++ ": " ++ v) ->
  Forall (skipped_line key) (firstn i lines) ->
  no_line_terminator v = true ->
  head_not_space v = true ->
  Story.getValue (join nl lines) key = Some (Story.strip_quotes v).
Proof.
  intros Hn Hpre Hv Hh.
  destruct (nth_error_split _ _ Hn) as (pre & post & -> & <-).
  rewrite firstn_app, firstn_all, Nat.sub_diag in Hpre.
  cbn [firstn] in Hpre. rewrite List.app_nil_r in Hpre.
  unfold Story.getValue.
  destruct (raw_value_lines key v pre post Hpre Hv Hh) as [-> ->].
  reflexivity.
Qed.

Lemma drop_final_quote_app (s : string) :
  Story.drop_final_quote (s ++ dq) = s.
Proof.
  induction s as [|c s IH]; [reflexivity|].
  cbn [append Story.drop_final_quote]. rewrite IH.
  destruct (s ++ dq) eqn:E; [destruct s; discriminate E|reflexivity].
Qed.

Lemma story_strip_quotes_quoted (s : string) :
  Story.strip_quotes (dq ++ s ++ dq) = s.
Proof.
  cbn [dq append Story.strip_quotes]. change (is_quote DQ) with true.
  cbv iota. apply drop_final_quote_app.
Qed.

Lemma drop_final_quote_plain (s : string) :
  ends_plain s = true -> Story.drop_final_quote s = s.
Proof.
  induction s as [|c s IH]; [reflexivity|].
  cbn [ends_plain Story.drop_final_quote]. destruct s as [|c' s'].
  - intros H. apply negb_true_iff in H. now rewrite H.
  - intros H. now rewrite (IH H).
Qed.

Lemma story_strip_quotes_plain (c : ascii) (s : string) :
  is_quote c = false -> ends_plain (String c s) = true ->
  Story.strip_quotes (String c s) = String c s.
Proof.
  intros Q E. unfold Story.strip_quotes. rewrite Q.
  now apply drop_final_quote_plain.
Qed.

Lemma ends_plain_forall (s : string) :
  string_forall (fun c => negb (is_quote c)) s = true -> ends_plain s = true.
Proof.
  induction s as [|c s IH]; [reflexivity|].
  cbn [string_forall ends_plain]. intros H. apply andb_true_iff in H.
  destruct H as [H1 H2]. destruct s; [exact H1 | now apply IH].
Qed.

Lemma ends_plain_bracket (s : string) : ends_plain (s ++ "]") = true.
Proof.
  induction s as [|c s IH]; [reflexivity|].
  cbn [append ends_plain]. destruct (s ++ "]") eqn:E;
    [destruct s; discriminate E | exact IH].
Qed.

Lemma is_digit_not_quote (c : ascii) :
  is_digit c = true -> negb (is_quote c) = true.
Proof.
  destruct c as [[] [] [] [] [] [] [] []]; cbn; intros H;
    try discriminate H; reflexivity.
Qed.

Lemma ends_plain_show_num (n : num) : ends_plain (show_num n) = true.
Proof.
  destruct n as [z|]; [|reflexivity].
  unfold show_num. destruct (Z.to_int z) as [d|d];
    cbn [NilZero.string_of_int];
    destruct (digits_of_uint_nz d) as (D & N & _ & _).
  - apply ends_plain_forall.
    eapply string_forall_impl; [|exact D]. exact is_digit_not_quote.
  - apply ends_plain_forall. cbn [string_forall].
    apply andb_true_iff. split; [reflexivity|].
    eapply string_forall_impl; [|exact D]. exact is_digit_not_quote.
Qed.

Lemma ends_plain_JSON_stringify (l : list string) :
  ends_plain (JSON_stringify l) = true.
Proof.
  unfold JSON_stringify.
  change ("[" ++ join "," (map json_quote l) ++ "]")
    with (("[" ++ join "," (map json_quote l)) ++ "]").
  apply ends_plain_bracket.
Qed.

Lemma open_fence_char (c : ascii) (s : string) :
  is_line_terminator c = false ->
  Story.lazy_until_open_fence (String c s) =
  match Story.lazy_until_open_fence s with
  | Some f => Some (String c f)
  | None => None
  end.
Proof.
  intros H. cbn [Story.lazy_until_open_fence].
  replace (strip_prefix (nl ++ "---") (skip_cr (String c s)))
    with (@None string); [reflexivity|].
  unfold skip_cr. unfold is_line_terminator in H.
  apply orb_false_iff in H. destruct H as [H1 H2]. rewrite H2.
  change (strip_prefix (nl ++ "---") (String c s))
    with (if (LF =? c)%char then strip_prefix "---" s else None).
  rewrite Ascii.eqb_sym in H1. now rewrite H1.
Qed.

Lemma open_fence_line (l s : string) :
  no_line_terminator l = true ->
  Story.lazy_until_open_fence (l ++ s) =
  match Story.lazy_until_open_fence s with
  | Some f => Some (l ++ f)
  | None => None
  end.
Proof.
  induction l as [|c l IH]; cbn [append no_line_terminator].
  - intros _. now destruct (Story.lazy_until_open_fence s).
  - intros E. apply andb_true_iff in E. destruct E as [E1 E2].
    apply negb_true_iff in E1. rewrite (open_fence_char _ _ E1), (IH E2).
    now destruct (Story.lazy_until_open_fence s).
Qed.

Lemma open_fence_newline (l s : string) :
  differs "---" l = true ->
  Story.lazy_until_open_fence (String LF (l ++ s)) =
  match Story.lazy_until_open_fence (l ++ s) with
  | Some f => Some (String LF f)
  | None => None
  end.
Proof.
  intros D. cbn [Story.lazy_until_open_fence].
  replace (strip_prefix (nl ++ "---") (skip_cr (String LF (l ++ s))))
    with (@None string); [reflexivity|].
  cbn [skip_cr]. change (LF =? CR)%char with false.
  cbv iota. change (strip_prefix (nl ++ "---") (String LF (l ++ s)))
    with (strip_prefix "---" (l ++ s)).
  now rewrite (differs_strip _ _ s D).
Qed.

Lemma open_fence_lines (lines : list string) (rest : string) :
  Forall (fun l => no_line_terminator l = true /\ differs "---" l = true) lines ->
  lines <> [] ->
  Story.lazy_until_open_fence (join nl lines ++ nl ++ "---" ++ rest)
  = Some (join nl lines).
Proof.
  induction 1 as [|l ls [Hl Dl] Hls IH]; [congruence|]. intros _.
  destruct ls as [|y ls].
  - cbn [join String.concat]. rewrite (open_fence_line _ _ Hl).
    cbn. now rewrite append_nil_r.
  - rewrite join_cons, !append_assoc, (open_fence_line _ _ Hl).
    change (nl ++ join nl (y :: ls) ++ nl ++ "---" ++ rest)
      with (String LF (join nl (y :: ls) ++ nl ++ "---" ++ rest)).
    assert (Dy : differs "---" y = true) by (inversion Hls; tauto).
    assert (E : join nl (y :: ls) ++ nl ++ "---" ++ rest
                = y ++ match ls with
                       | [] => ""
                       | _ => nl ++ join nl ls
                       end ++ nl ++ "---" ++ rest).
    { destruct ls; [reflexivity|]. now rewrite join_cons, !append_assoc. }
    rewrite E, (open_fence_newline _ _ Dy), <- E, IH by discriminate.
    reflexivity.
Qed.

Section StoryWritten.
Variable st : Story.MVPBuilderState.
Hypothesis Hi : single_line (Story.instructionsPath st) = true.
Hypothesis Hs : single_line (Story.startedAt st) = true.

Lemma story_lines_single :
  Forall (fun l => no_line_terminator l = true) (Story.frontmatter_lines st).
Proof.
  destruct (single_line_split _ Hi) as [Li _].
  destruct (single_line_split _ Hs) as [Ls _].
  unfold Story.frontmatter_lines.
  repeat apply Forall_cons; try apply Forall_nil;
    rewrite !no_line_terminator_app; rewrite ?Li, ?Ls; try reflexivity.
  - now destruct (Story.active st).
  - now destruct (show_num_shape (Story.iteration st)) as (-> & _).
  - now destruct (show_num_shape (Story.maxIterations st)) as (-> & _).
  - now destruct (JSON_stringify_shape (Story.referenceDocs st)) as (-> & _).
Qed.

Lemma story_match_written :
  Story.match_frontmatter (Story.state_text st)
  = Some (join nl (Story.frontmatter_lines st)).
Proof.
  unfold Story.state_text, Story.match_frontmatter.
  rewrite strip_prefix_app.
  match goal with
  | |- context [strip_prefix nl (skip_cr (nl ++ ?r))] =>
      change (strip_prefix nl (skip_cr (nl ++ r))) with (Some r)
  end.
  apply open_fence_lines; [|discriminate].
  pose proof story_lines_single as S.
  unfold Story.frontmatter_lines in *.
  repeat match goal with
         | H : Forall _ (_ :: _) |- _ => inversion_clear H
         end.
  repeat apply Forall_cons; try apply Forall_nil;
    (split; [assumption|reflexivity]).
Qed.

Let fm := join nl (Story.frontmatter_lines st).

Lemma story_value_written (i : nat) (key v : string) :
  nth_error (Story.frontmatter_lines st) i = Some (key ++ ": " ++ v) ->
  forallb (differs (key ++ ":")) (firstn i (Story.frontmatter_lines st))
    = true ->
  head_not_space v = true ->
  Story.getValue fm key = Some (Story.strip_quotes v).
Proof.
  intros Hn Hd Hh.
  assert (Hv : no_line_terminator v = true).
  { pose proof story_lines_single as S.
    rewrite Forall_forall in S.
    specialize (S _ (nth_error_In _ _ Hn)).
    rewrite !no_line_terminator_app in S.
    apply andb_true_iff in S. destruct S as [_ S].
    apply andb_true_iff in S. now destruct S. }
  apply (story_getValue_nth _ i); try assumption.
  apply skipped_lines_firstn; [exact story_lines_single | exact Hd].
Qed.

Lemma story_value_number (i : nat) (key : string) (n : num) :
  nth_error (Story.frontmatter_lines st) i
    = Some (key ++ ": " ++ show_num n) ->
  forallb (differs (key ++ ":")) (firstn i (Story.frontmatter_lines st))
    = true ->
  forall d, parseInt (or_default (Story.getValue fm key) d) = n.
Proof.
  intros Hn Hd d.
  destruct (show_num_shape n) as (_ & N & H & (c & s & E & Q)).
  rewrite (story_value_written i key _ Hn Hd H).
  pose proof (ends_plain_show_num n) as P. rewrite E in P.
  rewrite E, (story_strip_quotes_plain _ _ Q P), <- E.
  rewrite (or_default_nonempty _ _ N). apply parseInt_show_num.
Qed.

Lemma story_value_quoted (i : nat) (key s : string) :
  nth_error (Story.frontmatter_lines st) i
    = Some (key ++ ": " ++ dq ++ s ++ dq) ->
  forallb (differs (key ++ ":")) (firstn i (Story.frontmatter_lines st))
    = true ->
  single_line s = true ->
  forall d, or_default (Story.getValue fm key) d = s.
Proof.
  intros Hn Hd Hl d. destruct (single_line_split _ Hl) as [L N].
  rewrite (story_value_written i key _ Hn Hd eq_refl).
  rewrite story_strip_quotes_quoted. now apply or_default_nonempty.
Qed.

Lemma story_state_of_match_written (w : World) :
  Story.state_of_match w fm = st.
Proof.
  unfold Story.state_of_match. cbv zeta.
  rewrite (story_value_number 1 "iteration" (Story.iteration st) eq_refl eq_refl).
  rewrite (story_value_number 2 "max_iterations" (Story.maxIterations st)
             eq_refl eq_refl).
  rewrite (story_value_quoted 3 "instructions_path" (Story.instructionsPath st)
             eq_refl eq_refl Hi).
  rewrite (story_value_quoted 5 "started_at" (Story.startedAt st)
             eq_refl eq_refl Hs).
  assert (A : Story.getValue fm "active" = Some (show_bool (Story.active st))).
  { rewrite (story_value_written 0 "active" (show_bool (Story.active st))
               eq_refl eq_refl)
      by (now destruct (Story.active st)).
    now destruct (Story.active st). }
  rewrite A.
  assert (R : Story.getArrayValue fm "reference_docs" = Story.referenceDocs st).
  { unfold Story.getArrayValue.
    destruct (JSON_stringify_shape (Story.referenceDocs st)) as (_ & (s & E) & NE).
    rewrite (story_value_written 4 "reference_docs"
               (JSON_stringify (Story.referenceDocs st)) eq_refl eq_refl)
      by (now rewrite E).
    pose proof (ends_plain_JSON_stringify (Story.referenceDocs st)) as P.
    rewrite E in P.
    rewrite E, (story_strip_quotes_plain "[" s eq_refl P), <- E.
    destruct (Story.referenceDocs st) as [|x l] eqn:D; [reflexivity|].
    rewrite NE by discriminate. rewrite E. cbn [nonempty negb orb].
    rewrite <- E. now rewrite JSON_parse_stringify. }
  rewrite R.
  replace (show_bool (Story.active st) =? "true") with (Story.active st)
    by (now destruct (Story.active st)).
  now destruct st.
Qed.

End StoryWritten.



(** ** Discovery in the earlier plugin *)

Lemma ascii_compare_lt_trans (a b c : ascii) :
  (a ?= b)%char = Lt -> (b ?= c)%char <> Gt -> (a ?= c)%char = Lt.
Proof.
  unfold Ascii.compare. rewrite N.compare_lt_iff, N.compare_le_iff,
    N.compare_lt_iff. apply N.lt_le_trans.
Qed.

Lemma string_leb_trans (a b c : string) :
  String.leb a b = true -> String.leb b c = true -> String.leb a c = true.
Proof.
  unfold String.leb.
  revert b c; induction a as [|x a IH]; intros b c.
  - destruct c; reflexivity.
  - destruct b as [|y b]; [discriminate|].
    destruct c as [|z c]; [intros _; discriminate|].
    cbn [String.compare].
    destruct (x ?= y)%char eqn:E1; [| |discriminate].
    + apply Ascii.compare_eq_iff in E1. subst y.
      destruct (x ?= z)%char eqn:E2; [|reflexivity|discriminate].
      apply IH.
    + intros _ H2.
      assert (L : (x ?= z)%char = Lt).
      { apply (ascii_compare_lt_trans x y z E1).
        destruct (y ?= z)%char; congruence. }
      now rewrite L.
Qed.

Lemma insert_sorted_perm (x : string) (l : list string) :
  Permutation (LegacyPlugin.insert_sorted x l) (x :: l).
Proof.
  induction l as [|y l IH]; [reflexivity|].
  cbn [LegacyPlugin.insert_sorted]. destruct (String.leb x y); [reflexivity|].
  rewrite IH. apply perm_swap.
Qed.

Lemma legacy_sort_perm (l : list string) : Permutation (LegacyPlugin.sort l) l.
Proof.
  induction l as [|a l IH]; [reflexivity|].
  cbn [LegacyPlugin.sort fold_right]. fold (LegacyPlugin.sort l).
  rewrite insert_sorted_perm. now constructor.
Qed.

Lemma insert_sorted_sorted (x : string) (l : list string) :
  StronglySorted (fun a b => String.leb a b = true) l ->
  StronglySorted (fun a b => String.leb a b = true)
    (LegacyPlugin.insert_sorted x l).
Proof.
  induction 1 as [|y l S IH F]; cbn [LegacyPlugin.insert_sorted].
  - constructor; constructor.
  - destruct (String.leb x y) eqn:L.
    + constructor; [now constructor|].
      constructor; [exact L|].
      eapply Forall_impl; [|exact F]. cbn. intros b Hb.
      now apply (string_leb_trans x y b).
    + constructor; [exact IH|].
      eapply Permutation_Forall; [symmetry; apply insert_sorted_perm|].
      constructor; [|exact F].
      destruct (String.leb_total x y) as [H|H]; congruence.
Qed.

Lemma legacy_sort_sorted (l : list string) :
  StronglySorted (fun a b => String.leb a b = true) (LegacyPlugin.sort l).
Proof.
  induction l as [|a l IH]; [constructor|].
  cbn [LegacyPlugin.sort fold_right]. fold (LegacyPlugin.sort l).
  now apply insert_sorted_sorted.
Qed.

(** X21. [discoverPromptFiles] of the earlier plugin returns the entries
    named [prompt_N.md] of the folder [instructions], each once, in the
    order of their code units (so [prompt_10.md] comes before
    [prompt_2.md]), every one with the title [Pending] and the status
    [pending]. *)
Theorem legacy_discovery_in_code_unit_order (w : World) (d : string)
  (files : list string) :
  fs w (path_join d "instructions") = Some (Dir files) ->
  exists found,
    LegacyPlugin.discoverPromptFiles w d = Return found /\
    Permutation (map filename found) (filter is_prompt_file files) /\
    StronglySorted (fun a b => String.leb a b = true) (map filename found) /\
    Forall (fun p => title p = "Pending" /\ status p = pending) found.
Proof.
  intros H. unfold LegacyPlugin.discoverPromptFiles, existsSync, readdirSync.
  rewrite H. cbn [negb bind]. eexists. split; [reflexivity|].
  rewrite map_map. cbn [filename]. rewrite map_id.
  split; [apply legacy_sort_perm|]. split; [apply legacy_sort_sorted|].
  apply Forall_forall. intros p Hp. apply in_map_iff in Hp.
  destruct Hp as (f & <- & _). auto.
Qed.

Lemma legacy_discovery_in_code_unit_order_witness :
  LegacyPlugin.discoverPromptFiles (demo_prompts_world "" "") "/app"
  = Return [mkPromptInfo "prompt_01.md" "Pending" pending;
            mkPromptInfo "prompt_10.md" "Pending" pending;
            mkPromptInfo "prompt_2.md" "Pending" pending] /\
  exists found,
    LegacyPlugin.discoverPromptFiles (demo_prompts_world "" "") "/app"
      = Return found /\
    Permutation (map filename found)
      (filter is_prompt_file
         ["prompt_10.md"; "notes.md"; "prompt_2.md"; "prompt_01.md"]) /\
    StronglySorted (fun a b => String.leb a b = true) (map filename found) /\
    Forall (fun p => title p = "Pending" /\ status p = pending) found.
Proof.
  split; [vm_compute; reflexivity|].
  apply (legacy_discovery_in_code_unit_order (demo_prompts_world "" "") "/app").
  reflexivity.
Defined.

(** ** Line endings *)

(** A pattern without line terminator. *)
Lemma strip_prefix_crlf (p s : string) :
  no_line_terminator p = true ->
  strip_prefix p (crlf s) =
  match strip_prefix p s with
  | Some r => Some (crlf r)
  | None => None
  end.
Proof.
  revert s; induction p as [|a p IH]; intros s; [reflexivity|].
  cbn [no_line_terminator]. intros H. apply andb_true_iff in H.
  destruct H as [H1 H2]. apply negb_true_iff in H1.
  unfold is_line_terminator in H1. apply orb_false_iff in H1.
  destruct H1 as [A1 A2].
  destruct s as [|b s]; [reflexivity|]. cbn [crlf strip_prefix].
  destruct (Ascii.eqb_spec b LF) as [->|N].
  - cbn [strip_prefix]. now rewrite A1, A2.
  - cbn [strip_prefix]. destruct (a =? b)%char; [now apply IH|reflexivity].
Qed.

Lemma crlf_app (a b : string) : crlf (a ++ b) = crlf a ++ crlf b.
Proof.
  induction a as [|c a IH]; [reflexivity|]. cbn [append crlf].
  destruct (c =? LF)%char; cbn [append]; now rewrite IH.
Qed.

Lemma cr_free_cons (c : ascii) (s : string) :
  cr_free (String c s) = true -> (c =? CR)%char = false /\ cr_free s = true.
Proof.
  unfold cr_free. cbn [string_forall]. intros H.
  apply andb_true_iff in H. destruct H as [H1 H2].
  apply negb_true_iff in H1. auto.
Qed.

Lemma cr_free_strip (p s r : string) :
  cr_free s = true -> strip_prefix p s = Some r -> cr_free r = true.
Proof.
  revert s; induction p as [|a p IH]; intros s H; [now intros [= <-]|].
  destruct s as [|b s]; [discriminate|]. cbn [strip_prefix].
  destruct (cr_free_cons _ _ H) as [_ H'].
  destruct (a =? b)%char; [now apply IH|discriminate].
Qed.

(** The line feed at the start of a line, after an optional CR. *)
Lemma strip_nl_crlf (t : string) :
  cr_free t = true ->
  strip_prefix nl (skip_cr (crlf t)) =
  match strip_prefix nl (skip_cr t) with
  | Some r => Some (crlf r)
  | None => None
  end.
Proof.
  destruct t as [|c t]; [reflexivity|]. intros H.
  destruct (cr_free_cons _ _ H) as [N _].
  cbn [crlf skip_cr]. rewrite N.
  destruct (Ascii.eqb_spec c LF) as [->|M].
  - reflexivity.
  - cbn [skip_cr]. rewrite N. cbn [nl strip_prefix].
    destruct (Ascii.eqb_spec LF c) as [E|_]; [now subst|reflexivity].
Qed.

Lemma skip_cr_free (t : string) : cr_free t = true -> skip_cr t = t.
Proof.
  destruct t as [|c t]; [reflexivity|]. intros H.
  destruct (cr_free_cons _ _ H) as [N _]. cbn. now rewrite N.
Qed.

Lemma strip_prefix_cons (a b : ascii) (p s : string) :
  strip_prefix (String a p) (String b s)
  = if (a =? b)%char then strip_prefix p s else None.
Proof. reflexivity. Qed.

Lemma closing_fence_crlf (s : string) :
  cr_free s = true ->
  closing_fence (crlf s) =
  match closing_fence s with
  | Some b => Some (crlf b)
  | None => None
  end.
Proof.
  intros H. unfold closing_fence.
  change (nl ++ "---") with (String LF "---").
  destruct s as [|c s]; [reflexivity|].
  destruct (cr_free_cons _ _ H) as [N H'].
  cbn [crlf]. destruct (Ascii.eqb_spec c LF) as [->|M].
  - cbn [skip_cr]. change (CR =? CR)%char with true.
    change (LF =? CR)%char with false. cbv iota.
    rewrite !strip_prefix_cons. change (LF =? LF)%char with true. cbv iota.
    rewrite (strip_prefix_crlf "---" s eq_refl).
    destruct (strip_prefix "---" s) as [t|] eqn:E; [|reflexivity].
    apply strip_nl_crlf. exact (cr_free_strip _ _ _ H' E).
  - cbn [skip_cr]. rewrite N. rewrite !strip_prefix_cons.
    destruct (Ascii.eqb_spec LF c) as [E|_]; [now subst|reflexivity].
Qed.

Lemma closing_fence_after_cr (s : string) :
  closing_fence (String CR (String LF s)) = closing_fence (String LF s).
Proof. reflexivity. Qed.

Lemma lazy_until_fence_crlf (s : string) :
  cr_free s = true ->
  lazy_until_fence (crlf s) =
  match lazy_until_fence s with
  | Some (f, b) => Some (crlf f, crlf b)
  | None => None
  end.
Proof.
  induction s as [|c s IH]; intros H.
  - reflexivity.
  - destruct (cr_free_cons _ _ H) as [N H'].
    pose proof (closing_fence_crlf (String c s) H) as C.
    cbn [lazy_until_fence].
    destruct (closing_fence (String c s)) as [b|] eqn:E.
    + destruct (crlf (String c s)) eqn:X.
      * cbn [crlf] in X. destruct (c =? LF)%char; discriminate X.
      * cbn [lazy_until_fence]. now rewrite C.
    + cbn [crlf] in *. destruct (Ascii.eqb_spec c LF) as [->|M].
      * cbn [lazy_until_fence]. rewrite C.
        rewrite closing_fence_after_cr in C. rewrite C.
        rewrite (IH H').
        destruct (lazy_until_fence s) as [[f b]|]; [|reflexivity].
        cbn [crlf]. reflexivity.
      * cbn [lazy_until_fence]. rewrite C, (IH H').
        destruct (lazy_until_fence s) as [[f b]|]; [|reflexivity].
        cbn [crlf]. destruct (Ascii.eqb_spec c LF); [contradiction|reflexivity].
Qed.

Lemma match_frontmatter_crlf (content : string) :
  cr_free content = true ->
  match_frontmatter (crlf content) =
  match match_frontmatter content with
  | Some (f, b) => Some (crlf f, crlf b)
  | None => None
  end.
Proof.
  intros H. unfold match_frontmatter.
  rewrite (strip_prefix_crlf "---" content eq_refl).
  destruct (strip_prefix "---" content) as [t|] eqn:E; [|reflexivity].
  pose proof (cr_free_strip _ _ _ H E) as Ht.
  rewrite (strip_nl_crlf t Ht).
  destruct (strip_prefix nl (skip_cr t)) as [r|] eqn:F; [|reflexivity].
  apply lazy_until_fence_crlf.
  rewrite (skip_cr_free t Ht) in F. exact (cr_free_strip _ _ _ Ht F).
Qed.

Lemma cr_free_app (a b : string) :
  cr_free (a ++ b) = cr_free a && cr_free b.
Proof. apply string_forall_app. Qed.

Lemma lazy_until_fence_cr_free (s f b : string) :
  cr_free s = true -> lazy_until_fence s = Some (f, b) ->
  cr_free f = true /\ cr_free b = true.
Proof.
  intros H L. destruct (lazy_until_fence_sound _ _ _ L) as (e2 & e3 & _ & _ & ->).
  rewrite !cr_free_app in H.
  apply andb_true_iff in H. destruct H as [H1 H].
  apply andb_true_iff in H. destruct H as [_ H].
  apply andb_true_iff in H. destruct H as [_ H].
  apply andb_true_iff in H. destruct H as [_ H]. auto.
Qed.

Lemma match_frontmatter_cr_free (content f b : string) :
  cr_free content = true -> match_frontmatter content = Some (f, b) ->
  cr_free f = true /\ cr_free b = true.
Proof.
  intros H. unfold match_frontmatter.
  destruct (strip_prefix "---" content) as [t|] eqn:E; [|discriminate].
  pose proof (cr_free_strip _ _ _ H E) as Ht.
  rewrite (skip_cr_free t Ht).
  destruct (strip_prefix nl t) as [r|] eqn:F; [|discriminate].
  apply lazy_until_fence_cr_free. exact (cr_free_strip _ _ _ Ht F).
Qed.

(** *** Values *)

Lemma find_line_start_crlf (pat : string) (s : string) (b : bool) :
  no_line_terminator pat = true -> nonempty pat = true ->
  find_line_start b pat (crlf s) =
  match find_line_start b pat s with
  | Some r => Some (crlf r)
  | None => None
  end.
Proof.
  intros P N. revert b; induction s as [|c s IH]; intros b.
  - destruct pat; [discriminate N|]. now destruct b.
  - pose proof (strip_prefix_crlf pat (String c s) P) as S.
    cbn [crlf] in *. destruct (Ascii.eqb_spec c LF) as [->|M].
    + assert (X : forall t, strip_prefix pat (String LF t) = None).
      { intros t. destruct pat as [|a p]; [discriminate|].
        rewrite strip_prefix_cons. cbn [no_line_terminator] in P.
        apply andb_true_iff in P. destruct P as [P _].
        apply negb_true_iff in P. unfold is_line_terminator in P.
        apply orb_false_iff in P. destruct P as [P _]. now rewrite P. }
      assert (Y : forall t, strip_prefix pat (String CR t) = None).
      { intros t. destruct pat as [|a p]; [discriminate|].
        rewrite strip_prefix_cons. cbn [no_line_terminator] in P.
        apply andb_true_iff in P. destruct P as [P _].
        apply negb_true_iff in P. unfold is_line_terminator in P.
        apply orb_false_iff in P. destruct P as [_ P]. now rewrite P. }
      destruct b; cbn [find_line_start]; rewrite ?X, ?Y;
        change (is_line_terminator CR) with true;
        change (is_line_terminator LF) with true;
        cbv iota; rewrite ?X; apply IH.
    + cbn [find_line_start]. destruct b.
      * rewrite S. destruct (strip_prefix pat (String c s)); [reflexivity|].
        apply IH.
      * apply IH.
Qed.

Lemma skip_space_crlf (s : string) : skip_space (crlf s) = crlf (skip_space s).
Proof.
  induction s as [|c s IH]; [reflexivity|]. cbn [crlf skip_space].
  destruct (Ascii.eqb_spec c LF) as [->|M].
  - cbn [skip_space]. change (is_space CR) with true.
    change (is_space LF) with true. cbv iota. exact IH.
  - cbn [skip_space]. destruct (is_space c); [exact IH|].
    cbn [crlf]. destruct (Ascii.eqb_spec c LF); [contradiction|reflexivity].
Qed.

Lemma take_line_crlf (s : string) :
  cr_free s = true -> take_line (crlf s) = take_line s.
Proof.
  induction s as [|c s IH]; [reflexivity|]. intros H.
  destruct (cr_free_cons _ _ H) as [N H'].
  cbn [crlf take_line]. destruct (Ascii.eqb_spec c LF) as [->|M].
  - reflexivity.
  - cbn [take_line]. destruct (is_line_terminator c); [reflexivity|].
    now rewrite (IH H').
Qed.

Lemma cr_free_skip_space (s : string) :
  cr_free s = true -> cr_free (skip_space s) = true.
Proof.
  induction s as [|c s IH]; [reflexivity|]. intros H.
  destruct (cr_free_cons _ _ H) as [N H'].
  cbn [skip_space]. destruct (is_space c); [now apply IH | exact H].
Qed.

Lemma find_line_start_cr_free (b : bool) (pat s r : string) :
  cr_free s = true -> find_line_start b pat s = Some r -> cr_free r = true.
Proof.
  intros H F. destruct (find_line_start_occurs _ _ _ _ F) as [pre ->].
  rewrite !cr_free_app in H.
  apply andb_true_iff in H. destruct H as [_ H].
  apply andb_true_iff in H. now destruct H.
Qed.

Lemma getValue_crlf (fm key : string) :
  cr_free fm = true -> no_line_terminator key = true ->
  getValue (crlf fm) key = getValue fm key.
Proof.
  intros H K. unfold getValue.
  rewrite find_line_start_crlf.
  - destruct (find_line_start true (key ++ ":") fm) as [r|] eqn:F;
      [|reflexivity].
    rewrite skip_space_crlf, take_line_crlf; [reflexivity|].
    apply cr_free_skip_space. exact (find_line_start_cr_free _ _ _ _ H F).
  - now rewrite no_line_terminator_app, K.
  - destruct key; reflexivity.
Qed.

(** *** Prompt lines *)

Lemma take_digits_crlf (s : string) : take_digits (crlf s) = take_digits s.
Proof.
  induction s as [|c s IH]; [reflexivity|]. cbn [crlf take_digits].
  destruct (Ascii.eqb_spec c LF) as [->|M]; [reflexivity|].
  cbn [take_digits]. destruct (is_digit c); [now rewrite IH|reflexivity].
Qed.

Lemma drop_digits_crlf (s : string) :
  drop_digits (crlf s) = crlf (drop_digits s).
Proof.
  induction s as [|c s IH]; [reflexivity|]. cbn [crlf drop_digits].
  destruct (Ascii.eqb_spec c LF) as [->|M]; [reflexivity|].
  cbn [drop_digits]. destruct (is_digit c); [exact IH|].
  cbn [crlf]. destruct (Ascii.eqb_spec c LF); [contradiction|reflexivity].
Qed.

Lemma cr_free_drop_digits (s : string) :
  cr_free s = true -> cr_free (drop_digits s) = true.
Proof.
  induction s as [|c s IH]; [reflexivity|]. intros H.
  destruct (cr_free_cons _ _ H) as [N H'].
  cbn [drop_digits]. destruct (is_digit c); [now apply IH | exact H].
Qed.

Lemma match_prompt_here_crlf (s : string) :
  cr_free s = true -> match_prompt_here (crlf s) = match_prompt_here s.
Proof.
  intros H. unfold match_prompt_here.
  rewrite (strip_prefix_crlf "- [" s eq_refl).
  destruct (strip_prefix "- [" s) as [r|] eqn:E; [|reflexivity].
  pose proof (cr_free_strip _ _ _ H E) as Hr.
  destruct r as [|c s1]; [reflexivity|].
  destruct (cr_free_cons _ _ Hr) as [_ H1].
  cbn [crlf]. destruct (Ascii.eqb_spec c LF) as [->|M]; [reflexivity|].
  destruct (is_status_char c); [|reflexivity].
  rewrite (strip_prefix_crlf "] prompt_" s1 eq_refl).
  destruct (strip_prefix "] prompt_" s1) as [s3|] eqn:E3; [|reflexivity].
  pose proof (cr_free_strip _ _ _ H1 E3) as H3.
  rewrite take_digits_crlf, drop_digits_crlf.
  destruct (take_digits s3); [reflexivity|].
  rewrite (strip_prefix_crlf ".md - " (drop_digits s3) eq_refl).
  destruct (strip_prefix ".md - " (drop_digits s3)) as [s6|] eqn:E6;
    [|reflexivity].
  rewrite take_line_crlf; [reflexivity|].
  exact (cr_free_strip _ _ _ (cr_free_drop_digits _ H3) E6).
Qed.

Lemma match_prompt_here_terminator (c : ascii) (s : string) :
  is_line_terminator c = true -> match_prompt_here (String c s) = None.
Proof.
  intros H. unfold match_prompt_here. rewrite strip_prefix_cons.
  destruct (Ascii.eqb_spec "-" c) as [<-|]; [discriminate H|reflexivity].
Qed.

Lemma match_all_prompts_crlf (s : string) (b : bool) :
  cr_free s = true ->
  match_all_prompts b (crlf s) = match_all_prompts b s.
Proof.
  revert b; induction s as [|c s IH]; intros b H; [reflexivity|].
  destruct (cr_free_cons _ _ H) as [N H'].
  pose proof (match_prompt_here_crlf (String c s) H) as M.
  cbn [crlf] in *. destruct (Ascii.eqb_spec c LF) as [->|X].
  - cbn [match_all_prompts].
    rewrite !match_prompt_here_terminator by reflexivity.
    change (is_line_terminator CR) with true.
    change (is_line_terminator LF) with true.
    destruct b; cbn [negb]; now apply IH.
  - cbn [match_all_prompts]. destruct b; [now apply IH|].
    rewrite M. destruct (match_prompt_here (String c s)); now rewrite IH.
Qed.

Lemma parse_prompt_sequence_crlf (body : string) :
  cr_free body = true ->
  parse_prompt_sequence (crlf body) = parse_prompt_sequence body.
Proof.
  intros H. unfold parse_prompt_sequence.
  now rewrite match_all_prompts_crlf.
Qed.

Lemma state_of_match_crlf (w : World) (fm body : string) :
  cr_free fm = true -> cr_free body = true ->
  state_of_match w (crlf fm) (crlf body) = state_of_match w fm body.
Proof.
  intros Hf Hb. unfold state_of_match, getArrayValue.
  repeat match goal with
         | |- context [getValue (crlf fm) ?k] =>
             rewrite (getValue_crlf fm k Hf eq_refl)
         end.
  now rewrite (parse_prompt_sequence_crlf body Hb).
Qed.

(** X22. The state file may use Windows line endings: a state file
    written with LF only and the same file with every LF turned into CR LF
    are loaded as the same record (or both as none). *)
Theorem parseState_accepts_crlf (w1 w2 : World) (d content : string) :
  cr_free content = true ->
  fs w1 (path_join d STATE_FILE) = Some (File content) ->
  fs w2 (path_join d STATE_FILE) = Some (File (crlf content)) ->
  now_iso w2 = now_iso w1 ->
  parseState w2 d = parseState w1 d.
Proof.
  intros H F1 F2 T. unfold parseState, existsSync, readFileSync.
  rewrite F1, F2. cbn [negb bind].
  rewrite (match_frontmatter_crlf content H).
  destruct (match_frontmatter content) as [[fm body]|] eqn:M; [|reflexivity].
  destruct (match_frontmatter_cr_free _ _ _ H M) as [Hf Hb].
  cbn [catch]. rewrite (state_of_match_crlf w2 fm body Hf Hb).
  unfold state_of_match. now rewrite T.
Qed.

Lemma parseState_accepts_crlf_witness :
  parseState
    (world_with_state_text "/app" (crlf (state_text demo_executing_state)))
    "/app"
  = parseState
      (world_with_state_text "/app" (state_text demo_executing_state)) "/app".
Proof.
  apply (parseState_accepts_crlf
           (world_with_state_text "/app" (state_text demo_executing_state))
           (world_with_state_text "/app"
              (crlf (state_text demo_executing_state)))
           "/app" (state_text demo_executing_state)).
  - vm_compute. reflexivity.
  - vm_compute. reflexivity.
  - vm_compute. reflexivity.
  - reflexivity.
Defined.

(** ** Inputs that are missing *)

Lemma occurs_here (pat b : string) : occurs pat (pat ++ b) = true.
Proof.
  unfold occurs.
  now rewrite (split_at_first_here pat (pat ++ b) b (strip_prefix_app pat b)).
Qed.

Lemma occurs_skip (pat a b : string) :
  occurs pat b = true -> occurs pat (a ++ b) = true.
Proof.
  unfold occurs. intros H.
  destruct (split_at_first pat b) as [[x y]|] eqn:E; [|discriminate].
  apply split_at_first_occurs in E. destruct E as [-> _].
  destruct (split_at_first_found pat (a ++ x ++ pat ++ y) (a ++ x) y)
    as (u & v & ->); [now rewrite append_assoc | reflexivity].
Qed.

Lemma loadFileContent_blank (w : World) (p : string) :
  fs w p = None \/ fs w p = Some (File "") ->
  loadFileContent w p = Return "".
Proof.
  unfold loadFileContent, existsSync, readFileSync.
  now intros [-> | ->].
Qed.

Ltac find_chunk :=
  repeat first [ apply occurs_here | apply occurs_skip ].


Lemma occurs_found (pat s pre post : string) :
  s = pre ++ pat ++ post -> occurs pat s = true.
Proof.
  intros E. unfold occurs.
  now destruct (split_at_first_found pat s pre post E) as (a & b & ->).
Qed.

Lemma occurs_across (p1 v p2 a l r more : string) :
  ends_with p1 a = true ->
  strip_prefix p2 l = Some r ->
  occurs (p1 ++ v ++ p2) (a ++ v ++ l ++ more) = true.
Proof.
  intros E S. apply ends_with_sound in E. destruct E as [pre ->].
  apply strip_prefix_Some in S. subst l.
  apply (occurs_found _ _ pre (r ++ more)).
  now rewrite !append_assoc.
Qed.

Lemma occurs_across_end (p1 v p2 a l r : string) :
  ends_with p1 a = true ->
  strip_prefix p2 l = Some r ->
  occurs (p1 ++ v ++ p2) (a ++ v ++ l) = true.
Proof.
  intros E S. rewrite <- (append_nil_r l).
  now apply (occurs_across p1 v p2 a l r "").
Qed.

Ltac find_across :=
  repeat first
    [ eapply occurs_across; [vm_compute; reflexivity | reflexivity]
    | eapply occurs_across_end; [vm_compute; reflexivity | reflexivity]
    | apply occurs_here
    | apply occurs_skip ].

(** ** The story-queue plugin: prompt and handler *)

Lemma story_handler_triggered (json : string -> option Story.PRDData)
  (w : World) (d : string) (st : Story.MVPBuilderState) :
  story_triggered_on w d st ->
  num_geb (Story.iteration st) (Story.maxIterations st) = false ->
  Story.event_handler json w d "session.idle" =
  match session w with
  | Throw =>
      Story.continue_run json w d st
        [mkLog "warn" ("Could not check messages: " ++ error_text w)] []
  | Return messages =>
      let text := Story.last_text messages in
      if Story.hasPromise text "COMPLETE" then
        mkRun (fst (Story.deleteState (fs w) d))
          [mkLog "info" "🎉 MVP Builder completed! All stories passing."]
          [Story.FINAL_COMMIT] [] false
      else if Story.hasPromise text "STORY_COMPLETE" ||
              Story.hasPromise text "PRD_CREATED" then
        match gitCommit w d (Story.progress_commit st text) with
        | Some (String a h') =>
            Story.continue_run json w d st
              [mkLog "info"
                 ("📝 Committed: " ++ Story.progress_commit st text ++
                  " (" ++ String a h' ++ ")")]
              [Story.progress_commit st text]
        | _ =>
            Story.continue_run json w d st []
              [Story.progress_commit st text]
        end
      else Story.continue_run json w d st [] []
  end.
Proof.
  intros [P A] C. unfold Story.event_handler. rewrite P, A, C. reflexivity.
Qed.

Lemma story_continue_run_effects (json : string -> option Story.PRDData)
  (w : World) (d : string) (st : Story.MVPBuilderState)
  (l : list LogEntry) (c : list string) :
  let r := Story.continue_run json w d st l c in
  fs_after r = Story.writeState (fs w) d (story_next_iteration st) /\
  commits r = c /\
  sent r =
    match Story.buildPrompt json (with_fs w (fs_after r))
            (story_next_iteration st) d with
    | Return prompt =>
        ["[MVP Builder - Iteration " ++
         show_num (num_succ (Story.iteration st)) ++ "]" ++ nl ++ nl ++ prompt]
    | Throw => []
    end.
Proof.
  cbv zeta. unfold Story.continue_run. fold (story_next_iteration st).
  destruct (Story.buildPrompt json _ (story_next_iteration st) d) eqn:B;
    cbn [fs_after commits sent]; rewrite ?B; repeat split.
Qed.

(** X24. The story-queue plugin counts every trigger that does not end
    the workflow: below the limit and without the [COMPLETE] marker in the
    last response (also when the session cannot be read), the record is
    saved with the iteration counted once and nothing else changed; one
    commit is attempted when the response holds [PRD_CREATED] (which takes
    precedence) or [STORY_COMPLETE], none otherwise; and the prompt built
    from the saved record is sent under the heading of the new
    iteration. *)
Theorem story_trigger_counts_iteration (json : string -> option Story.PRDData)
  (w : World) (d : string) (st : Story.MVPBuilderState) :
  story_triggered_on w d st ->
  num_geb (Story.iteration st) (Story.maxIterations st) = false ->
  Story.hasPromise (story_response w) "COMPLETE" = false ->
  let r := Story.event_handler json w d "session.idle" in
  story_persisted (fs_after r) d (story_next_iteration st) /\
  commits r =
    (if Story.hasPromise (story_response w) "PRD_CREATED" then
       ["MVP Builder: Created prd.json"]
     else if Story.hasPromise (story_response w) "STORY_COMPLETE" then
       ["MVP Builder: Story complete (iteration " ++
        show_num (Story.iteration st) ++ ")"]
     else []) /\
  sent r =
    match Story.buildPrompt json (with_fs w (fs_after r))
            (story_next_iteration st) d with
    | Return prompt =>
        ["[MVP Builder - Iteration " ++
         show_num (num_succ (Story.iteration st)) ++ "]" ++ nl ++ nl ++ prompt]
    | Throw => []
    end.
Proof.
  intros T C N. cbv zeta.
  rewrite (story_handler_triggered json w d st T C).
  unfold story_response in *.
  assert (P : forall l c,
            story_persisted
              (fs_after (Story.continue_run json w d st l c)) d
              (story_next_iteration st)).
  { intros l c.
    destruct (story_continue_run_effects json w d st l c) as (-> & _).
    unfold story_persisted, Story.writeState, update_fs.
    now rewrite String.eqb_refl. }
  destruct (session w) as [messages|].
  - cbv zeta. rewrite N.
    unfold Story.progress_commit.
    destruct (Story.hasPromise (Story.last_text messages) "PRD_CREATED") eqn:E1;
      destruct (Story.hasPromise (Story.last_text messages) "STORY_COMPLETE")
        eqn:E2; cbn [orb];
      try destruct (gitCommit w d _) as [[|a h]|];
      (split; [apply P|]);
      match goal with
      | |- context [Story.continue_run json w d st ?l ?c] =>
          destruct (story_continue_run_effects json w d st l c)
            as (_ & -> & ->)
      end; split; reflexivity.
  - cbn [Story.hasPromise split_at_first].
    split; [apply P|].
    match goal with
    | |- context [Story.continue_run json w d st ?l ?c] =>
        destruct (story_continue_run_effects json w d st l c)
          as (_ & -> & ->)
    end. split; reflexivity.
Qed.

Lemma story_trigger_counts_iteration_witness :
  let w :=
    demo_story_world (demo_story_at 3 50) "{demo_prd}"
      "Cart works. <promise>STORY_COMPLETE</promise>" in
  let r := Story.event_handler demo_json w "/app" "session.idle" in
  story_persisted (fs_after r) "/app" (demo_story_at 4 50) /\
  commits r = ["MVP Builder: Story complete (iteration 3)"] /\
  sent r =
    match Story.buildPrompt demo_json (with_fs w (fs_after r))
            (demo_story_at 4 50) "/app" with
    | Return prompt => ["[MVP Builder - Iteration 4]" ++ nl ++ nl ++ prompt]
    | Throw => []
    end.
Proof.
  assert (T : story_triggered_on
                (demo_story_world (demo_story_at 3 50) "{demo_prd}"
                   "Cart works. <promise>STORY_COMPLETE</promise>")
                "/app" (demo_story_at 3 50))
    by (split; [vm_compute; reflexivity | reflexivity]).
  exact (story_trigger_counts_iteration demo_json _ "/app" (demo_story_at 3 50)
           T eq_refl eq_refl).
Defined.

(** X25. The story-queue plugin ends the workflow on the word of the
    agent: when the last response holds the [COMPLETE] marker anywhere,
    the final commit is made, the state file is deleted and nothing is
    sent, whatever [prd.json] says about the stories. *)
Theorem story_completion_trusts_marker (json : string -> option Story.PRDData)
  (w : World) (d : string) (st : Story.MVPBuilderState) (pre post : string) :
  story_triggered_on w d st ->
  num_geb (Story.iteration st) (Story.maxIterations st) = false ->
  story_response w = pre ++ "<promise>COMPLETE</promise>" ++ post ->
  let r := Story.event_handler json w d "session.idle" in
  absent (fs_after r) d /\
  commits r = ["MVP Builder: All stories complete! 🎉"] /\
  sent r = [] /\
  rejected r = false.
Proof.
  intros T C R. cbv zeta.
  rewrite (story_handler_triggered json w d st T C).
  unfold story_response in R.
  destruct (session w) as [messages|].
  - cbv zeta.
    assert (H : Story.hasPromise (Story.last_text messages) "COMPLETE" = true).
    { unfold Story.hasPromise.
      destruct (split_at_first_found
                  (OPEN_TAG ++ "COMPLETE" ++ CLOSE_TAG) _ pre post R)
        as (a & b & ->). reflexivity. }
    rewrite H. cbn [fs_after commits sent rejected].
    split; [|repeat split].
    unfold Story.deleteState. cbv zeta.
    destruct (fs w (path_join d STATE_FILE)) eqn:F; cbn [fst].
    + unfold absent, update_fs. now rewrite String.eqb_refl.
    + exact F.
  - exfalso. destruct pre; discriminate R.
Qed.

Lemma story_completion_trusts_marker_witness :
  let r :=
    Story.event_handler demo_json
      (demo_story_world (demo_story_at 3 50) "{demo_prd}"
         "US-003 is done. <promise>COMPLETE</promise> Two stories remain.")
      "/app" "session.idle" in
  absent (fs_after r) "/app" /\
  commits r = ["MVP Builder: All stories complete! 🎉"] /\
  sent r = [] /\
  rejected r = false.
Proof.
  assert (T : story_triggered_on
                (demo_story_world (demo_story_at 3 50) "{demo_prd}"
                   "US-003 is done. <promise>COMPLETE</promise> Two stories remain.")
                "/app" (demo_story_at 3 50))
    by (split; [vm_compute; reflexivity | reflexivity]).
  exact (story_completion_trusts_marker demo_json _ "/app" (demo_story_at 3 50)
           "US-003 is done. " " Two stories remain." T eq_refl eq_refl).
Defined.

(** X26. The prompt of the story-queue plugin follows [prd.json].
    Without a readable requirements document (missing, or not JSON) it
    asks to create one in the instructions folder and ends with the
    [PRD_CREATED] marker; when no story is pending it ends with the
    [COMPLETE] marker; otherwise it orders the story [getNextStory]
    selects, offers the [STORY_COMPLETE] marker and ends with the
    [COMPLETE] marker. *)
Theorem story_prompt_follows_requirements
  (json : string -> option Story.PRDData) (w : World)
  (st : Story.MVPBuilderState) (d prompt : string) :
  Story.buildPrompt json w st d = Return prompt ->
  match Story.loadPRD json w d (Story.instructionsPath st) with
  | None =>
      occurs ("Create `" ++ Story.instructionsPath st ++ "/prd.json`") prompt
        = true /\
      ends_with "<promise>PRD_CREATED</promise>" prompt = true
  | Some prd =>
      match Story.getNextStory prd with
      | None => ends_with "<promise>COMPLETE</promise>" prompt = true
      | Some story =>
          occurs ("START IMPLEMENTING " ++ Story.id story ++ " IMMEDIATELY")
            prompt = true /\
          occurs "<promise>STORY_COMPLETE</promise>" prompt = true /\
          ends_with "<promise>COMPLETE</promise>" prompt = true
      end
  end.
Proof.
  unfold Story.buildPrompt. cbv zeta.
  destruct (loadFileContent w _) as [overview|]; [|discriminate].
  destruct (Story.loadProgress w d _) as [progress|]; [|discriminate].
  destruct (Story.loadReferenceDocs w d _) as [docs|]; [|discriminate].
  cbn [bind].
  destruct (Story.loadPRD json w d _) as [prd|].
  - destruct (Story.getNextStory prd) as [story|];
      intros H; apply Return_inj in H; subst prompt.
    + split; [find_across|]. split.
      * repeat match goal with
               | |- occurs _ (_ ++ _) = true => apply occurs_skip
               end.
        vm_compute. reflexivity.
      * to_last_chunk. vm_compute. reflexivity.
    + to_last_chunk. vm_compute. reflexivity.
  - intros H; apply Return_inj in H; subst prompt.
    split; [find_across|]. to_last_chunk. vm_compute. reflexivity.
Qed.

Lemma story_prompt_follows_requirements_witness :
  exists prompt,
    Story.buildPrompt demo_json
      (demo_story_world (demo_story_at 4 50) "{demo_prd}" "")
      (demo_story_at 4 50) "/app" = Return prompt /\
    occurs "START IMPLEMENTING US-003 IMMEDIATELY" prompt = true /\
    occurs "<promise>STORY_COMPLETE</promise>" prompt = true /\
    ends_with "<promise>COMPLETE</promise>" prompt = true.
Proof.
  destruct (Story.buildPrompt demo_json
              (demo_story_world (demo_story_at 4 50) "{demo_prd}" "")
              (demo_story_at 4 50) "/app") as [prompt|] eqn:B;
    [|vm_compute in B; discriminate B].
  exists prompt. split; [reflexivity|].
  exact (story_prompt_follows_requirements demo_json
           (demo_story_world (demo_story_at 4 50) "{demo_prd}" "")
           (demo_story_at 4 50) "/app" prompt B).
Defined.

(** ** Consecutive triggers of the story-queue plugin *)

Lemma story_parseState_absent (w : World) (d : string) :
  absent (fs w) d -> Story.parseState w d = Return None.
Proof.
  unfold absent, Story.parseState, existsSync. now intros ->.
Qed.

Lemma story_handler_absent (json : string -> option Story.PRDData)
  (w : World) (d : string) :
  absent (fs w) d ->
  absent (fs_after (Story.event_handler json w d "session.idle")) d.
Proof.
  intros A. unfold Story.event_handler.
  cbn [String.eqb Ascii.eqb Bool.eqb negb].
  rewrite (story_parseState_absent _ _ A). exact A.
Qed.

Lemma story_deleteState_absent (f : string -> option node) (d : string) :
  absent (fst (Story.deleteState f d)) d.
Proof.
  unfold Story.deleteState. cbv zeta.
  destruct (f (path_join d STATE_FILE)) eqn:F; cbn [fst].
  - unfold absent, update_fs. now rewrite String.eqb_refl.
  - exact F.
Qed.

Lemma story_persisted_triggered (w : World) (d : string)
  (st : Story.MVPBuilderState) :
  story_persisted (fs w) d st ->
  single_line (Story.instructionsPath st) = true ->
  single_line (Story.startedAt st) = true ->
  Story.active st = true ->
  story_triggered_on w d st.
Proof.
  intros P Hi Hs A. split; [|exact A].
  unfold Story.parseState, existsSync, readFileSync. cbv zeta.
  unfold story_persisted in P. rewrite P. cbn [negb bind].
  rewrite (story_match_written st Hi Hs). cbn [catch].
  now rewrite (story_state_of_match_written st Hi Hs).
Qed.

Lemma story_trigger_step (json : string -> option Story.PRDData)
  (w : World) (d : string) (st : Story.MVPBuilderState) :
  story_triggered_on w d st ->
  let r := Story.event_handler json w d "session.idle" in
  absent (fs_after r) d \/
  (num_geb (Story.iteration st) (Story.maxIterations st) = false /\
   story_persisted (fs_after r) d (story_next_iteration st)).
Proof.
  intros T. cbv zeta.
  destruct (num_geb (Story.iteration st) (Story.maxIterations st)) eqn:C.
  - left. destruct T as [P A]. unfold Story.event_handler.
    rewrite P, A, C. cbn [String.eqb Ascii.eqb Bool.eqb negb fs_after].
    apply story_deleteState_absent.
  - rewrite (story_handler_triggered json w d st T C).
    assert (P : forall l c,
              story_persisted
                (fs_after (Story.continue_run json w d st l c)) d
                (story_next_iteration st)).
    { intros l c.
      destruct (story_continue_run_effects json w d st l c) as (-> & _).
      unfold story_persisted, Story.writeState, update_fs.
      now rewrite String.eqb_refl. }
    destruct (session w) as [messages|]; [|right; split; [reflexivity|apply P]].
    cbv zeta.
    destruct (Story.hasPromise _ "COMPLETE").
    + left. cbn [fs_after]. apply story_deleteState_absent.
    + right. split; [reflexivity|].
      destruct (_ || _); [destruct (gitCommit w d _) as [[|a h]|]|]; apply P.
Qed.

Lemma story_consecutive_absent (json : string -> option Story.PRDData)
  (d : string) (ws : list World) :
  forall w, absent (fs w) d -> story_consecutive json d w ws ->
  Forall (fun w' => absent (fs w') d) ws.
Proof.
  induction ws as [|w' ws IH]; intros w A C; [constructor|].
  destruct C as [K C].
  assert (A' : absent (fs w') d).
  { unfold absent. rewrite K. now apply story_handler_absent. }
  constructor; [exact A' | now apply (IH w')].
Qed.

Lemma story_consecutive_counts (json : string -> option Story.PRDData)
  (d : string) (ws : list World) :
  forall (w : World) (st : Story.MVPBuilderState) (c : Z),
    story_triggered_on w d st ->
    single_line (Story.instructionsPath st) = true ->
    single_line (Story.startedAt st) = true ->
    Story.iteration st = Int c ->
    story_consecutive json d w ws ->
    forall i wi, nth_error (w :: ws) i = Some wi ->
      absent (fs wi) d \/
      story_triggered_on wi d
        (Story.mkState true (Int (c + Z.of_nat i)) (Story.maxIterations st)
           (Story.instructionsPath st) (Story.referenceDocs st)
           (Story.startedAt st)).
Proof.
  induction ws as [|w' ws IH]; intros w st c T Hi Hs Hc C i wi Hn.
  - destruct i as [|i]; [|destruct i; discriminate].
    injection Hn as <-. right. rewrite Z.add_0_r, <- Hc.
    destruct T as [P A]. rewrite <- A. now destruct st.
  - destruct i as [|i].
    + injection Hn as <-. right. rewrite Z.add_0_r, <- Hc.
      destruct T as [P A]. rewrite <- A. now destruct st.
    + cbn [nth_error] in Hn. destruct C as [K C].
      destruct (story_trigger_step json w d st T) as [A|(_ & P)].
      * left.
        assert (A' : absent (fs w') d) by (unfold absent; now rewrite K).
        pose proof (story_consecutive_absent json d ws w' A' C) as F.
        assert (F' : Forall (fun x => absent (fs x) d) (w' :: ws))
          by (now constructor).
        rewrite Forall_forall in F'. apply F'.
        now apply nth_error_In in Hn.
      * assert (P' : story_persisted (fs w') d (story_next_iteration st))
          by (unfold story_persisted; now rewrite K).
        pose proof (story_persisted_triggered w' d _ P' Hi Hs (proj2 T)) as T'.
        assert (Hc' : Story.iteration (story_next_iteration st) = Int (c + 1))
          by (cbn [story_next_iteration Story.iteration]; now rewrite Hc).
        destruct (IH w' (story_next_iteration st) (c + 1)%Z T' Hi Hs Hc' C
                    i wi Hn) as [A|Ti]; [now left|].
        right. cbn [story_next_iteration Story.maxIterations
                    Story.instructionsPath Story.referenceDocs
                    Story.startedAt] in Ti.
        replace (c + Z.of_nat (S i))%Z with (c + 1 + Z.of_nat i)%Z by lia.
        exact Ti.
Qed.


